(** * Verification of the search, trace and dependency-resolution core

    A shallow embedding of the JavaScript sources
    - [src/index.js]                      ([SmartSearchEngine],
                                           [JiraIntegrationHelper]),
    - [src/security/pathSecurity.js]      ([PathSecurityValidator]),
    - [src/search/searchEngine.js]        ([RobustSearchEngine]),
    - [src/analysis/codeTraversalEngine.js] ([CodeTraversalEngine]),
    - [analysis/enhancedTraversalAnalyzer.js] ([EnhancedTraversalAnalyzer]),
    - [src/analysis/enhancedIssueFinder.js] ([EnhancedIssueFinder], the
                                           configuration references),
    - [analysis/analysisFormatter.js]     ([AnalysisFormatter.wrapText],
                                           [AnalysisFormatter.escapeHtml])
    together with the properties stated about them.

    Conventions of the embedding.
    - A JavaScript string is a [string] of 8-bit code units; case folding
      and the character classes are the ASCII ones.
    - Numbers that the code only uses as integers (scores, line numbers,
      sizes, depths) are [Z] or [nat].
    - An operation that can throw returns an [option] or an [exn] value and
      every [try]/[catch] of the source is written out.
    - The file system is a record of the functions the code calls
      ([readdir], [stat], [readFile], [lstat], [realpath]); [None] is a
      thrown I/O error.
    - [async]/[await] is sequential composition: every [await] of the
      source is joined before the code that follows it runs. *)

From Stdlib Require Import List Arith ZArith Lia Bool Ascii String.
From Stdlib Require Import Sorted Permutation.
Import ListNotations.

Local Open Scope string_scope.
Local Open Scope list_scope.
Local Open Scope nat_scope.

Set Implicit Arguments.

(* ===================================================================== *)
(** * JavaScript strings *)
(* ===================================================================== *)

Module JsString.

Definition dquote : ascii := "034"%char.
Definition newline : ascii := "010"%char.
Definition DQ : string := String dquote "".
Definition NL : string := String newline "".

Definition chars (s : string) : list ascii := list_ascii_of_string s.
Definition ofChars (l : list ascii) : string := string_of_list_ascii l.

Definition isUpper (c : ascii) : bool :=
  let n := nat_of_ascii c in (65 <=? n) && (n <=? 90).
Definition isLower (c : ascii) : bool :=
  let n := nat_of_ascii c in (97 <=? n) && (n <=? 122).
Definition isDigit (c : ascii) : bool :=
  let n := nat_of_ascii c in (48 <=? n) && (n <=? 57).
Definition isWordChar (c : ascii) : bool :=
  isUpper c || isLower c || isDigit c || Ascii.eqb c "_".
(** WhiteSpace and LineTerminator code units below 128. *)
Definition isSpace (c : ascii) : bool :=
  let n := nat_of_ascii c in ((9 <=? n) && (n <=? 13)) || (n =? 32).
Definition isLineTerminator (c : ascii) : bool :=
  let n := nat_of_ascii c in (n =? 10) || (n =? 13).

Definition lowerChar (c : ascii) : ascii :=
  if isUpper c then ascii_of_nat (nat_of_ascii c + 32) else c.
Definition upperChar (c : ascii) : ascii :=
  if isLower c then ascii_of_nat (nat_of_ascii c - 32) else c.

Fixpoint toLowerCase (s : string) : string :=
  match s with
  | EmptyString => EmptyString
  | String c s' => String (lowerChar c) (toLowerCase s')
  end.

Fixpoint toUpperCase (s : string) : string :=
  match s with
  | EmptyString => EmptyString
  | String c s' => String (upperChar c) (toUpperCase s')
  end.

(** [s.startsWith(p)] *)
Fixpoint startsWith (s p : string) : bool :=
  match p, s with
  | EmptyString, _ => true
  | String c p', String d s' => Ascii.eqb c d && startsWith s' p'
  | String _ _, EmptyString => false
  end.

(** [s.indexOf(p, from)] with [None] for [-1]; [from] counts the
    code units already skipped. *)
Fixpoint indexOfAux (s p : string) (skipped : nat) : option nat :=
  if startsWith s p then Some skipped
  else match s with
       | EmptyString => None
       | String _ s' => indexOfAux s' p (S skipped)
       end.

Fixpoint drop (n : nat) (s : string) : string :=
  match n, s with
  | 0, _ => s
  | S n', String _ s' => drop n' s'
  | S _, EmptyString => EmptyString
  end.

Fixpoint take (n : nat) (s : string) : string :=
  match n, s with
  | 0, _ => EmptyString
  | S n', String c s' => String c (take n' s')
  | S _, EmptyString => EmptyString
  end.

Definition indexOfFrom (s p : string) (from : nat) : option nat :=
  if String.length s <? from
  then (if String.eqb p "" then Some (String.length s) else None)
  else indexOfAux (drop from s) p from.

Definition indexOf (s p : string) : option nat := indexOfFrom s p 0.

(** [s.includes(p)] *)
Definition includes (s p : string) : bool :=
  match indexOf s p with Some _ => true | None => false end.

(** [s.endsWith(p)] *)
Definition endsWith (s p : string) : bool :=
  (String.length p <=? String.length s)
  && String.eqb (drop (String.length s - String.length p) s) p.

(** [s.slice(a, b)] and [s.substring(a, b)] for [0 <= a <= b]. *)
Definition slice (s : string) (a b : nat) : string := take (b - a) (drop a s).

(** [s.lastIndexOf(p)] for a one-character [p]; [None] is [-1]. *)
Fixpoint lastIndexOfChar (s : string) (c : ascii) (i : nat) (acc : option nat)
  : option nat :=
  match s with
  | EmptyString => acc
  | String d s' =>
      lastIndexOfChar s' c (S i) (if Ascii.eqb c d then Some i else acc)
  end.

(** [s.split(sep)] for a one-character separator. *)
Fixpoint splitChar (sep : ascii) (s : string) : list string :=
  match s with
  | EmptyString => [EmptyString]
  | String c s' =>
      if Ascii.eqb c sep then EmptyString :: splitChar sep s'
      else match splitChar sep s' with
           | [] => [String c EmptyString]
           | w :: ws => String c w :: ws
           end
  end.

(** [l.join(sep)] *)
Fixpoint join (sep : string) (l : list string) : string :=
  match l with
  | [] => ""
  | [x] => x
  | x :: xs => x ++ sep ++ join sep xs
  end.

Fixpoint trimStart (s : string) : string :=
  match s with
  | String c s' => if isSpace c then trimStart s' else s
  | EmptyString => EmptyString
  end.

Definition rev (s : string) : string := ofChars (List.rev (chars s)).

Definition trimEnd (s : string) : string := rev (trimStart (rev s)).

(** [s.trim()] *)
Definition trim (s : string) : string := trimEnd (trimStart s).

Fixpoint repeat (s : string) (n : nat) : string :=
  match n with
  | 0 => ""
  | S n' => s ++ repeat s n'
  end.

(** Decimal rendering of a number, as in a template literal. *)
Fixpoint natDigits (fuel n : nat) (acc : string) : string :=
  match fuel with
  | 0 => acc
  | S fuel' =>
      let d := ascii_of_nat (48 + n mod 10) in
      if n <? 10 then String d acc
      else natDigits fuel' (n / 10) (String d acc)
  end.
Definition ofNat (n : nat) : string := natDigits (S n) n "".
Definition ofZ (z : Z) : string :=
  if (z <? 0)%Z then "-" ++ ofNat (Z.to_nat (- z)) else ofNat (Z.to_nat z).

End JsString.

(* ===================================================================== *)
(** * Regular expressions

    The engine the sources rely on ([RegExp], [String.prototype.match],
    [matchAll], [replace], [split]) for the fragment of the ECMAScript
    pattern language the repository's patterns are written in:
    alternation, greedy and lazy quantifiers, capturing and non-capturing
    groups, lookahead, character classes with ranges and class escapes,
    the assertions [^ $ \b \B], and the Annex B reading of a stray
    closing bracket or brace as a literal.  Matching is the backtracking,
    leftmost, priority-ordered search of the language specification.
    Back-references, named groups, look-behind and [\u]/[\c] escapes are
    outside the fragment and are rejected by [parse]. *)
(* ===================================================================== *)

Module JsRegExp.
Import JsString.

Inductive classItem : Type :=
| CChar (c : ascii)
| CRange (lo hi : ascii)
| CDigit (neg : bool)
| CSpace (neg : bool)
| CWord (neg : bool).

Inductive regex : Type :=
| REmpty
| RChar (c : ascii)
| RAny
| RClass (neg : bool) (items : list classItem)
| RSeq (r1 r2 : regex)
| RAlt (r1 r2 : regex)
| RRepeat (r : regex) (min : nat) (max : option nat) (greedy : bool)
| RGroup (idx : nat) (r : regex)
| RBol
| REol
| RWordBoundary (neg : bool)
| RLookahead (neg : bool) (r : regex).

Record flags : Type := { ignoreCase : bool; multiline : bool }.

(** Matcher state: the end index, the code unit before it, the input
    still ahead and the captures recorded so far. *)
Record mstate : Type :=
  { pos : nat; prev : option ascii; rest : list ascii;
    caps : list (nat * (nat * nat)) }.

Definition itemMem (it : classItem) (c : ascii) : bool :=
  match it with
  | CChar d => Ascii.eqb c d
  | CRange lo hi =>
      (nat_of_ascii lo <=? nat_of_ascii c) && (nat_of_ascii c <=? nat_of_ascii hi)
  | CDigit neg => xorb neg (isDigit c)
  | CSpace neg => xorb neg (isSpace c)
  | CWord neg => xorb neg (isWordChar c)
  end.

Definition classMem (fl : flags) (items : list classItem) (c : ascii) : bool :=
  existsb (fun it =>
             itemMem it c
             || (ignoreCase fl && (itemMem it (lowerChar c) || itemMem it (upperChar c))))
          items.

Definition charEq (fl : flags) (c d : ascii) : bool :=
  if ignoreCase fl then Ascii.eqb (lowerChar c) (lowerChar d) else Ascii.eqb c d.

Definition advance (s : mstate) : option (ascii * mstate) :=
  match rest s with
  | [] => None
  | c :: tl =>
      Some (c, {| pos := S (pos s); prev := Some c; rest := tl; caps := caps s |})
  end.

Definition setCap (i : nat) (span : nat * nat) (s : mstate) : mstate :=
  {| pos := pos s; prev := prev s; rest := rest s;
     caps := (i, span) :: filter (fun e => negb (fst e =? i)) (caps s) |}.

Definition withCaps (c : list (nat * (nat * nat))) (s : mstate) : mstate :=
  {| pos := pos s; prev := prev s; rest := rest s; caps := c |}.

Definition atMax (max : option nat) (count : nat) : bool :=
  match max with Some m => m <=? count | None => false end.

Definition isWordOpt (c : option ascii) : bool :=
  match c with Some d => isWordChar d | None => false end.

Definition atBol (fl : flags) (s : mstate) : bool :=
  match prev s with
  | None => true
  | Some c => multiline fl && isLineTerminator c
  end.

Definition atEol (fl : flags) (s : mstate) : bool :=
  match rest s with
  | [] => true
  | c :: _ => multiline fl && isLineTerminator c
  end.

(** [rmatch fl r k s]: match [r] at [s] and continue with [k]; the
    first success in priority order wins. *)
Fixpoint rmatch (fl : flags) (r : regex) (k : mstate -> option mstate)
         (s : mstate) {struct r} : option mstate :=
  match r with
  | REmpty => k s
  | RChar c =>
      match advance s with
      | Some (d, s') => if charEq fl c d then k s' else None
      | None => None
      end
  | RAny =>
      match advance s with
      | Some (d, s') => if isLineTerminator d then None else k s'
      | None => None
      end
  | RClass neg items =>
      match advance s with
      | Some (d, s') => if xorb neg (classMem fl items d) then k s' else None
      | None => None
      end
  | RSeq r1 r2 => rmatch fl r1 (rmatch fl r2 k) s
  | RAlt r1 r2 =>
      match rmatch fl r1 k s with
      | Some e => Some e
      | None => rmatch fl r2 k s
      end
  | RRepeat r' min max greedy =>
      (fix loop (fuel count : nat) (s0 : mstate) {struct fuel} : option mstate :=
         match fuel with
         | 0 => None
         | S fuel' =>
             let more (_ : unit) :=
               if atMax max count then None
               else rmatch fl r'
                      (fun s' =>
                         if (min <=? count) && (pos s' =? pos s0) then None
                         else loop fuel' (S count) s') s0 in
             let stop (_ : unit) := if min <=? count then k s0 else None in
             if greedy
             then match more tt with Some e => Some e | None => stop tt end
             else match stop tt with Some e => Some e | None => more tt end
         end) (S (min + List.length (rest s))) 0 s
  | RGroup i r' => rmatch fl r' (fun s' => k (setCap i (pos s, pos s') s')) s
  | RBol => if atBol fl s then k s else None
  | REol => if atEol fl s then k s else None
  | RWordBoundary neg =>
      let here := xorb (isWordOpt (prev s)) (isWordOpt (hd_error (rest s))) in
      if xorb neg here then k s else None
  | RLookahead neg r' =>
      match rmatch fl r' (fun e => Some e) s with
      | Some e => if neg then None else k (withCaps (caps e) s)
      | None => if neg then k s else None
      end
  end.

(** One match: where it starts, the matched text, the captured groups. *)
Record matchResult : Type :=
  { index : nat; endIndex : nat; matched : string;
    groups : list (nat * string) }.

(** [m[i]] for a capturing group; [None] is [undefined]. *)
Definition group (m : matchResult) (i : nat) : option string :=
  match find (fun e => fst e =? i) (groups m) with
  | Some e => Some (snd e)
  | None => None
  end.

Definition mkResult (input : list ascii) (b e : mstate) : matchResult :=
  {| index := pos b; endIndex := pos e;
     matched := ofChars (firstn (pos e - pos b) (rest b));
     groups := map (fun c => (fst c,
                              ofChars (firstn (snd (snd c) - fst (snd c))
                                              (skipn (fst (snd c)) input))))
                   (caps e) |}.

(** Leftmost match at or after the state [(p, pv, l)]. *)
Fixpoint searchFrom (fl : flags) (r : regex) (p : nat) (pv : option ascii)
         (l : list ascii) {struct l} : option (mstate * mstate) :=
  let s := {| pos := p; prev := pv; rest := l; caps := [] |} in
  match rmatch fl r (fun e => Some e) s with
  | Some e => Some (s, e)
  | None =>
      match l with
      | [] => None
      | c :: tl => searchFrom fl r (S p) (Some c) tl
      end
  end.

(** The successive matches of a global pattern: the search resumes at
    the end of the previous match, one code unit further after an empty
    match. *)
Fixpoint matchesFrom (fl : flags) (r : regex) (input : list ascii)
         (fuel : nat) (s : mstate) {struct fuel} : list matchResult :=
  match fuel with
  | 0 => []
  | S fuel' =>
      match searchFrom fl r (pos s) (prev s) (rest s) with
      | None => []
      | Some (b, e) =>
          mkResult input b e ::
            (if pos e =? pos b
             then match advance e with
                  | Some (_, e') => matchesFrom fl r input fuel' e'
                  | None => []
                  end
             else matchesFrom fl r input fuel' e)
      end
  end.

Definition startState (input : list ascii) : mstate :=
  {| pos := 0; prev := None; rest := input; caps := [] |}.

(** [[...s.matchAll(re)]] for a global [re]. *)
Definition matchAll (fl : flags) (r : regex) (s : string) : list matchResult :=
  let input := chars s in
  matchesFrom fl r input (S (S (List.length input))) (startState input).

(** [re.exec(s)] / [s.match(re)] for a pattern without the [g] flag. *)
Definition exec (fl : flags) (r : regex) (s : string) : option matchResult :=
  let input := chars s in
  match searchFrom fl r 0 None input with
  | Some (b, e) => Some (mkResult input b e)
  | None => None
  end.

(** [re.test(s)] *)
Definition test (fl : flags) (r : regex) (s : string) : bool :=
  match exec fl r s with Some _ => true | None => false end.

(** [s.match(re) || []] for a global [re]: the matched texts. *)
Definition matchTexts (fl : flags) (r : regex) (s : string) : list string :=
  map matched (matchAll fl r s).

(** [s.replace(re, f)] for a global [re] and a replacer function. *)
Fixpoint replaceLoop (input : string) (at_ : nat) (ms : list matchResult)
         (f : matchResult -> string) : string :=
  match ms with
  | [] => drop at_ input
  | m :: ms' =>
      (slice input at_ (index m) ++ f m ++ replaceLoop input (endIndex m) ms' f)%string
  end.

Definition replaceWith (fl : flags) (r : regex) (f : matchResult -> string)
           (s : string) : string :=
  replaceLoop s 0 (matchAll fl r s) f.

(** Replacement templates: [$1]..[$9], [$&] and [$$]. *)
Fixpoint expand (tpl : list ascii) (m : matchResult) : string :=
  match tpl with
  | [] => ""
  | c :: tl =>
      if Ascii.eqb c "$" then
        match tl with
        | d :: tl' =>
            if Ascii.eqb d "&" then (matched m ++ expand tl' m)%string
            else if Ascii.eqb d "$" then String "$" (expand tl' m)
            else if isDigit d && negb (Ascii.eqb d "0") then
              match group m (nat_of_ascii d - 48) with
              | Some g => (g ++ expand tl' m)%string
              | None => expand tl' m
              end
            else String c (expand tl m)
        | [] => String c ""
        end
      else String c (expand tl m)
  end.

(** [s.replace(re, 'template')] for a global [re]. *)
Definition replace (fl : flags) (r : regex) (tpl : string) (s : string) : string :=
  replaceWith fl r (expand (chars tpl)) s.

(** [s.replace(re, 'template')] for a pattern without the [g] flag. *)
Definition replaceFirst (fl : flags) (r : regex) (tpl : string) (s : string)
  : string :=
  match exec fl r s with
  | Some m => replaceLoop s 0 [m] (expand (chars tpl))
  | None => s
  end.

(** [s.split(re)] for a separator pattern that matches no empty string. *)
Fixpoint splitLoop (input : string) (at_ : nat) (ms : list matchResult)
  : list string :=
  match ms with
  | [] => [drop at_ input]
  | m :: ms' => slice input at_ (index m) :: splitLoop input (endIndex m) ms'
  end.

Definition split (fl : flags) (r : regex) (s : string) : list string :=
  if String.eqb s "" then
    match exec fl r s with Some _ => [] | None => [""] end
  else splitLoop s 0 (matchAll fl r s).

End JsRegExp.

(** ** Pattern text to [regex]: [new RegExp(pattern, flags)] *)

Module JsPattern.
Import JsString JsRegExp.

Definition hexVal (c : ascii) : option nat :=
  let n := nat_of_ascii c in
  if isDigit c then Some (n - 48)
  else if (97 <=? n) && (n <=? 102) then Some (n - 87)
  else if (65 <=? n) && (n <=? 70) then Some (n - 55)
  else None.

Fixpoint digits (l : list ascii) (acc : nat) : nat * list ascii :=
  match l with
  | c :: tl => if isDigit c then digits tl (10 * acc + (nat_of_ascii c - 48))
               else (acc, l)
  | [] => (acc, l)
  end.

Definition startsDigit (l : list ascii) : bool :=
  match l with c :: _ => isDigit c | [] => false end.

(** [{n}], [{n,}] or [{n,m}] right after the opening brace. *)
Definition braces (l : list ascii) : option (nat * option nat * list ascii) :=
  if startsDigit l then
    let '(n, l1) := digits l 0 in
    match l1 with
    | "}"%char :: l2 => Some (n, Some n, l2)
    | ","%char :: "}"%char :: l2 => Some (n, None, l2)
    | ","%char :: l2 =>
        if startsDigit l2 then
          let '(m, l3) := digits l2 0 in
          match l3 with
          | "}"%char :: l4 => Some (n, Some m, l4)
          | _ => None
          end
        else None
    | _ => None
    end
  else None.

Inductive quant : Type :=
| QNone
| QBad
| QRange (min : nat) (max : option nat).

Definition quantifier (l : list ascii) : quant * list ascii :=
  match l with
  | "*"%char :: tl => (QRange 0 None, tl)
  | "+"%char :: tl => (QRange 1 None, tl)
  | "?"%char :: tl => (QRange 0 (Some 1), tl)
  | "{"%char :: tl =>
      match braces tl with
      | Some (n, Some m, tl') => if m <? n then (QBad, l) else (QRange n (Some m), tl')
      | Some (n, None, tl') => (QRange n None, tl')
      | None => (QNone, l)
      end
  | _ => (QNone, l)
  end.

Definition lazyMark (l : list ascii) : bool * list ascii :=
  match l with
  | "?"%char :: tl => (false, tl)
  | _ => (true, l)
  end.

(** The escapes shared by atoms and class members; [None] is an escape
    outside the fragment. *)
Definition escapeItem (inClass : bool) (l : list ascii)
  : option (classItem * list ascii) :=
  match l with
  | [] => None
  | c :: tl =>
      if Ascii.eqb c "d" then Some (CDigit false, tl)
      else if Ascii.eqb c "D" then Some (CDigit true, tl)
      else if Ascii.eqb c "s" then Some (CSpace false, tl)
      else if Ascii.eqb c "S" then Some (CSpace true, tl)
      else if Ascii.eqb c "w" then Some (CWord false, tl)
      else if Ascii.eqb c "W" then Some (CWord true, tl)
      else if Ascii.eqb c "n" then Some (CChar "010", tl)
      else if Ascii.eqb c "t" then Some (CChar "009", tl)
      else if Ascii.eqb c "r" then Some (CChar "013", tl)
      else if Ascii.eqb c "f" then Some (CChar "012", tl)
      else if Ascii.eqb c "v" then Some (CChar "011", tl)
      else if Ascii.eqb c "b" then
        (if inClass then Some (CChar "008", tl) else None)
      else if Ascii.eqb c "0" then
        (if startsDigit tl then None else Some (CChar "000", tl))
      else if isDigit c then None
      else if Ascii.eqb c "x" then
        match tl with
        | h1 :: h2 :: tl' =>
            match hexVal h1, hexVal h2 with
            | Some a, Some b => Some (CChar (ascii_of_nat (16 * a + b)), tl')
            | _, _ => Some (CChar c, tl)
            end
        | _ => Some (CChar c, tl)
        end
      else if Ascii.eqb c "u" || Ascii.eqb c "c" || Ascii.eqb c "k"
              || Ascii.eqb c "p" || Ascii.eqb c "P" then None
      else Some (CChar c, tl)
  end.

Definition classAtom (l : list ascii) : option (classItem * list ascii) :=
  match l with
  | [] => None
  | "\"%char :: tl => escapeItem true tl
  | c :: tl => Some (CChar c, tl)
  end.

(** The members of a class up to its closing bracket. *)
Fixpoint classItems (fuel : nat) (l : list ascii) (acc : list classItem)
  : option (list classItem * list ascii) :=
  match fuel with
  | 0 => None
  | S fuel' =>
      match l with
      | [] => None
      | "]"%char :: tl => Some (List.rev acc, tl)
      | _ =>
          match classAtom l with
          | None => None
          | Some (a, l1) =>
              match l1 with
              | "-"%char :: "]"%char :: _ => classItems fuel' l1 (a :: acc)
              | "-"%char :: l2 =>
                  match classAtom l2 with
                  | None => None
                  | Some (b, l3) =>
                      match a, b with
                      | CChar lo, CChar hi =>
                          if nat_of_ascii hi <? nat_of_ascii lo then None
                          else classItems fuel' l3 (CRange lo hi :: acc)
                      | _, _ => classItems fuel' l3 (b :: CChar "-" :: a :: acc)
                      end
                  end
              | _ => classItems fuel' l1 (a :: acc)
              end
          end
      end
  end.

Definition itemRegex (it : classItem) : regex :=
  match it with
  | CChar c => RChar c
  | _ => RClass false [it]
  end.

Definition applyQuant (r : regex) (l : list ascii) : option (regex * list ascii) :=
  match quantifier l with
  | (QNone, l') => Some (r, l')
  | (QBad, _) => None
  | (QRange n m, l') =>
      let '(greedy, l'') := lazyMark l' in Some (RRepeat r n m greedy, l'')
  end.

(** Recursive descent over Disjunction / Alternative / Term; the third
    component threads the number of the next capturing group. *)
Fixpoint parseDisj (fuel : nat) (l : list ascii) (g : nat) {struct fuel}
  : option (regex * list ascii * nat) :=
  match fuel with
  | 0 => None
  | S fuel' =>
      match parseSeq fuel' l g with
      | None => None
      | Some (r1, l1, g1) =>
          match l1 with
          | "|"%char :: l2 =>
              match parseDisj fuel' l2 g1 with
              | Some (r2, l3, g2) => Some (RAlt r1 r2, l3, g2)
              | None => None
              end
          | _ => Some (r1, l1, g1)
          end
      end
  end
with parseSeq (fuel : nat) (l : list ascii) (g : nat) {struct fuel}
  : option (regex * list ascii * nat) :=
  match fuel with
  | 0 => None
  | S fuel' =>
      match l with
      | [] => Some (REmpty, l, g)
      | "|"%char :: _ => Some (REmpty, l, g)
      | ")"%char :: _ => Some (REmpty, l, g)
      | _ =>
          match parseTerm fuel' l g with
          | None => None
          | Some (r1, l1, g1) =>
              match parseSeq fuel' l1 g1 with
              | Some (REmpty, l2, g2) => Some (r1, l2, g2)
              | Some (r2, l2, g2) => Some (RSeq r1 r2, l2, g2)
              | None => None
              end
          end
      end
  end
with parseTerm (fuel : nat) (l : list ascii) (g : nat) {struct fuel}
  : option (regex * list ascii * nat) :=
  match fuel with
  | 0 => None
  | S fuel' =>
      let quantified (r : regex) (l' : list ascii) (g' : nat) :=
        match applyQuant r l' with
        | Some (r', l'') => Some (r', l'', g')
        | None => None
        end in
      let closing (p : option (regex * list ascii * nat))
                  (wrap : regex -> regex) (q : bool) :=
        match p with
        | Some (r, ")"%char :: l', g') =>
            if q then quantified (wrap r) l' g' else Some (wrap r, l', g')
        | _ => None
        end in
      match l with
      | [] => None
      | "^"%char :: tl => Some (RBol, tl, g)
      | "$"%char :: tl => Some (REol, tl, g)
      | "."%char :: tl => quantified RAny tl g
      | "*"%char :: _ => None
      | "+"%char :: _ => None
      | "?"%char :: _ => None
      | "{"%char :: tl =>
          match braces tl with
          | Some _ => None
          | None => quantified (RChar "{") tl g
          end
      | "\"%char :: "b"%char :: tl => Some (RWordBoundary false, tl, g)
      | "\"%char :: "B"%char :: tl => Some (RWordBoundary true, tl, g)
      | "\"%char :: tl =>
          match escapeItem false tl with
          | Some (it, l') => quantified (itemRegex it) l' g
          | None => None
          end
      | "["%char :: "^"%char :: tl =>
          match classItems (S (List.length tl)) tl [] with
          | Some (items, l') => quantified (RClass true items) l' g
          | None => None
          end
      | "["%char :: tl =>
          match classItems (S (List.length tl)) tl [] with
          | Some (items, l') => quantified (RClass false items) l' g
          | None => None
          end
      | "("%char :: "?"%char :: ":"%char :: tl =>
          closing (parseDisj fuel' tl g) (fun r => r) true
      | "("%char :: "?"%char :: "="%char :: tl =>
          closing (parseDisj fuel' tl g) (RLookahead false) false
      | "("%char :: "?"%char :: "!"%char :: tl =>
          closing (parseDisj fuel' tl g) (RLookahead true) false
      | "("%char :: "?"%char :: _ => None
      | "("%char :: tl =>
          closing (parseDisj fuel' tl (S g)) (RGroup g) true
      | c :: tl => quantified (RChar c) tl g
      end
  end.

(** The pattern as a [regex]; [None] is the [SyntaxError] of the
    constructor. *)
Definition parse (pattern : string) : option regex :=
  let l := chars pattern in
  match parseDisj (4 * List.length l + 16) l 1 with
  | Some (r, [], _) => Some r
  | _ => None
  end.

Definition noFlags : flags := {| ignoreCase := false; multiline := false |}.
Definition flagI : flags := {| ignoreCase := true; multiline := false |}.
Definition flagM : flags := {| ignoreCase := false; multiline := true |}.

(** A regular-expression literal of the sources.  Every literal used
    below is inside the fragment (checked where it is defined); the
    fall-back never runs for them. *)
Definition lit (pattern : string) : regex :=
  match parse pattern with
  | Some r => r
  | None => RClass false []
  end.

End JsPattern.

(* ===================================================================== *)
(** * Log normalisation ([SmartSearchEngine.normalizeLogText]) *)
(* ===================================================================== *)

Module LogNormalizer.
Import JsString JsRegExp JsPattern.

(** The regular-expression literals of [normalizeLogText], in source
    order. *)
Definition reWhitespace : string := "\s+".
Definition reUuid : string :=
  "[0-9a-fA-F]{8}-[0-9a-fA-F]{4}-[0-9a-fA-F]{4}-[0-9a-fA-F]{4}-[0-9a-fA-F]{12}".
Definition reHex : string := "0x[0-9a-fA-F]+".
Definition reIp : string := "\b(?:\d{1,3}\.){3}\d{1,3}\b".
Definition reEmail : string := "[a-zA-Z0-9._%+-]+@[a-zA-Z0-9.-]+\.[a-zA-Z]{2,}".
Definition rePosixPath : string := "(?:\/[\w.-]+)+(?:\.\w+)?".
Definition reWindowsPath : string := "(?:[A-Z]:\\[\w\\.-]+)+(?:\.\w+)?".
Definition reIsoTimestamp : string :=
  "\d{4}-\d{2}-\d{2}[T ]\d{2}:\d{2}:\d{2}(?:\.\d+)?(?:Z|[+-]\d{2}:\d{2})?".
Definition reUsTimestamp : string := "\d{2}\/\d{2}\/\d{4}\s+\d{2}:\d{2}:\d{2}".
Definition reDoubleQuoted : string :=
  (DQ ++ "(?:[^" ++ DQ ++ "\\]|\\.)*" ++ DQ)%string.
Definition reSingleQuoted : string := "'(?:[^'\\]|\\.)*'".
Definition rePrintf : string := "%[sdifoxX]".
Definition reDollarBrace : string := "\$\{\w+\}".
Definition reNumberedBrace : string := "\{\d+\}".
Definition reConstantBrace : string := "\{[A-Z_]+\}".
Definition reFloat : string := "\b\d+\.\d+\b".
Definition reLongNumber : string := "\b\d{4,}\b".
Definition reShortNumber : string := "\b\d{1,3}\b".
Definition reCamel : string := "([a-z])([A-Z])".
Definition rePunctuation : string :=
  ("[!" ++ DQ ++ "#$%&'()*+,\-/:;<=>?@[\\]^`|~]")%string.

Definition literals : list string :=
  [ reWhitespace; reUuid; reHex; reIp; reEmail; rePosixPath; reWindowsPath;
    reIsoTimestamp; reUsTimestamp; reDoubleQuoted; reSingleQuoted; rePrintf;
    reDollarBrace; reNumberedBrace; reConstantBrace; reFloat; reLongNumber;
    reShortNumber; reCamel; rePunctuation ].

(** [text.replace(/re/g, 'tpl')] *)
Definition sub (re tpl : string) (text : string) : string :=
  replace noFlags (lit re) tpl text.

(** The codes that step 10 keeps verbatim. *)
Definition keptCodes : list string :=
  ["200"; "404"; "500"; "403"; "401"; "503"; "400"; "0"; "1"; "-1"].

Definition keepOrNum (m : matchResult) : string :=
  if existsb (String.eqb (matched m)) keptCodes then matched m else "NUM".

Definition collapse (text : string) : string := trim (sub reWhitespace " " text).

(** Steps 1 to 10 of the moderate level: the token replacements. *)
Definition replacements (log : string) : string :=
  let text := log in
  (* 1. UUIDs first *)
  let text := sub reUuid "UUID" text in
  (* 2. hex numbers *)
  let text := sub reHex "HEX" text in
  (* 3. IP addresses *)
  let text := sub reIp "IP" text in
  (* 4. emails *)
  let text := sub reEmail "EMAIL" text in
  (* 5. file paths *)
  let text := sub rePosixPath "FILEPATH" text in
  let text := sub reWindowsPath "FILEPATH" text in
  (* 6. timestamps *)
  let text := sub reIsoTimestamp "TIMESTAMP" text in
  let text := sub reUsTimestamp "TIMESTAMP" text in
  (* 7. quoted strings *)
  let text := sub reDoubleQuoted "STR" text in
  let text := sub reSingleQuoted "STR" text in
  (* 8. template placeholders *)
  let text := sub rePrintf "PLACEHOLDER" text in
  let text := sub reDollarBrace "PLACEHOLDER" text in
  let text := sub reNumberedBrace "PLACEHOLDER" text in
  let text := sub reConstantBrace "PLACEHOLDER" text in
  (* 9. floats before integers *)
  let text := sub reFloat "NUM" text in
  (* 10. remaining numbers, short well-known codes kept *)
  let text := sub reLongNumber "NUM" text in
  replaceWith noFlags (lit reShortNumber) keepOrNum text.

(** Steps 11 and 12: camelCase boundaries, lower case, whitespace. *)
Definition fold (text : string) : string :=
  let text := sub reCamel "$1 $2" text in
  let text := toLowerCase text in
  collapse text.

Definition moderate (log : string) : string := fold (replacements log).

Definition normalizeLogText (log : string) (level : string) : string :=
  if String.eqb level "light" then collapse log
  else if String.eqb level "moderate" then moderate log
  else if String.eqb level "heavy" then
    let text := moderate log in
    let text := sub rePunctuation " " text in
    collapse text
  else log.

(** The example log line of the specification. *)
Definition sampleLog : string :=
  "User 192.168.0.5 failed at 2023-01-01T10:00:00Z code=404".

End LogNormalizer.

(* ===================================================================== *)
(** * Paths ([path] of the runtime, POSIX flavour) *)
(* ===================================================================== *)

Module PosixPath.
Import JsString.

Definition sep : ascii := "/"%char.

Definition isAbsolute (p : string) : bool :=
  match p with String c _ => Ascii.eqb c sep | EmptyString => false end.

(** [normalizeString]: drop empty and [.] segments, let [..] remove
    the segment before it. *)
Fixpoint normalizeSegments (allowAboveRoot : bool) (segs acc : list string)
  : list string :=
  match segs with
  | [] => List.rev acc
  | seg :: tl =>
      if String.eqb seg "" || String.eqb seg "." then
        normalizeSegments allowAboveRoot tl acc
      else if String.eqb seg ".." then
        match acc with
        | last :: acc' =>
            if String.eqb last ".." then normalizeSegments allowAboveRoot tl (seg :: acc)
            else normalizeSegments allowAboveRoot tl acc'
        | [] =>
            if allowAboveRoot then normalizeSegments allowAboveRoot tl [seg]
            else normalizeSegments allowAboveRoot tl acc
        end
      else normalizeSegments allowAboveRoot tl (seg :: acc)
  end.

Definition normalizeString (p : string) (allowAboveRoot : bool) : string :=
  join "/" (normalizeSegments allowAboveRoot (splitChar sep p) []).

(** [path.normalize] *)
Definition normalize (p : string) : string :=
  if String.eqb p "" then "."
  else
    let abs := isAbsolute p in
    let trailing := endsWith p "/" in
    let body := normalizeString p (negb abs) in
    if String.eqb body "" then (if abs then "/" else if trailing then "./" else ".")
    else
      let body := if trailing then (body ++ "/")%string else body in
      if abs then ("/" ++ body)%string else body.

(** [path.resolve] with the working directory [cwd] (absolute). *)
Definition resolve (cwd : string) (p : string) : string :=
  let full := if isAbsolute p then p else (cwd ++ "/" ++ p)%string in
  ("/" ++ normalizeString full false)%string.

(** [path.basename] *)
Definition basename (p : string) : string :=
  match List.rev (filter (fun s => negb (String.eqb s "")) (splitChar sep p)) with
  | b :: _ => b
  | [] => ""
  end.

(** [path.dirname] *)
Definition dirname (p : string) : string :=
  match lastIndexOfChar p sep 0 None with
  | None => "."
  | Some 0 => "/"
  | Some i => take i p
  end.

(** [path.extname] *)
Definition extname (p : string) : string :=
  let b := basename p in
  if String.eqb b ".." then ""
  else match lastIndexOfChar b "." 0 None with
       | None => ""
       | Some 0 => ""
       | Some i => drop i b
       end.

(** [path.join(dir, name)] for a normalised [dir] and a plain entry
    name, as [readdir] returns them. *)
Definition join (dir name : string) : string := (dir ++ "/" ++ name)%string.

(** [path.relative(root, p)] for a [p] built from [root] by [join]. *)
Definition relative (root p : string) : string := drop (S (String.length root)) p.

End PosixPath.

(* ===================================================================== *)
(** * The file system and the runtime environment *)
(* ===================================================================== *)

Inductive entryKind : Type := KDirectory | KFile | KSymlink | KOther.

(** A [Dirent] of [readdir(..., { withFileTypes: true })]. *)
Record Dirent : Type := { d_name : string; d_kind : entryKind }.

Definition isDirectory (k : entryKind) : bool :=
  match k with KDirectory => true | _ => false end.
Definition isFile (k : entryKind) : bool :=
  match k with KFile => true | _ => false end.
Definition isSymbolicLink (k : entryKind) : bool :=
  match k with KSymlink => true | _ => false end.

(** The calls the code makes to [fs], [path] and [process]; [None] is a
    thrown error. *)
Record Runtime : Type :=
  { readdir : string -> option (list Dirent);
    stat : string -> option Z;              (* [fs.stat(p).size] *)
    readFile : string -> option string;
    lstat : string -> option entryKind;
    realpath : string -> option string;
    existsSync : string -> bool;
    platform : string;                      (* [process.platform] *)
    pathNormalize : string -> string;
    pathResolve : string -> string;
    frames : nat;  (* nested [validatePath] calls the stack allows, less one *)
    (* [[...text.matchAll(new RegExp(pattern, ignoreCase ? 'gi' : 'g'))]];
       [None] when the constructor or the matching throws *)
    regExpMatchAll : string -> bool -> option (string -> list JsRegExp.matchResult);
    (* [a.localeCompare(b)] *)
    localeCompare : string -> string -> Z
  }.

(* ===================================================================== *)
(** * The path guard ([PathSecurityValidator]) *)
(* ===================================================================== *)

Module PathSecurity.
Import JsString JsRegExp JsPattern.

(** [this.blockedPatterns]; every pattern carries the [i] flag. *)
Definition blockedLinux : list string :=
  [ "^\/etc\/"; "^\/root\/"; "^\/boot\/"; "^\/sys\/"; "^\/proc\/"; "^\/dev\/";
    "^\/var\/log\/"; "^\/usr\/bin\/"; "^\/usr\/sbin\/"; "^\/lib\/"; "^\/lib64\/";
    "^\/sbin\/"; "^\/bin\/"; "^\/tmp\/"; "^\/var\/spool\/"; "^\/var\/cache\/";
    "^\/var\/run\/"; "^\/lost\+found\/" ].

Definition blockedWindows : list string :=
  [ "^[A-Z]:\\Windows\\"; "^[A-Z]:\\Program Files\\"; "^[A-Z]:\\ProgramData\\";
    "^[A-Z]:\\System Volume Information\\"; "^[A-Z]:\\Recovery\\";
    "^[A-Z]:\\Boot\\"; "^[A-Z]:\\\$Recycle\.Bin\\"; "hiberfil\.sys$";
    "pagefile\.sys$"; "swapfile\.sys$" ].

Definition blockedMacos : list string :=
  [ "^\/System\/"; "^\/Library\/Application Support\/";
    "^\/Library\/LaunchDaemons\/"; "^\/Library\/LaunchAgents\/";
    "^\/Library\/Frameworks\/"; "^\/private\/"; "^\/usr\/libexec\/";
    "^\/Applications\/Utilities\/" ].

Definition blockedUniversal : list string :=
  [ "\.ssh\/"; "\.gnupg\/"; "id_rsa"; "id_ed25519"; "\.key$"; "\.pem$";
    "shadow"; "passwd$"; "sudoers" ].

Definition maxPathLength : nat := 4096.

Definition getPatternsByPlatform (platform : string) : list string :=
  if String.eqb platform "win32" then blockedUniversal ++ blockedWindows
  else if String.eqb platform "darwin" then
    blockedUniversal ++ blockedMacos ++ blockedLinux
  else blockedUniversal ++ blockedLinux.

(** [pattern.test(absolutePath)] for one of the patterns above. *)
Definition blocks (pattern absolutePath : string) : bool :=
  test flagI (lit pattern) absolutePath.

Inductive validation : Type :=
| Valid (normalizedPath : string)
| Invalid (code : string) (error : string).

Definition valid (v : validation) : bool :=
  match v with Valid _ => true | Invalid _ _ => false end.

Definition code (v : validation) : option string :=
  match v with Valid _ => None | Invalid c _ => Some c end.

Definition errorOf (v : validation) : string :=
  match v with Valid _ => "undefined" | Invalid _ e => e end.

(** An entry of [securityLog] (the timestamp is left out). *)
Record violation : Type :=
  { v_type : string; v_path : string; v_platform : string }.

Definition lastN {A : Type} (n : nat) (l : list A) : list A :=
  skipn (List.length l - n) l.

(** [logSecurityViolation]: append, keep the last 1000 entries. *)
Definition logSecurityViolation (rt : Runtime) (type path : string)
           (securityLog : list violation) : list violation :=
  let log := securityLog ++
             [{| v_type := type; v_path := take 100 path;
                 v_platform := platform rt |}] in
  if 1000 <? List.length log then lastN 1000 log else log.

(** [validatePath], with the security log threaded through.  [depth]
    bounds the nesting of the recursive call of step 6; a deeper
    nesting overflows the call stack and the [RangeError] is turned
    into [VALIDATION_ERROR] by the enclosing [try]/[catch]. *)
Fixpoint validatePathAt (rt : Runtime) (depth : nat) (filePath : string)
         (log : list violation) {struct depth} : validation * list violation :=
  match depth with
  | 0 => (Invalid "VALIDATION_ERROR"
                  "Path validation error: Maximum call stack size exceeded", log)
  | S depth' =>
      (* Step 1: basic validation *)
      if String.eqb filePath "" then
        (Invalid "INVALID_INPUT" "Invalid path: must be a non-empty string", log)
      (* Step 2: length validation *)
      else if maxPathLength <? String.length filePath then
        (Invalid "PATH_TOO_LONG" "Path too long: exceeds 4096 characters", log)
      else
        (* Step 3: normalise and resolve *)
        let normalizedPath := pathNormalize rt filePath in
        let absolutePath := pathResolve rt normalizedPath in
        (* Step 4: directory traversal *)
        if includes normalizedPath ".." || includes filePath ".." then
          (Invalid "TRAVERSAL_DETECTED"
                   "Security violation: Directory traversal detected",
           logSecurityViolation rt "TRAVERSAL_ATTEMPT" filePath log)
        (* Step 5: blocked patterns *)
        else if existsb (fun p => blocks p absolutePath)
                        (getPatternsByPlatform (platform rt)) then
          (Invalid "BLOCKED_PATH" "Access denied: Cannot access system directory",
           logSecurityViolation rt "BLOCKED_PATH" absolutePath log)
        else
          (* Step 6: symlinks; the inner catch swallows I/O errors *)
          match lstat rt absolutePath with
          | Some KSymlink =>
              match realpath rt absolutePath with
              | Some realPath =>
                  let '(realPathValidation, log') :=
                    validatePathAt rt depth' realPath log in
                  if valid realPathValidation
                  then (Valid absolutePath, log')
                  else (realPathValidation,
                        logSecurityViolation rt "SYMLINK_TO_BLOCKED" absolutePath log')
              | None => (Valid absolutePath, log)
              end
          | _ => (Valid absolutePath, log)
          end
  end.

Definition validatePathLog (rt : Runtime) (filePath : string)
           (log : list violation) : validation * list violation :=
  validatePathAt rt (S (frames rt)) filePath log.

(** The result of [validatePath] for a caller that does not read the
    log. *)
Definition validatePath (rt : Runtime) (filePath : string) : validation :=
  fst (validatePathLog rt filePath []).

End PathSecurity.

(* ===================================================================== *)
(** * Exceptions and engine statistics *)
(* ===================================================================== *)

(** The outcome of a call that can throw. *)
Inductive exn (A : Type) : Type :=
| Return (a : A)
| Throw (message : string).
Arguments Return {A} a.
Arguments Throw {A} message.

(** The counters and the error list of a [SmartSearchEngine]; the code
    only adds to them during a search and reads them for the summary. *)
Record Stats : Type :=
  { processedFiles : nat; skippedFiles : nat; errors : list string }.

Definition noStats : Stats :=
  {| processedFiles := 0; skippedFiles := 0; errors := [] |}.

Definition addStats (a b : Stats) : Stats :=
  {| processedFiles := processedFiles a + processedFiles b;
     skippedFiles := skippedFiles a + skippedFiles b;
     errors := errors a ++ errors b |}.

(** [this.error(message, error)]; the text of the caught error is
    runtime-specific and not part of the recorded message here. *)
Definition errorStat (message : string) : Stats :=
  {| processedFiles := 0; skippedFiles := 0;
     errors := [("[SEARCH ERROR] " ++ message)%string] |}.

Definition processedStat : Stats :=
  {| processedFiles := 1; skippedFiles := 0; errors := [] |}.

Definition skippedStat : Stats :=
  {| processedFiles := 0; skippedFiles := 1; errors := [] |}.

(** A computation of the engine: a value or a thrown error, and what it
    added to the statistics (kept when it throws). *)
Definition M (A : Type) : Type := exn A * Stats.

Definition ret {A : Type} (a : A) : M A := (Return a, noStats).
Definition throw {A : Type} (message : string) : M A := (Throw message, noStats).
Definition tell (s : Stats) : M unit := (Return tt, s).

Definition bind {A B : Type} (m : M A) (f : A -> M B) : M B :=
  match m with
  | (Return a, s) => let '(r, s') := f a in (r, addStats s s')
  | (Throw e, s) => (Throw e, s)
  end.

(** [try { body } catch (error) { handler }] *)
Definition tryCatch {A : Type} (body : M A) (handler : string -> M A) : M A :=
  match body with
  | (Return a, s) => (Return a, s)
  | (Throw e, s) => let '(r, s') := handler e in (r, addStats s s')
  end.

(** A runtime call whose [None] is a thrown error. *)
Definition orThrow {A : Type} (o : option A) (message : string) : M A :=
  match o with
  | Some a => ret a
  | None => throw message
  end.

Declare Scope engine_scope.
Delimit Scope engine_scope with engine.
Notation "x <- m ;; k" := (bind m (fun x => k))
  (at level 61, m at next level, right associativity) : engine_scope.
Notation "m ;;; k" := (bind m (fun _ => k))
  (at level 61, right associativity) : engine_scope.

(** [for (const x of xs) { body }] accumulating into an array. *)
Fixpoint forEachM {A B : Type} (body : A -> M (list B)) (xs : list A) : M (list B) :=
  match xs with
  | [] => ret []
  | x :: tl =>
      bind (body x) (fun r => bind (forEachM body tl) (fun rs => ret (r ++ rs)))
  end.

(* ===================================================================== *)
(** * Arrays *)
(* ===================================================================== *)

Module JsArray.

(** [l.slice(a, b)] for [0 <= a]. *)
Definition slice {A : Type} (l : list A) (a b : nat) : list A :=
  firstn (b - a) (skipn a l).

(** [l.sort(cmp)]: the sort of the language is stable; for a
    consistent comparator its result is the stable insertion sort. *)
Fixpoint insert {A : Type} (cmp : A -> A -> Z) (x : A) (l : list A) : list A :=
  match l with
  | [] => [x]
  | y :: tl => if (cmp x y <=? 0)%Z then x :: l else y :: insert cmp x tl
  end.

Definition sort {A : Type} (cmp : A -> A -> Z) (l : list A) : list A :=
  fold_right (insert cmp) [] l.

(** The batches of [processFilesInBatches]: [files.slice(i, i + n)] for
    [i = 0, n, 2n, ...] below [files.length]. *)
Fixpoint chunks {A : Type} (fuel n : nat) (l : list A) : list (list A) :=
  match fuel with
  | 0 => []
  | S fuel' =>
      match l with
      | [] => []
      | _ => firstn n l :: chunks fuel' n (skipn n l)
      end
  end.

Definition includes (l : list string) (s : string) : bool :=
  existsb (String.eqb s) l.

End JsArray.

(* ===================================================================== *)
(** * The search engine ([SmartSearchEngine]) *)
(* ===================================================================== *)

Module SmartSearch.
Import JsString PathSecurity.
Local Open Scope engine_scope.

(** The limits fixed by the constructor (from the environment, with
    defaults 50 MiB, 30, 20000, 500 and 500). *)
Record Settings : Type :=
  { maxFileSize : Z;
    maxDepth : nat;
    maxFilesToProcess : nat;
    maxResults : nat;
    batchSize : positive }.

Definition defaultSettings : Settings :=
  {| maxFileSize := 50 * 1024 * 1024; maxDepth := 30;
     maxFilesToProcess := 20 * 1000; maxResults := 500; batchSize := 500 |}.

(** An element of the walker's result. *)
Record FileEntry : Type :=
  { path : string; name : string; extension : string;
    relativePath : string; directory : string; fileType : string }.

(** A match inside one file ([findMatches]). *)
Record Match : Type :=
  { line : nat; column : Z; matchText : string; context : string;
    matchType : string; relevanceScore : Z; patternUsed : string }.

(** A match with the metadata of its file ([smartSearch]) and, once the
    tracer has looked at it, the strategy that found it. *)
Record SearchResult : Type :=
  { hit : Match; file : string; fullPath : string; fileName : string;
    resultFileType : string; resultExtension : string;
    searchContext : option string }.

Definition score (r : SearchResult) : Z := relevanceScore (hit r).
Definition lineOf (r : SearchResult) : nat := line (hit r).

(** ** File types *)

Definition fileTypes : list (string * list string) :=
  [ ("java", [".java"; ".jsp"; ".jspx"; ".properties"; ".groovy"; ".kt"; ".kts";
              ".scala"; ".clj"]);
    ("javascript", [".js"; ".jsx"; ".ts"; ".tsx"; ".mjs"; ".cjs"; ".vue";
                    ".svelte"; ".elm"; ".dart"; ".gql"; ".graphql"]);
    ("python", [".py"; ".pyw"; ".pyi"; ".ipynb"]);
    ("cpp", [".cpp"; ".c"; ".cc"; ".cxx"; ".h"; ".hpp"; ".hxx"; ".s"; ".asm"]);
    ("csharp", [".cs"]);
    ("web", [".html"; ".htm"; ".xhtml"; ".css"; ".scss"; ".sass"; ".less"]);
    ("config", [".json"; ".yaml"; ".yml"; ".xml"; ".toml"; ".ini"; ".env"]);
    ("build", [".gradle"; ".maven"; ".pom"; ".cmake"; ".makefile"; ".dockerfile"]);
    ("sql", [".sql"; ".ddl"; ".dml"]);
    ("shell", [".sh"; ".bash"; ".zsh"; ".ksh"; ".bat"; ".ps1"; ".cmd"]);
    ("docs", [".md"; ".txt"; ".rst"; ".adoc"; ".tex"; ".bib"; ".chm"; ".log";
              ".doc"; ".docx"; ".odt"; ".rtf"; ".wpd"; ".xls"; ".xlsx"; ".ods";
              ".csv"; ".tsv"; ".ppt"; ".pptx"; ".odp"; ".pdf"; ".epub"; ".mobi";
              ".ipynb"; ".rmd"; ".notebook"; ".nb"]) ].

Definition getFileType (filePath : string) : string :=
  let ext := toLowerCase (PosixPath.extname filePath) in
  let filename := toLowerCase (PosixPath.basename filePath) in
  if existsb (fun n => includes filename n)
             ["readme"; "changelog"; "license"; "todo"; "notes"]
  then "docs"
  else
    match find (fun e => JsArray.includes (snd e) ext
                         || (String.eqb ext ""
                             && JsArray.includes (snd e) ("." ++ filename)%string))
               fileTypes with
    | Some e => fst e
    | None => "unknown"
    end.

(** [this.fileTypeMapping], and the same table in [filterFilesByType]. *)
Definition fileTypeMapping : list (string * list string) :=
  [ ("java", ["java"]); ("javascript", ["javascript"]); ("python", ["python"]);
    ("cpp", ["cpp"]); ("web", ["web"]); ("docs", ["docs"]);
    ("config", ["config"; "build"]);
    ("code", ["java"; "javascript"; "python"; "cpp"; "csharp"; "web"; "sql";
              "shell"]) ].

(** The own keys of the table. *)
Definition mapping (type : string) : option (list string) :=
  match find (fun e => String.eqb (fst e) type) fileTypeMapping with
  | Some e => Some (snd e)
  | None => None
  end.

(** The names an object literal inherits from [Object.prototype]. *)
Definition objectPrototypeKeys : list string :=
  [ "constructor"; "__defineGetter__"; "__defineSetter__"; "hasOwnProperty";
    "__lookupGetter__"; "__lookupSetter__"; "isPrototypeOf";
    "propertyIsEnumerable"; "toString"; "valueOf"; "__proto__";
    "toLocaleString" ].

(** What the read [typeMapping[type]] gives: the array of an own key;
    for a name inherited from [Object.prototype] a function (the
    prototype itself for [__proto__]), which is truthy and has no
    [forEach]; [undefined] for any other name. *)
Inductive TableEntry : Type :=
| Listed (types : list string)
| Inherited
| Undefined.

Definition typeMappingAt (type : string) : TableEntry :=
  match mapping type with
  | Some ts => Listed ts
  | None =>
      if JsArray.includes objectPrototypeKeys type then Inherited else Undefined
  end.

(** The loop that fills [allowedTypes]:
    [if (typeMapping[type]) typeMapping[type].forEach(t => allowedTypes.add(t))],
    with [otherwise] for the [else] branch.  On an inherited name the
    call of [forEach] throws a [TypeError]. *)
Definition allowedTypesOf (otherwise : string -> list string)
           (types : list string) : M (list string) :=
  forEachM (fun type =>
              match typeMappingAt type with
              | Listed ts => ret ts
              | Inherited => throw "typeMapping[type].forEach is not a function"
              | Undefined => ret (otherwise type)
              end)
           types.

Definition binaryExtensions : list string :=
  [ ".exe"; ".dll"; ".so"; ".dylib"; ".bin"; ".class"; ".jar"; ".war";
    ".zip"; ".tar"; ".gz"; ".rar"; ".7z"; ".pdf"; ".doc"; ".docx";
    ".xls"; ".xlsx"; ".ppt"; ".pptx"; ".png"; ".jpg"; ".jpeg"; ".gif";
    ".bmp"; ".svg"; ".ico"; ".mp3"; ".mp4"; ".avi"; ".mov"; ".wmv" ].

Section Engine.
Variable rt : Runtime.
Variable settings : Settings.

(** [filePath.match(pattern)] for an exclude pattern given as text. *)
Definition matchesPattern (filePath pattern : string) : M bool :=
  f <- orThrow (regExpMatchAll rt pattern false) "Invalid regular expression" ;;
  ret (negb (Nat.eqb (List.length (f filePath)) 0)).

Fixpoint anyExcluded (filePath : string) (excludePatterns : list string) : M bool :=
  match excludePatterns with
  | [] => ret false
  | p :: tl =>
      hit <- matchesPattern filePath p ;;
      if hit then ret true else anyExcluded filePath tl
  end.

Definition shouldProcessFile (filePath : string) (size : Z)
           (types : list string) (excludePatterns : list string) : M bool :=
  (* size check first *)
  if (maxFileSize settings <? size)%Z then tell skippedStat ;;; ret false
  (* binary files *)
  else if JsArray.includes binaryExtensions
                           (toLowerCase (PosixPath.extname filePath))
  then tell skippedStat ;;; ret false
  else
    (* file type filtering *)
    typeAllowed <-
      (if JsArray.includes types "all" then ret true
       else
         let fileType := getFileType filePath in
         allowedTypes <- allowedTypesOf (fun _ => []) types ;;
         ret (JsArray.includes allowedTypes fileType)) ;;
    if negb typeAllowed then ret false
    (* exclude patterns *)
    else
      excluded <- anyExcluded filePath excludePatterns ;;
      ret (negb excluded).

(** [filterFilesByType]; it is called outside every [try] of
    [smartSearch], so its [TypeError] leaves the search. *)
Definition filterFilesByType (files : list FileEntry) (types : list string)
  : M (list FileEntry) :=
  if JsArray.includes types "all" then ret files
  else
    allowedTypes <- allowedTypesOf (fun type => [type]) types ;;
    ret (filter (fun f => JsArray.includes allowedTypes (fileType f)) files).

(** ** The walker ([getAllFiles]) *)

Record WalkOptions : Type :=
  { walkMaxDepth : option nat;
    extensions : list string;
    skipDirs : list string }.

Definition defaultSkipDirs : list string :=
  [ "node_modules"; ".git"; ".svn"; ".hg"; "target"; "build"; "dist";
    "bin"; "obj"; ".vscode"; ".idea"; "__pycache__"; ".gradle";
    "vendor"; "coverage"; ".nyc_output"; "logs"; ".next"; "out";
    "tmp"; "temp"; ".cache"; ".pytest_cache"; ".mypy_cache" ].

Definition mkEntry (dirPath fullPath entryName : string) : FileEntry :=
  {| path := fullPath;
     name := entryName;
     extension := toLowerCase (PosixPath.extname entryName);
     relativePath := PosixPath.relative dirPath fullPath;
     directory := PosixPath.dirname fullPath;
     fileType := getFileType fullPath |}.

(** [scanDirectory(currentPath, currentDepth)].  [fuel] is the number
    of nested calls still allowed; [getAllFiles] starts it at
    [maxDepth], which the depth guard never lets run out. *)
Fixpoint scanDirectory (dirPath : string) (maxDepth : nat)
         (exts skipDirsSet : list string) (fuel : nat)
         (currentPath : string) (currentDepth : nat) {struct fuel}
  : M (list FileEntry) :=
  if maxDepth <=? currentDepth then ret []
  else
    match fuel with
    | 0 => ret []
    | S fuel' =>
        tryCatch
          (entries <- orThrow (readdir rt currentPath) "readdir failed" ;;
           forEachM
             (fun entry =>
                let fullPath := PosixPath.join currentPath (d_name entry) in
                if isDirectory (d_kind entry) then
                  if startsWith (d_name entry) "."
                     && negb (String.eqb (d_name entry) ".")
                  then ret []
                  else if JsArray.includes skipDirsSet (toLowerCase (d_name entry))
                  then ret []
                  else scanDirectory dirPath maxDepth exts skipDirsSet fuel'
                                     fullPath (S currentDepth)
                else if isFile (d_kind entry) then
                  let ext := toLowerCase (PosixPath.extname (d_name entry)) in
                  if Nat.eqb (List.length exts) 0 || JsArray.includes exts ext
                  then ret [mkEntry dirPath fullPath (d_name entry)]
                  else ret []
                else ret [])
             entries)
          (fun _ =>
             tell (errorStat ("Cannot read directory: " ++ currentPath)) ;;;
             ret [])
    end.

Definition getAllFiles (dirPath : string) (options : WalkOptions)
  : M (list FileEntry) :=
  let pathValidation := validatePath rt dirPath in
  if negb (valid pathValidation)
  then throw ("Security violation: " ++ errorOf pathValidation)
  else
    let maxDepth := match walkMaxDepth options with
                    | Some d => d
                    | None => maxDepth settings
                    end in
    let skipDirsSet := defaultSkipDirs ++ skipDirs options in
    scanDirectory dirPath maxDepth (extensions options) skipDirsSet
                  maxDepth dirPath 0.

(** ** Patterns *)

Record SmartPatterns : Type :=
  { original : string; caseInsensitive : string; javaClass : string;
    javaMethod : string; javaImport : string; javaPackage : string;
    functionPattern : string; variable : string; heading : string;
    listItem : string }.

Definition createSmartPatterns (query : string) : SmartPatterns :=
  {| original := query;
     caseInsensitive := toLowerCase query;
     javaClass := if includes query "class" then query else "class.*" ++ query;
     javaMethod := if includes query "(" then query else query ++ "\s*\(";
     javaImport := if includes query "import" then query else "import.*" ++ query;
     javaPackage := if includes query "package" then query else "package.*" ++ query;
     functionPattern :=
       if includes query "function" then query else "function\s+" ++ query;
     variable := "\b" ++ query ++ "\b";
     heading := "^#+\s*.*" ++ query;
     listItem := "^\s*[-*]\s*.*" ++ query |}%string.

Record PatternInfo : Type :=
  { pattern : string; patternType : string; weight : Z }.

Definition when_ (b : bool) (p : PatternInfo) : list PatternInfo :=
  if b then [p] else [].

Definition selectSearchPatterns (patterns : SmartPatterns) (type : string)
           (originalQuery : string) : list PatternInfo :=
  let mk p t w := {| pattern := p; patternType := t; weight := w |} in
  let patternPriority :=
    (if String.eqb type "java" then
       when_ (includes originalQuery "class")
             (mk (javaClass patterns) "javaClass" 10%Z)
       ++ when_ (includes originalQuery "import")
                (mk (javaImport patterns) "javaImport" 10%Z)
       ++ when_ (includes originalQuery "package")
                (mk (javaPackage patterns) "javaPackage" 10%Z)
       ++ when_ (includes originalQuery "(" || includes originalQuery "method")
                (mk (javaMethod patterns) "javaMethod" 9%Z)
     else [])
    ++ (if String.eqb type "docs" then
          [ mk (heading patterns) "heading" 8%Z;
            mk (listItem patterns) "listItem" 7%Z ]
        else [])
    ++ when_ (JsArray.includes ["javascript"; "python"; "cpp"; "csharp"] type)
             (mk (functionPattern patterns) "function" 8%Z)
    (* always include the basic patterns *)
    ++ [ mk (variable patterns) "variable" 6%Z;
         mk (caseInsensitive patterns) "caseInsensitive" 5%Z;
         mk (original patterns) "exact" 10%Z ] in
  JsArray.sort (fun a b => (weight b - weight a)%Z) patternPriority.

(** ** Matching inside a file ([findMatches]) *)

(** The fields both branches of [findMatches] compute from the index
    of a match. *)
Definition resultAt (content : string) (lines : list string)
           (info : PatternInfo) (contextLines : nat)
           (matchIndex : nat) (text : string) : Match :=
  let beforeMatch := take matchIndex content in
  let lineNumber := List.length (splitChar newline beforeMatch) in
  let startLine := lineNumber - contextLines - 1 in
  let endLine := Nat.min (List.length lines - 1) (lineNumber + contextLines - 1) in
  {| line := lineNumber;
     column := (Z.of_nat matchIndex
                - match lastIndexOfChar beforeMatch newline 0 None with
                  | Some i => Z.of_nat i
                  | None => -1
                  end)%Z;
     matchText := text;
     context := join NL (JsArray.slice lines startLine (endLine + 1));
     matchType := patternType info;
     relevanceScore := weight info;
     patternUsed := pattern info |}.

(** The [while (index !== -1)] loop of the fall-back: the indices it
    visits.  An empty [searchPattern] would make the source loop for
    ever; the model stops after [fuel] rounds. *)
Fixpoint literalIndices (searchText searchPattern : string) (fuel : nat)
         (index : option nat) : list nat :=
  match fuel with
  | 0 => []
  | S fuel' =>
      match index with
      | None => []
      | Some i =>
          i :: literalIndices searchText searchPattern fuel'
                 (indexOfFrom searchText searchPattern (S i))
      end
  end.

Definition literalSearch (content : string) (lines : list string)
           (info : PatternInfo) (caseSensitive : bool) (contextLines : nat)
  : list Match :=
  let searchText := if caseSensitive then content else toLowerCase content in
  let searchPattern :=
    if caseSensitive then pattern info else toLowerCase (pattern info) in
  map (fun index =>
         resultAt content lines info contextLines index
                  (take (String.length searchPattern) (drop index content)))
      (literalIndices searchText searchPattern (S (String.length searchText))
                      (indexOf searchText searchPattern)).

Definition findMatches (content : string) (lines : list string)
           (info : PatternInfo) (caseSensitive : bool) (contextLines : nat)
  : list Match :=
  match regExpMatchAll rt (pattern info) (negb caseSensitive) with
  | Some matchAll =>
      map (fun m => resultAt content lines info contextLines
                             (JsRegExp.index m) (JsRegExp.matched m))
          (matchAll content)
  | None =>
      (* the regular expression failed: simple string search *)
      literalSearch content lines info caseSensitive contextLines
  end.

(** ** Per-file deduplication ([deduplicateAndScore]) *)

(** [uniqueByLine]: a [Map] from line to match, in insertion order. *)
Fixpoint mapSet (key : nat) (value : Match) (m : list (nat * Match))
  : list (nat * Match) :=
  match m with
  | [] => [(key, value)]
  | (k, v) :: tl =>
      if Nat.eqb k key then (k, value) :: tl else (k, v) :: mapSet key value tl
  end.

Definition mapGet (key : nat) (m : list (nat * Match)) : option Match :=
  match find (fun e => Nat.eqb (fst e) key) m with
  | Some e => Some (snd e)
  | None => None
  end.

Definition uniqueByLine (results : list Match) : list (nat * Match) :=
  fold_left
    (fun m result =>
       match mapGet (line result) m with
       | None => mapSet (line result) result m
       | Some existing =>
           if (relevanceScore existing <? relevanceScore result)%Z
           then mapSet (line result) result m
           else m
       end)
    results [].

Definition byScoreThenLine (a b : Match) : Z :=
  if negb (Z.eqb (relevanceScore a) (relevanceScore b))
  then (relevanceScore b - relevanceScore a)%Z
  else (Z.of_nat (line a) - Z.of_nat (line b))%Z.

Definition deduplicateAndScore (results : list Match) : list Match :=
  JsArray.sort byScoreThenLine (map snd (uniqueByLine results)).

(** ** One file ([smartSearchInFile]) *)

(** The loop over the selected patterns, with its [break]. *)
Fixpoint collectMatches (content : string) (lines : list string)
         (caseSensitive : bool) (maxMatches contextLines : nat)
         (searchPatterns : list PatternInfo) (results : list Match)
  : list Match :=
  match searchPatterns with
  | [] => results
  | patternInfo :: tl =>
      if maxMatches <=? List.length results then results
      else collectMatches content lines caseSensitive maxMatches contextLines tl
             (results ++ findMatches content lines patternInfo caseSensitive
                                     contextLines)
  end.

Definition smartSearchInFile (filePath query : string) (caseSensitive : bool)
           (maxMatches contextLines : nat) : M (list Match) :=
  let pathValidation := validatePath rt filePath in
  if negb (valid pathValidation) then
    tell (errorStat ("Security: " ++ errorOf pathValidation)) ;;; ret []
  else
    tryCatch
      (size <- orThrow (stat rt filePath) "stat failed" ;;
       if (maxFileSize settings <? size)%Z then ret []
       else
         match readFile rt filePath with
         | None =>
             tell (errorStat ("Cannot read file: " ++ filePath)) ;;; ret []
         | Some content =>
             let type := getFileType filePath in
             let patterns := createSmartPatterns query in
             let lines := splitChar newline content in
             let searchPatterns := selectSearchPatterns patterns type query in
             let results :=
               collectMatches content lines caseSensitive maxMatches
                              contextLines searchPatterns [] in
             let uniqueResults := deduplicateAndScore results in
             tell processedStat ;;;
             ret (JsArray.slice uniqueResults 0 maxMatches)
         end)
      (fun _ =>
         tell (errorStat ("Error in smart search for file: " ++ filePath)) ;;;
         ret []).

(** ** Batches ([processFilesInBatches]) *)

(** [searchFunction(file).catch(error => { ...; return []; })] *)
Definition guarded (searchFunction : FileEntry -> M (list SearchResult))
           (file_ : FileEntry) : M (list SearchResult) :=
  tryCatch (searchFunction file_)
           (fun _ =>
              tell (errorStat ("Error processing " ++ path file_)) ;;;
              ret []).

(** One batch: [Promise.all] over the guarded searches of its files,
    flattened. *)
Definition runBatch (searchFunction : FileEntry -> M (list SearchResult))
           (batch : list FileEntry) : M (list SearchResult) :=
  forEachM (guarded searchFunction) batch.

(** The loop over the batches, with its early termination. *)
Fixpoint batchLoop (searchFunction : FileEntry -> M (list SearchResult))
         (batches : list (list FileEntry)) (results : list SearchResult)
  : M (list SearchResult) :=
  match batches with
  | [] => ret results
  | batch :: tl =>
      batchResults <- runBatch searchFunction batch ;;
      let results := results ++ batchResults in
      (* early termination if we have enough results *)
      if maxResults settings <=? List.length results then ret results
      else batchLoop searchFunction tl results
  end.

Definition batchesOf (files : list FileEntry) : list (list FileEntry) :=
  JsArray.chunks (List.length files) (Pos.to_nat (batchSize settings)) files.

Definition processFilesInBatches (files : list FileEntry)
           (searchFunction : FileEntry -> M (list SearchResult))
  : M (list SearchResult) :=
  batchLoop searchFunction (batchesOf files) [].

(** ** The search ([smartSearch]) *)

Record SearchOptions : Type :=
  { optFileTypes : option (list string);
    optMaxResults : option nat;
    optMaxFiles : option nat;
    optCaseSensitive : option bool;
    optContextLines : option nat;
    optExcludePatterns : list string }.

Definition noOptions : SearchOptions :=
  {| optFileTypes := None; optMaxResults := None; optMaxFiles := None;
     optCaseSensitive := None; optContextLines := None;
     optExcludePatterns := [] |}.

Record Summary : Type :=
  { totalFiles : nat; filteredFiles : nat; summaryProcessedFiles : nat;
    matchCount : option nat; summaryErrors : list string;
    message : option string }.

Record SearchResponse : Type :=
  { query : string; searchPaths : list string;
    results : list SearchResult; summary : Summary }.

Definition orDefault {A : Type} (o : option A) (d : A) : A :=
  match o with Some a => a | None => d end.

Definition withFile (file_ : FileEntry) (result : Match) : SearchResult :=
  {| hit := result;
     file := relativePath file_;
     fullPath := path file_;
     fileName := name file_;
     resultFileType := fileType file_;
     resultExtension := extension file_;
     searchContext := None |}.

(** The comparator of the final sort. *)
Definition byScoreThenFile (a b : SearchResult) : Z :=
  if negb (Z.eqb (score a) (score b)) then (score b - score a)%Z
  else localeCompare rt (file a) (file b).

(** [searchFunction]: the matches of one file (at most three), with
    the metadata of the file. *)
Definition searchFunction (query_ : string) (caseSensitive : bool)
           (contextLines : nat) (file_ : FileEntry) : M (list SearchResult) :=
  found <- smartSearchInFile (path file_) query_ caseSensitive 3 contextLines ;;
  ret (map (withFile file_) found).

(** The files of one search path that pass [shouldProcessFile]. *)
Definition validFilesOf (types excludePatterns : list string)
           (searchPath : string) : M (list FileEntry) :=
  tryCatch
    (pathFiles <- getAllFiles searchPath
                    {| walkMaxDepth := Some (maxDepth settings);
                       extensions := []; skipDirs := [] |} ;;
     forEachM
       (fun file_ =>
          tryCatch
            (size <- orThrow (stat rt (path file_)) "stat failed" ;;
             ok <- shouldProcessFile (path file_) size types excludePatterns ;;
             ret (if ok then [file_] else []))
            (fun _ =>
               tell (errorStat ("Cannot stat file: " ++ path file_)) ;;;
               ret []))
       pathFiles)
    (fun _ =>
       tell (errorStat ("Cannot access directory: " ++ searchPath)) ;;;
       ret []).

(** What [smartSearch] computes before it reads the statistics for
    the summary: the results, the number of files found and the
    number left by the type filter. *)
Definition searchCore (query_ : string) (paths : list string)
           (options : SearchOptions)
  : M (list SearchResult * nat * nat * option string) :=
  let types := orDefault (optFileTypes options) ["all"] in
  let maxResults_ := orDefault (optMaxResults options) (maxResults settings) in
  let maxFiles := orDefault (optMaxFiles options) (maxFilesToProcess settings) in
  let caseSensitive := orDefault (optCaseSensitive options) false in
  let contextLines := orDefault (optContextLines options) 3 in
  let excludePatterns := optExcludePatterns options in
  (* all files, with the should-process filter *)
  allFiles <- forEachM (validFilesOf types excludePatterns) paths ;;
  (* filter files by type *)
  filtered <- filterFilesByType allFiles types ;;
  if Nat.eqb (List.length filtered) 0 then
    ret ([], List.length allFiles, 0,
         Some "No files found matching the specified file types")
  else
    (* limit files to process *)
    let filesToProcess := JsArray.slice allFiles 0 maxFiles in
    allResults <- processFilesInBatches filesToProcess
                    (searchFunction query_ caseSensitive contextLines) ;;
    (* sort and limit the final results *)
    let sortedResults :=
      JsArray.slice (JsArray.sort byScoreThenFile allResults) 0 maxResults_ in
    ret (JsArray.slice sortedResults 0 maxResults_,
         List.length allFiles, List.length filtered, None).

Definition smartSearch (query_ : string) (paths : list string)
           (options : SearchOptions) : M SearchResponse :=
  match searchCore query_ paths options with
  | (Return (found, total, filtered, msg), stats) =>
      (Return
         {| query := query_; searchPaths := paths; results := found;
            summary :=
              {| totalFiles := total; filteredFiles := filtered;
                 summaryProcessedFiles :=
                   match msg with Some _ => 0 | None => processedFiles stats end;
                 matchCount :=
                   match msg with Some _ => None | None => Some (List.length found) end;
                 summaryErrors := errors stats;
                 message := msg |} |},
       stats)
  | (Throw e, stats) => (Throw e, stats)
  end.

End Engine.
End SmartSearch.

(* ===================================================================== *)
(** * A concrete runtime: in-memory file systems

    Used to run the model on explicit inputs. *)
(* ===================================================================== *)

Module Fixture.
Import JsString JsRegExp JsPattern.

(** [new RegExp(pattern, flags)] followed by [matchAll], for patterns
    of the fragment. *)
Definition regExp (pattern : string) (ignoreCase_ : bool)
  : option (string -> list matchResult) :=
  match parse pattern with
  | Some r => Some (matchAll {| ignoreCase := ignoreCase_; multiline := false |} r)
  | None => None
  end.

(** Code-unit order, as [localeCompare] gives it on the inputs used
    below. *)
Definition compareStrings (a b : string) : Z :=
  match String.compare a b with
  | Lt => (-1)%Z
  | Eq => 0%Z
  | Gt => 1%Z
  end.

Fixpoint assoc {A : Type} (key : string) (l : list (string * A)) : option A :=
  match l with
  | [] => None
  | (k, v) :: tl => if String.eqb k key then Some v else assoc key tl
  end.

Definition isSome {A : Type} (o : option A) : bool :=
  match o with Some _ => true | None => false end.

Definition dir (n : string) : Dirent := {| d_name := n; d_kind := KDirectory |}.
Definition fil (n : string) : Dirent := {| d_name := n; d_kind := KFile |}.

(** A file system given by its directory listings and its files. *)
Definition memFs (dirs : list (string * list Dirent))
           (files : list (string * string)) : Runtime :=
  {| readdir := fun p => assoc p dirs;
     stat := fun p => match assoc p files with
                      | Some c => Some (Z.of_nat (String.length c))
                      | None => if isSome (assoc p dirs) then Some 4096%Z else None
                      end;
     readFile := fun p => assoc p files;
     lstat := fun p => if isSome (assoc p files) then Some KFile
                       else if isSome (assoc p dirs) then Some KDirectory
                       else None;
     realpath := fun p => if isSome (assoc p files) || isSome (assoc p dirs)
                          then Some p else None;
     existsSync := fun p => isSome (assoc p files) || isSome (assoc p dirs);
     platform := "linux";
     pathNormalize := PosixPath.normalize;
     pathResolve := PosixPath.resolve "/";
     frames := 0;
     regExpMatchAll := regExp;
     localeCompare := compareStrings |}.

End Fixture.

(* ===================================================================== *)
(** * The log tracer ([traceErrorLogToSource]) *)
(* ===================================================================== *)

Module LogTracer.
Import JsString JsRegExp JsPattern SmartSearch.
Local Open Scope engine_scope.

(** [phrases.add(x)] on a [Set]: insertion order, no duplicates. *)
Definition setAdd (s : list string) (x : string) : list string :=
  if JsArray.includes s x then s else s ++ [x].

Definition addAll (s xs : list string) : list string := fold_left setAdd xs s.

(** The regular-expression literals of [extractKeyPhrases]. *)
Definition reClassNames : string := "\b[A-Z][a-zA-Z0-9]*(?:\.[A-Z][a-zA-Z0-9]*)+\b".
Definition reMethods : string := "\b[a-zA-Z_][a-zA-Z0-9_]*\s*\(".
Definition reMethodTail : string := "\s*\($".
Definition reErrorMessages : string := "(?:error|exception|failed?|warning):\s*([^.!?\n]+)".
Definition reColon : string := ":\s*".
Definition reQuoted : string :=
  (DQ ++ "[^" ++ DQ ++ "]{3,50}" ++ DQ ++ "|'[^']{3,50}'")%string.
Definition reQuotes : string := ("[" ++ DQ ++ "']")%string.
Definition reStack : string := "at\s+[\w.]+(?:\([^)]*\))?".
Definition reStackHead : string := "^at\s+".
Definition reFileNames : string := "\b[\w-]+\.\w{2,4}\b".

Definition extractKeyPhrases (log : string) : list string :=
  let phrases := [] in
  (* class names *)
  let phrases := addAll phrases (matchTexts noFlags (lit reClassNames) log) in
  (* method names with parentheses *)
  let phrases :=
    addAll phrases
           (map (replaceFirst noFlags (lit reMethodTail) "")
                (matchTexts noFlags (lit reMethods) log)) in
  (* messages after "error:", "exception:", ... *)
  let phrases :=
    fold_left (fun s ep =>
                 match nth_error (split noFlags (lit reColon) ep) 1 with
                 | Some msg => if String.eqb msg "" then s else setAdd s (trim msg)
                 | None => s
                 end)
              (matchTexts flagI (lit reErrorMessages) log) phrases in
  (* quoted strings *)
  let phrases :=
    addAll phrases
           (map (replace noFlags (lit reQuotes) "")
                (matchTexts noFlags (lit reQuoted) log)) in
  (* stack trace elements *)
  let phrases :=
    addAll phrases
           (map (replaceFirst noFlags (lit reStackHead) "")
                (matchTexts noFlags (lit reStack) log)) in
  (* file names *)
  addAll phrases (matchTexts noFlags (lit reFileNames) log).

(** The patterns of [extractErrorTypes]. *)
Definition exceptionPatterns : list string :=
  [ "\b\w*Exception\b"; "\b\w*Error\b"; "\b\w*Fault\b"; "\b\w*Failure\b";
    "\b\w*Timeout\b"; "\b\w*Invalid\w*\b"; "\b\w*NotFound\w*\b";
    "\b\w*Denied\b"; "\b\w*Unauthorized\b" ].
Definition reHttpCodes : string := "\b(4\d{2}|5\d{2})\s+\w+".

Definition extractErrorTypes (log : string) : list string :=
  let types :=
    fold_left (fun s p => addAll s (matchTexts noFlags (lit p) log))
              exceptionPatterns [] in
  addAll types (matchTexts noFlags (lit reHttpCodes) log).

Definition literals : list string :=
  [ reClassNames; reMethods; reMethodTail; reErrorMessages; reColon; reQuoted;
    reQuotes; reStack; reStackHead; reFileNames; reHttpCodes; "[:\-|]" ]
  ++ exceptionPatterns.

Definition sentinel : string := "No matching source found for the error log.".

Section Tracer.
Variable rt : Runtime.
Variable settings : Settings.

Definition calculateRelevance (query_ : string) (result : SearchResult)
           (originalLog : string) : Z :=
  let logLower := toLowerCase originalLog in
  let fileLower := toLowerCase (file result) in
  let is_ (c : string) :=
    match searchContext result with
    | Some x => String.eqb x c
    | None => false
    end in
  ((* exact matches; an empty context is falsy *)
   (if negb (String.eqb (context (hit result)) "")
       && includes (toLowerCase (context (hit result))) (toLowerCase query_)
    then 10 else 0)
   (* file type relevance *)
   + (if includes logLower "java" && endsWith (file result) ".java" then 5 else 0)
   + (if includes logLower "javascript" && endsWith (file result) ".js" then 5 else 0)
   + (if includes logLower "python" && endsWith (file result) ".py" then 5 else 0)
   (* exception/error files *)
   + (if includes fileLower "error" || includes fileLower "exception" then 3 else 0)
   (* search context *)
   + (if is_ "key_phrase" then 8 else 0)
   + (if is_ "light_normalized" then 5 else 0)
   + (if is_ "error_type" then 4 else 0))%Z.

Definition setScore (s : Z) (r : SearchResult) : SearchResult :=
  {| hit := {| line := line (hit r); column := column (hit r);
               matchText := matchText (hit r); context := context (hit r);
               matchType := matchType (hit r); relevanceScore := s;
               patternUsed := patternUsed (hit r) |};
     file := file r; fullPath := fullPath r; fileName := fileName r;
     resultFileType := resultFileType r; resultExtension := resultExtension r;
     searchContext := searchContext r |}.

Definition setContext (c : option string) (r : SearchResult) : SearchResult :=
  {| hit := hit r; file := file r; fullPath := fullPath r;
     fileName := fileName r; resultFileType := resultFileType r;
     resultExtension := resultExtension r; searchContext := c |}.

Definition defaultTraceTypes : list string :=
  [ "java"; "javascript"; "python"; "cpp"; "csharp";
    "web"; "config"; "build"; "docs"; "sql"; "shell" ].

(** The accumulated [results] and the [searchedQueries] set. *)
Record TraceState : Type :=
  { found : list SearchResult; searchedQueries : list string }.

(** The options of the searches of a trace:
    [{ ...options, fileTypes: options.fileTypes || [...], maxResults: 3 }]. *)
Definition traceOptions (options : SearchOptions) : SearchOptions :=
  {| optFileTypes := Some (orDefault (optFileTypes options) defaultTraceTypes);
     optMaxResults := Some 3;
     optMaxFiles := optMaxFiles options;
     optCaseSensitive := optCaseSensitive options;
     optContextLines := optContextLines options;
     optExcludePatterns := optExcludePatterns options |}.

(** [trySearch(query, context)]; the results it returns are pushed by
    every caller, so the push is done here. *)
Definition trySearch (log : string) (paths : list string)
           (options : SearchOptions) (query_ context_ : string)
           (st : TraceState) : M TraceState :=
  if JsArray.includes (searchedQueries st) query_ || (String.length query_ <? 3)
  then ret st
  else
    let searched := searchedQueries st ++ [query_] in
    searchResult <-
      smartSearch rt settings query_ paths (traceOptions options) ;;
    let annotated :=
      map (fun r =>
             let r := setContext (Some context_) r in
             setScore (calculateRelevance query_ r log) r)
          (results searchResult) in
    ret {| found := found st ++ annotated; searchedQueries := searched |}.

(** [for (const q of queries) { ...trySearch...; if (results.length >= 5) break; }];
    [guard] and [prep] are the filter and the trimming of strategy 3. *)
Fixpoint searchEach (log : string) (paths : list string) (options : SearchOptions)
         (guard : string -> bool) (prep : string -> string)
         (context_ : string) (queries : list string) (st : TraceState)
  : M TraceState :=
  match queries with
  | [] => ret st
  | q :: tl =>
      if guard q then
        st' <- trySearch log paths options (prep q) context_ st ;;
        if 5 <=? List.length (found st') then ret st'
        else searchEach log paths options guard prep context_ tl st'
      else searchEach log paths options guard prep context_ tl st
  end.

Definition resultKey (r : SearchResult) : string :=
  (file r ++ ":" ++ ofNat (lineOf r))%string.

(** [deduplicateResults]; an earlier entry takes over the score and
    the context of a later duplicate with a higher score. *)
Fixpoint improve (key : string) (result : SearchResult)
         (unique : list SearchResult) : list SearchResult :=
  match unique with
  | [] => []
  | existing :: tl =>
      if String.eqb (resultKey existing) key then
        (if (score existing <? score result)%Z
         then setContext (searchContext result) (setScore (score result) existing)
         else existing) :: tl
      else existing :: improve key result tl
  end.

Definition deduplicateResults (rs : list SearchResult) : list SearchResult :=
  snd (fold_left
         (fun (acc : list string * list SearchResult) result =>
            let '(seen, unique) := acc in
            let key := resultKey result in
            if JsArray.includes seen key
            then (seen, improve key result unique)
            else (seen ++ [key], unique ++ [result]))
         rs ([], [])).

Definition formatOne (idx : nat) (r : SearchResult) : string :=
  let contextLines := if String.eqb (context (hit r)) "" then []
                      else splitChar newline (context (hit r)) in
  let relevantLine :=
    match contextLines with
    | l :: _ => if String.eqb l "" then "No context available" else trim l
    | [] => "No context available"
    end in
  let shortPath :=
    if 50 <? String.length (file r)
    then ("..." ++ drop (String.length (file r) - 47) (file r))%string
    else file r in
  (ofNat (idx + 1) ++ ". " ++ shortPath ++ ":" ++ ofNat (lineOf r) ++ NL
   ++ "   " ++ relevantLine
   ++ (if Z.eqb (score r) 0 then ""
       else " [relevance: " ++ ofZ (score r) ++ "]"))%string.

Fixpoint formatFrom (idx : nat) (rs : list SearchResult) : list string :=
  match rs with
  | [] => []
  | r :: tl => formatOne idx r :: formatFrom (S idx) tl
  end.

Definition formatTraceResult (rs : list SearchResult) : string :=
  if Nat.eqb (List.length rs) 0 then sentinel
  else join (NL ++ NL) (formatFrom 0 rs).

Definition byRelevance (a b : SearchResult) : Z := (score b - score a)%Z.

Definition always (_ : string) : bool := true.
Definition same (s : string) : string := s.

Definition traceErrorLogToSource (log : string) (paths : list string)
           (options : SearchOptions) : M string :=
  let st := {| found := []; searchedQueries := [] |} in
  (* 1. key phrases *)
  st <- searchEach log paths options always same "key_phrase"
                   (extractKeyPhrases log) st ;;
  (* 2. light normalisation *)
  st <- (if List.length (found st) <? 3
         then trySearch log paths options
                        (LogNormalizer.normalizeLogText log "light")
                        "light_normalized" st
         else ret st) ;;
  (* 3. moderate normalisation and its sub-phrases *)
  st <- (if List.length (found st) <? 3
         then
           let moderateNormalized :=
             LogNormalizer.normalizeLogText log "moderate" in
           st <- trySearch log paths options moderateNormalized
                           "moderate_normalized" st ;;
           searchEach log paths options
                      (fun phrase => 10 <? String.length phrase) trim
                      "phrase_part"
                      (split noFlags (lit "[:\-|]") moderateNormalized) st
         else ret st) ;;
  (* 4. specific error types *)
  st <- (if List.length (found st) <? 3
         then searchEach log paths options always same "error_type"
                         (extractErrorTypes log) st
         else ret st) ;;
  (* 5. process and return the results *)
  if Nat.eqb (List.length (found st)) 0 then ret sentinel
  else
    let uniqueResults := deduplicateResults (found st) in
    let uniqueResults := JsArray.sort byRelevance uniqueResults in
    ret (formatTraceResult (JsArray.slice uniqueResults 0 3)).

End Tracer.
End LogTracer.

(* ===================================================================== *)
(** * Object values

    The records the analyzers build are plain JavaScript objects whose
    consumers read properties by name; an absent property reads as
    [undefined]. *)
(* ===================================================================== *)

Module JsValue.

#[warnings="-register-all"]
Inductive value : Type :=
| VUndefined
| VNull
| VNumber (z : Z)
| VString (s : string)
| VArray (items : list value)
| VObject (props : list (string * value)).

(** [o[key]] *)
Definition get (o : value) (key : string) : value :=
  match o with
  | VObject props =>
      match find (fun p => String.eqb (fst p) key) props with
      | Some p => snd p
      | None => VUndefined
      end
  | _ => VUndefined
  end.

Definition keys (o : value) : list string :=
  match o with
  | VObject props => map fst props
  | _ => []
  end.

Definition isString (v : value) (s : string) : bool :=
  match v with VString t => String.eqb s t | _ => false end.

Definition isArray (v : value) : bool :=
  match v with VArray _ => true | _ => false end.

Definition arrayLength (v : value) : nat :=
  match v with VArray l => List.length l | _ => 0 end.

Definition ofOption (o : option string) : value :=
  match o with Some s => VString s | None => VNull end.

End JsValue.

(* ===================================================================== *)
(** * The dependency resolver ([EnhancedTraversalAnalyzer]) *)
(* ===================================================================== *)

Module TraversalAnalyzer.
Import JsString JsRegExp JsPattern JsValue SmartSearch.
Local Open Scope engine_scope.

Definition maxTraversalDepth : nat := 10.

(** [this.queryPatterns], the entries the code reads. *)
Definition reSelect : string := "SELECT\s+.*?\s+FROM\s+(\w+)".
Definition reInsert : string := "INSERT\s+INTO\s+(\w+)".
Definition reUpdate : string := "UPDATE\s+(\w+)".
Definition reJdbcQuery : string :=
  "jdbcTemplate\.(query|queryForObject|queryForList|update)\s*\([^)]*\)".
Definition reNamedQuery : string :=
  "namedParameterJdbcTemplate\.(query|queryForObject|update)\s*\([^)]*\)".
Definition reConfigAccess : string := "ConfigStore\.\w+".
Definition reArrayAdd : string := "(\w+)\.(add|put|push|addAll|putAll)\s*\([^)]+\)".
Definition reEnvVar : string := "process\.env\.\w+|System\.getenv\([^)]+\)".
Definition reMethodCall : string := "(\w+)\s*\.\s*(\w+)\s*\(".
Definition reIdentifiers : string := "\b([A-Z_]+|[a-z][a-zA-Z0-9]*)\b".

(** The patterns of [extractSQLFromContext]. *)
Definition sqlKeywords : string := "(?:SELECT|INSERT|UPDATE|DELETE)".
Definition reSqlDouble : string :=
  (DQ ++ "([^" ++ DQ ++ "]*" ++ sqlKeywords ++ "[^" ++ DQ ++ "]*)" ++ DQ)%string.
Definition reSqlSingle : string := ("'([^']*" ++ sqlKeywords ++ "[^']*)'")%string.
Definition reSqlBacktick : string := ("`([^`]*" ++ sqlKeywords ++ "[^`]*)`")%string.
Definition reSqlTriple : string :=
  (DQ ++ DQ ++ DQ ++ "([^]*?" ++ sqlKeywords ++ "[^]*?)" ++ DQ ++ DQ ++ DQ)%string.

Definition reColumn : string := "^\s*(\w+)\s+(\w+(?:\([^)]+\))?)".

Definition literals : list string :=
  [ reSelect; reInsert; reUpdate; reJdbcQuery; reNamedQuery; reConfigAccess;
    reArrayAdd; reEnvVar; reMethodCall; reIdentifiers; reSqlDouble; reSqlSingle;
    reSqlBacktick; reSqlTriple; reColumn;
    "FROM\s+(\w+)"; "JOIN\s+(\w+)"; "INTO\s+(\w+)"; "UPDATE\s+(\w+)"; "\s+" ].

Definition setAdd := LogTracer.setAdd.

Record References : Type :=
  { variables : list string; methods : list string; classes : list string;
    tables : list string; constants : list string; configurations : list string }.

Definition groupOr (m : matchResult) (i : nat) : string :=
  match group m i with Some g => g | None => "" end.

Definition extractReferences (snippet : string) : References :=
  let varMatches := matchTexts noFlags (lit reIdentifiers) snippet in
  let methodMatches := matchAll noFlags (lit reMethodCall) snippet in
  let tableMatches :=
    matchAll flagI (lit reSelect) snippet
    ++ matchAll flagI (lit reInsert) snippet
    ++ matchAll flagI (lit reUpdate) snippet in
  let isConstant v := String.eqb v (toUpperCase v) && (2 <? String.length v) in
  {| variables :=
       fold_left (fun s v => if isConstant v then s else setAdd s v) varMatches [];
     methods := fold_left (fun s m => setAdd s (groupOr m 2)) methodMatches [];
     classes := fold_left (fun s m => setAdd s (groupOr m 1)) methodMatches [];
     tables :=
       fold_left (fun s m => if String.eqb (groupOr m 1) "" then s
                             else setAdd s (toUpperCase (groupOr m 1)))
                 tableMatches [];
     constants :=
       fold_left (fun s v => if isConstant v then setAdd s v else s) varMatches [];
     configurations :=
       fold_left setAdd (matchTexts noFlags (lit reConfigAccess) snippet) [] |}.

(** [extractSQLFromContext]; [None] is [null]. *)
Definition extractSQLFromContext (context_ : string) : option string :=
  let try_ (p : string) :=
    match exec flagI (lit p) context_ with
    | Some m =>
        match group m 1 with
        | Some g => if String.eqb g "" then None
                    else Some (trim (replace noFlags (lit "\s+") " " g))
        | None => None
        end
    | None => None
    end in
  match try_ reSqlDouble with
  | Some q => Some q
  | None =>
      match try_ reSqlSingle with
      | Some q => Some q
      | None =>
          match try_ reSqlBacktick with
          | Some q => Some q
          | None => try_ reSqlTriple
          end
      end
  end.

Definition extractTablesFromSQL (sql : string) : list string :=
  fold_left
    (fun tables_ p =>
       fold_left (fun s m => if String.eqb (groupOr m 1) "" then s
                             else setAdd s (groupOr m 1))
                 (matchAll flagI (lit p) sql) tables_)
    ["FROM\s+(\w+)"; "JOIN\s+(\w+)"; "INTO\s+(\w+)"; "UPDATE\s+(\w+)"] [].

Definition extractTableColumns (context_ : string) : list value :=
  flat_map
    (fun m =>
       if negb (String.eqb (groupOr m 1) "")
          && negb (JsArray.includes
                     ["CREATE"; "TABLE"; "PRIMARY"; "FOREIGN"; "KEY"; "CONSTRAINT"]
                     (toUpperCase (groupOr m 1)))
       then [VObject [("name", VString (groupOr m 1));
                      ("type", VString (groupOr m 2))]]
       else [])
    (matchAll {| ignoreCase := false; multiline := true |} (lit reColumn) context_).

(** [extractConstantValue]: the four patterns are built from the name;
    a name that is no valid pattern makes the constructor throw. *)
Definition extractConstantValue (context_ constantName : string) : M value :=
  let mk (tail : string) := orThrow (parse (constantName ++ tail)) "Invalid regular expression" in
  p1 <- mk ("\s*=\s*" ++ DQ ++ "([^" ++ DQ ++ "]+)" ++ DQ)%string ;;
  p2 <- mk "\s*=\s*'([^']+)'" ;;
  p3 <- mk "\s*=\s*(\d+)" ;;
  p4 <- mk "\s*=\s*([\w.]+)" ;;
  let try_ (r : regex) :=
    match exec noFlags r context_ with
    | Some m => match group m 1 with
                | Some g => if String.eqb g "" then None else Some g
                | None => None
                end
    | None => None
    end in
  ret (match try_ p1 with
       | Some v => VString v
       | None =>
           match try_ p2 with
           | Some v => VString v
           | None =>
               match try_ p3 with
               | Some v => VString v
               | None => ofOption (try_ p4)
               end
           end
       end).

(** [s.replace(sub, rep)] for a text [sub]: the first occurrence. *)
Definition replaceText (s sub rep : string) : string :=
  match indexOf s sub with
  | Some i => (take i s ++ rep ++ drop (i + String.length sub) s)%string
  | None => s
  end.

Definition sourceOf (r : SearchResult) : list (string * value) :=
  [ ("file", VString (file r));
    ("line", VNumber (Z.of_nat (lineOf r)));
    ("context", VString (context (hit r))) ].

(** ** The analysis record *)

Record ArraySource : Type :=
  { arrayName : string; operation : string; initialization : list value }.
Record QuerySource : Type :=
  { queryText : string; queryContext : string; queryTables : list string }.
Record ConfigurationUse : Type :=
  { configName : string; populationLogic : list value }.
Record ExternalSource : Type :=
  { externalType : string; externalName : string; usage : string }.

Record DataSources : Type :=
  { arrays : list ArraySource;
    constantSources : list value;
    queries : list QuerySource;
    configurationUses : list ConfigurationUse;
    externalSources : list ExternalSource }.

Definition noDataSources : DataSources :=
  {| arrays := []; constantSources := []; queries := [];
     configurationUses := []; externalSources := [] |}.

Record PathEntry : Type := { visitedFile : string; depth : nat }.

Record Recommendation : Type :=
  { recType : string; recMessage : string; suggestion : string }.

(** The [analysis] object of [analyzeWithTraversal]; the fixed text of
    [immediateIssue] is left out. *)
Record Analysis : Type :=
  { primaryFile : string;
    snippetOf : string;
    dependencies : list value;
    dataSourceAnalysis : DataSources;
    traversalPath : list PathEntry;
    recommendations : list Recommendation;
    analysisError : option string }.

(** The mutable state of a traversal: the analyzer's [visitedFiles]
    set and the analysis being filled. *)
Record Traversal : Type :=
  { visitedFiles : list string; analysis : Analysis }.

Definition updAnalysis (f : Analysis -> Analysis) (t : Traversal) : Traversal :=
  {| visitedFiles := visitedFiles t; analysis := f (analysis t) |}.

Definition pushDependencies (ds : list value) (a : Analysis) : Analysis :=
  {| primaryFile := primaryFile a; snippetOf := snippetOf a;
     dependencies := dependencies a ++ ds;
     dataSourceAnalysis := dataSourceAnalysis a;
     traversalPath := traversalPath a;
     recommendations := recommendations a;
     analysisError := analysisError a |}.

Definition pushPath (e : PathEntry) (a : Analysis) : Analysis :=
  {| primaryFile := primaryFile a; snippetOf := snippetOf a;
     dependencies := dependencies a;
     dataSourceAnalysis := dataSourceAnalysis a;
     traversalPath := traversalPath a ++ [e];
     recommendations := recommendations a;
     analysisError := analysisError a |}.

Definition setDataSources (ds : DataSources) (a : Analysis) : Analysis :=
  {| primaryFile := primaryFile a; snippetOf := snippetOf a;
     dependencies := dependencies a; dataSourceAnalysis := ds;
     traversalPath := traversalPath a;
     recommendations := recommendations a;
     analysisError := analysisError a |}.

Definition setRecommendations (rs : list Recommendation) (a : Analysis) : Analysis :=
  {| primaryFile := primaryFile a; snippetOf := snippetOf a;
     dependencies := dependencies a;
     dataSourceAnalysis := dataSourceAnalysis a;
     traversalPath := traversalPath a;
     recommendations := rs;
     analysisError := analysisError a |}.

Definition setError (e : string) (a : Analysis) : Analysis :=
  {| primaryFile := primaryFile a; snippetOf := snippetOf a;
     dependencies := dependencies a;
     dataSourceAnalysis := dataSourceAnalysis a;
     traversalPath := traversalPath a;
     recommendations := recommendations a;
     analysisError := Some e |}.

(** ** Computations over a traversal

    A step reads and updates the traversal and may throw; what it did
    to the traversal before throwing stays done. *)
Definition T (A : Type) : Type := Traversal -> (exn A * Traversal) * Stats.

Definition retT {A : Type} (a : A) : T A := fun t => ((Return a, t), noStats).

Definition bindT {A B : Type} (m : T A) (f : A -> T B) : T B :=
  fun t =>
    match m t with
    | ((Return a, t'), s) => let '(r, s') := f a t' in (r, addStats s s')
    | ((Throw e, t'), s) => ((Throw e, t'), s)
    end.

Definition liftT {A : Type} (m : M A) : T A :=
  fun t =>
    match m with
    | (Return a, s) => ((Return a, t), s)
    | (Throw e, s) => ((Throw e, t), s)
    end.

Definition getT : T Traversal := fun t => ((Return t, t), noStats).
Definition modifyT (f : Traversal -> Traversal) : T unit :=
  fun t => ((Return tt, f t), noStats).

(** [analysis.dependencies.push(d)] *)
Definition pushT (d : value) : T unit := modifyT (updAnalysis (pushDependencies [d])).

Declare Scope traversal_scope.
Delimit Scope traversal_scope with traversal.
Notation "x <- m ;; k" := (bindT m (fun x => k))
  (at level 61, m at next level, right associativity) : traversal_scope.
Notation "m ;;; k" := (bindT m (fun _ => k))
  (at level 61, right associativity) : traversal_scope.

Fixpoint forEachT {A : Type} (body : A -> T unit) (xs : list A) : T unit :=
  match xs with
  | [] => retT tt
  | x :: tl => bindT (body x) (fun _ => forEachT body tl)
  end.

(** [new Set(files)]: the distinct entries, first occurrences. *)
Definition uniqueFiles (files : list string) : list string :=
  fold_left setAdd files [].

Definition circularRecommendation : Recommendation :=
  {| recType := "potential_circular_dependency";
     recMessage := "Detected potential circular dependency in file references";
     suggestion := "Review the dependency chain to avoid circular references" |}.

(** ** Recommendations ([generateRecommendations]) *)
Definition generateRecommendations (a : Analysis) : list Recommendation :=
  let ds := dataSourceAnalysis a in
  (* uninitialised arrays/collections *)
  flat_map
    (fun array =>
       if Nat.eqb (List.length (initialization array)) 0 then
         [{| recType := "uninitialized_collection";
             recMessage := "Array/Collection '" ++ arrayName array
                           ++ "' is being used but initialization not found";
             suggestion := "Search for where '" ++ arrayName array
                           ++ "' is created or passed as parameter" |}]
       else [])
    (arrays ds)
  (* missing configuration sources *)
  ++ flat_map
       (fun config =>
          if Nat.eqb (List.length (populationLogic config)) 0 then
            [{| recType := "missing_configuration";
                recMessage := "Configuration '" ++ configName config
                              ++ "' used but population logic not found";
                suggestion :=
                  "Check ConfigStore initialization, database queries, or property files" |}]
          else [])
       (configurationUses ds)
  (* SQL-related issues *)
  ++ flat_map
       (fun q =>
          if String.eqb (queryText q) "" || Nat.eqb (List.length (queryTables q)) 0
          then
            [{| recType := "incomplete_query";
                recMessage := "SQL query found but appears incomplete or malformed";
                suggestion := "Verify the SQL query syntax and table references" |}]
          else [])
       (queries ds)
  (* external dependencies *)
  ++ (if 0 <? List.length (externalSources ds) then
        [{| recType := "external_dependencies";
            recMessage := "Found " ++ ofNat (List.length (externalSources ds))
                          ++ " external dependencies (env vars, properties)";
            suggestion :=
              "Ensure all environment variables and property files are properly configured" |}]
      else [])
  (* circular dependencies *)
  ++ (if 5 <? List.length (traversalPath a) then
        let files := map visitedFile (traversalPath a) in
        if List.length (uniqueFiles files) <? List.length files
        then [circularRecommendation]
        else []
      else []).

Section Analyzer.
Variable rt : Runtime.
Variable settings : Settings.
Local Open Scope traversal_scope.

(** [this.searchEngine.smartSearch(pattern, [searchDir], { fileTypes, maxResults })] *)
Definition search (pattern_ searchDir : string) (types : list string)
           (limit : nat) : M (list SearchResult) :=
  bind (smartSearch rt settings pattern_ [searchDir]
          {| optFileTypes := Some types; optMaxResults := Some limit;
             optMaxFiles := None; optCaseSensitive := None;
             optContextLines := None; optExcludePatterns := [] |})
       (fun response => ret (results response)).

Definition traceVariableSource (variable_ searchDir : string) : T unit :=
  let patterns :=
    [ variable_ ++ "\s*=\s*"; variable_ ++ "\.add"; variable_ ++ "\.put";
      "populate.*" ++ variable_; "load.*" ++ variable_; "init.*" ++ variable_;
      "set" ++ variable_; variable_ ++ "\s*=.*query";
      variable_ ++ "\s*=.*SELECT" ]%string in
  forEachT
    (fun pattern_ =>
       found <- liftT (search pattern_ searchDir ["java"; "javascript"] 10) ;;
       if 0 <? List.length found
       then pushT (VObject [("type", VString "variable_source");
                            ("name", VString variable_);
                            ("pattern", VString pattern_);
                            ("sources",
                             VArray (map (fun r => VObject (sourceOf r)) found))])
       else retT tt)
    patterns.

Definition traceConstantDefinition (constant searchDir : string) : T unit :=
  let patterns :=
    [ "static.*final.*" ++ constant; "const.*" ++ constant;
      "public.*static.*" ++ constant;
      constant ++ "\s*=\s*[" ++ DQ ++ "']"; constant ++ "\s*=\s*\d+";
      "enum.*\{[^}]*" ++ constant ]%string in
  forEachT
    (fun pattern_ =>
       found <- liftT (search pattern_ searchDir
                              ["java"; "javascript"; "config"] 5) ;;
       if 0 <? List.length found then
         sources <- liftT (forEachM
                             (fun r =>
                                bind (extractConstantValue (context (hit r)) constant)
                                     (fun v => ret [VObject (sourceOf r
                                                             ++ [("value", v)])]))
                             found) ;;
         pushT (VObject [("type", VString "constant_definition");
                         ("name", VString constant);
                         ("pattern", VString pattern_);
                         ("sources", VArray sources)])
       else retT tt)
    patterns.

Definition traceConfigurationSource (config searchDir : string) : T unit :=
  let configName_ := replaceText config "ConfigStore." "" in
  (* where this configuration is populated *)
  let patterns :=
    [ configName_ ++ ".*populate"; configName_ ++ ".*put"; configName_ ++ ".*add";
      "SELECT.*INTO.*" ++ configName_; configName_ ++ ".*=.*query";
      "load.*" ++ configName_; "init.*" ++ configName_ ]%string in
  forEachT
    (fun pattern_ =>
       found <- liftT (search pattern_ searchDir ["java"; "javascript"] 10) ;;
       (* the SQL queries that populate this configuration *)
       forEachT
         (fun result =>
            match extractSQLFromContext (context (hit result)) with
            | Some sqlPattern =>
                pushT (VObject [("type", VString "configuration_source");
                                ("name", VString config);
                                ("sqlQuery", VString sqlPattern);
                                ("source", VObject (sourceOf result))])
            | None => retT tt
            end)
         found)
    patterns ;;;
  (* property files *)
  propResults <- liftT (search configName_ searchDir ["config"] 5) ;;
  if 0 <? List.length propResults
  then pushT (VObject [("type", VString "property_file");
                       ("name", VString config);
                       ("sources",
                        VArray (map (fun r => VObject (sourceOf r)) propResults))])
  else retT tt.

Definition traceDatabaseSchema (table searchDir : string) : T unit :=
  let schemaPatterns :=
    [ "CREATE\s+TABLE\s+" ++ table; "ALTER\s+TABLE\s+" ++ table;
      table ++ ".*PRIMARY\s+KEY"; "FOREIGN\s+KEY.*" ++ table ]%string in
  let queryPatterns :=
    [ "SELECT.*FROM\s+" ++ table; "INSERT\s+INTO\s+" ++ table;
      "UPDATE\s+" ++ table; "DELETE\s+FROM\s+" ++ table ]%string in
  forEachT
    (fun pattern_ =>
       found <- liftT (search pattern_ searchDir ["sql"; "java"; "docs"] 10) ;;
       if 0 <? List.length found
       then pushT (VObject
                     [("type", VString "database_schema");
                      ("table", VString table);
                      ("pattern", VString pattern_);
                      ("sources",
                       VArray (map (fun r =>
                                      VObject (sourceOf r
                                               ++ [("columns",
                                                    VArray (extractTableColumns
                                                              (context (hit r))))]))
                                   found))])
       else retT tt)
    schemaPatterns ;;;
  forEachT
    (fun pattern_ =>
       found <- liftT (search pattern_ searchDir ["java"; "javascript"] 10) ;;
       if 0 <? List.length found
       then pushT (VObject
                     [("type", VString "database_query");
                      ("table", VString table);
                      ("pattern", VString pattern_);
                      ("queries",
                       VArray (map (fun r =>
                                      VObject
                                        [("file", VString (file r));
                                         ("line", VNumber (Z.of_nat (lineOf r)));
                                         ("query",
                                          ofOption (extractSQLFromContext
                                                      (context (hit r))));
                                         ("context", VString (context (hit r)))])
                                   found))])
       else retT tt)
    queryPatterns.

(** ** The traversal ([performDeepTraversal]) *)
Definition performDeepTraversal (currentFile searchDir : string)
           (references : References) (depth_ : nat) : T unit :=
  t <- getT ;;
  if (maxTraversalDepth <=? depth_)
     || JsArray.includes (visitedFiles t) currentFile
  then retT tt
  else
    modifyT (fun t => {| visitedFiles := setAdd (visitedFiles t) currentFile;
                         analysis := analysis t |}) ;;;
    modifyT (updAnalysis
               (pushPath {| visitedFile := currentFile; depth := depth_ |})) ;;;
    (* search for each type of reference *)
    forEachT (fun v => traceVariableSource v searchDir) (variables references) ;;;
    forEachT (fun c => traceConstantDefinition c searchDir) (constants references) ;;;
    forEachT (fun c => traceConfigurationSource c searchDir)
             (configurations references) ;;;
    forEachT (fun tb => traceDatabaseSchema tb searchDir) (tables references).

(** ** Data sources ([analyzeDataSources]) *)
Definition analyzeDataSources (snippet searchDir : string) : M DataSources :=
  (* arrays and collections *)
  bind
    (forEachM
       (fun m =>
          bind (search (groupOr m 1 ++ ".*=.*new") searchDir
                       ["java"; "javascript"] 10)
               (fun initSearch =>
                  ret [{| arrayName := groupOr m 1; operation := groupOr m 2;
                          initialization :=
                            map (fun r => VObject (sourceOf r)) initSearch |}]))
       (matchAll flagI (lit reArrayAdd) snippet))
    (fun arrays_ =>
       (* SQL queries *)
       let queries_ :=
         flat_map
           (fun m =>
              match extractSQLFromContext (matched m) with
              | Some sqlQuery =>
                  [{| queryText := sqlQuery; queryContext := matched m;
                      queryTables := extractTablesFromSQL sqlQuery |}]
              | None => []
              end)
           (matchAll flagI (lit reJdbcQuery) snippet
            ++ matchAll flagI (lit reNamedQuery) snippet) in
       (* configuration access *)
       bind
         (forEachM
            (fun config =>
               bind (search (replaceText config "ConfigStore." "" ++ ".*populate")
                            searchDir ["java"] 5)
                    (fun populateSearch =>
                       ret [{| configName := config;
                               populationLogic :=
                                 map (fun r => VObject (sourceOf r))
                                     populateSearch |}]))
            (matchTexts noFlags (lit reConfigAccess) snippet))
         (fun configs =>
            (* external sources *)
            let externals :=
              map (fun env =>
                     {| externalType := "environment_variable";
                        externalName := env;
                        usage := "Check system environment or Docker configuration" |})
                  (matchTexts flagI (lit reEnvVar) snippet) in
            ret {| arrays := arrays_; constantSources := [];
                   queries := queries_; configurationUses := configs;
                   externalSources := externals |})).

(** ** [analyzeWithTraversal]

    A caller that gives no [searchDirectory] is modelled by the empty
    text, which is falsy in step 3 and which the path guard rejects in
    the searches of step 4, as it rejects [undefined]. *)
Definition freshAnalysis (snippet file_ : string) : Analysis :=
  {| primaryFile := file_; snippetOf := snippet; dependencies := [];
     dataSourceAnalysis := noDataSources; traversalPath := [];
     recommendations := []; analysisError := None |}.

Definition analysisSteps (snippet file_ : string)
           (searchDirectory : string) : T unit :=
  (* step 2: the references *)
  let references := extractReferences snippet in
  (* step 3: the deep traversal *)
  (if String.eqb searchDirectory "" then retT tt
   else performDeepTraversal file_ searchDirectory references 0) ;;;
  (* step 4: the data sources *)
  ds <- liftT (analyzeDataSources snippet searchDirectory) ;;
  modifyT (updAnalysis (setDataSources ds)) ;;;
  (* step 5: the recommendations *)
  modifyT (updAnalysis (fun a => setRecommendations (generateRecommendations a) a)).

Definition analyzeWithTraversal (snippet file_ : string)
           (searchDirectory : string) : M Analysis :=
  match analysisSteps snippet file_ searchDirectory
          {| visitedFiles := []; analysis := freshAnalysis snippet file_ |} with
  | ((Return _, t), stats) => (Return (analysis t), stats)
  | ((Throw e, t), stats) => (Return (setError e (analysis t)), stats)
  end.

End Analyzer.
End TraversalAnalyzer.

(* ===================================================================== *)
(** * The code traversal engine ([CodeTraversalEngine]) *)
(* ===================================================================== *)

Module CodeTraversal.
Import JsString JsRegExp JsPattern.

Record SourceFile : Type := { sourcePath : string; content : string }.

Record MethodCall : Type :=
  { fullCall : string; object : option string; method : string;
    parameters : list string }.

Record MethodInfo : Type :=
  { call : string; definition : option string; source : option string;
    infoParameters : list string; body : option string }.

Record TraceStep : Type :=
  { step : nat; description : string; location : string }.

Record ConfigInfo : Type :=
  { configMethod : string; configSource : option string;
    dataSource : option string; sqlQuery : option string;
    tableName : option string; populationSteps : list TraceStep }.

Definition reMethodCall : string :=
  "([a-zA-Z_][a-zA-Z0-9_]*(?:\.[a-zA-Z_][a-zA-Z0-9_]*)*)\s*\(".
Definition reSqlDouble : string := (DQ ++ "(SELECT[\s\S]*?)" ++ DQ)%string.
Definition reSqlSingle : string := "'(SELECT[\s\S]*?)'".
Definition reSqlBare : string := ("SELECT[\s\S]*?(?=" ++ DQ ++ "|'|;|\)|$)")%string.
Definition reOuterQuotes : string := ("^[" ++ DQ ++ "']|[" ++ DQ ++ "']$")%string.
Definition reFrom : string := "FROM\s+(\w+)".
Definition configPatterns : list string :=
  [ "ConfigStore\."; "\.populate\w+"; "\.get\w+List"; "\.load\w+" ].

Definition literals : list string :=
  [ reMethodCall; reSqlDouble; reSqlSingle; reSqlBare; reOuterQuotes; reFrom ]
  ++ configPatterns.

Definition extractMethodParameters (statement : string) (methodStartIndex : nat)
  : list string :=
  match indexOfFrom statement "(" methodStartIndex with
  | None => []
  | Some parenStart =>
      match indexOfFrom statement ")" parenStart with
      | None => []
      | Some parenEnd =>
          let paramsStr := trim (slice statement (parenStart + 1) parenEnd) in
          if String.eqb paramsStr "" then []
          else map trim (splitChar "," paramsStr)
      end
  end.

Definition parseMethodCalls (statement : string) : list MethodCall :=
  map (fun m =>
         let full := match group m 1 with Some g => g | None => "" end in
         let parts := splitChar "." full in
         {| fullCall := full;
            object := if 1 <? List.length parts
                      then Some (join "." (removelast parts))
                      else None;
            method := last parts "";
            parameters := extractMethodParameters statement (index m) |})
      (matchAll noFlags (lit reMethodCall) statement).

(** [extractMethodBody]: the text from the first opening brace at or
    after the start to the brace that closes it. *)
Fixpoint methodBodyLoop (l : list ascii) (braceCount : Z) (inMethod : bool)
  : list ascii :=
  match l with
  | [] => []
  | c :: tl =>
      let opens := Ascii.eqb c "{" in
      let braceCount := if opens then (braceCount + 1)%Z else braceCount in
      let inMethod := inMethod || opens in
      let keep (rest_ : list ascii) := if inMethod then c :: rest_ else rest_ in
      if Ascii.eqb c "}" then
        let braceCount := (braceCount - 1)%Z in
        if Z.eqb braceCount 0 && inMethod then keep []
        else keep (methodBodyLoop tl braceCount inMethod)
      else keep (methodBodyLoop tl braceCount inMethod)
  end.

Definition extractMethodBody (content_ : string) (methodStartIndex : nat) : string :=
  ofChars (methodBodyLoop (chars (drop methodStartIndex content_)) 0 false).

(** [resolveMethodCall]: the first file with a definition of the
    method wins.  The pattern is built from the method name; [Throw] is
    the [SyntaxError] of its constructor. *)
Fixpoint resolveIn (r : regex) (sourceFiles : list SourceFile)
         (methodCall : MethodCall) : MethodInfo :=
  match sourceFiles with
  | [] => {| call := fullCall methodCall; definition := None; source := None;
             infoParameters := parameters methodCall; body := None |}
  | f :: tl =>
      match exec flagM r (content f) with
      | Some m =>
          {| call := fullCall methodCall;
             definition := Some (matched m);
             source := Some (sourcePath f);
             infoParameters := parameters methodCall;
             body := Some (extractMethodBody (content f) (index m)) |}
      | None => resolveIn r tl methodCall
      end
  end.

Definition resolveMethodCall (methodCall : MethodCall)
           (sourceFiles : list SourceFile) : exn MethodInfo :=
  match sourceFiles with
  | [] => Return (resolveIn REmpty [] methodCall)
  | _ =>
      match parse ("(?:public|private|protected)?\s*(?:static)?\s*\w+\s+"
                   ++ method methodCall ++ "\s*\([^)]*\)\s*\{") with
      | Some r => Return (resolveIn r sourceFiles methodCall)
      | None => Throw "Invalid regular expression"
      end
  end.

Definition isConfigurationMethod (methodCall : MethodCall) : bool :=
  existsb (fun p => test noFlags (lit p) (fullCall methodCall)) configPatterns.

(** [buildConfigurationSteps] *)
Definition buildConfigurationSteps (methodCall : MethodCall)
           (methodInfo : MethodInfo) (dataSource_ sqlQuery_ tableName_ : option string)
  : list TraceStep :=
  let isDatabase := match dataSource_ with
                    | Some d => String.eqb d "database"
                    | None => false
                    end in
  [{| step := 1;
      description := "Configuration accessed: " ++ fullCall methodCall;
      location := "Usage point" |}]
  ++ match definition methodInfo with
     | Some d =>
         if String.eqb d "" then []
         else [{| step := 2;
                  description := "Resolved to method: " ++ d;
                  location := match source methodInfo with
                              | Some s => s
                              | None => "null"
                              end |}]
     | None => []
     end
  ++ (if isDatabase then
        {| step := 3;
           description := "Data loaded from database";
           location := match tableName_ with
                       | Some t => if String.eqb t "" then "Database table" else t
                       | None => "Database table"
                       end |}
        :: match sqlQuery_ with
           | Some q =>
               if String.eqb q "" then []
               else [{| step := 4;
                        description := "SQL Query: " ++ q;
                        location := "Database query" |}]
           | None => []
           end
      else []).

(** The first of the three SQL patterns that matches the body gives
    the query. *)
Definition findSqlQuery (body_ : string) : option string :=
  let try_ (p : string) :=
    match matchTexts flagI (lit p) body_ with
    | m :: _ => Some (trim (replace noFlags (lit reOuterQuotes) "" m))
    | [] => None
    end in
  match try_ reSqlDouble with
  | Some q => Some q
  | None => match try_ reSqlSingle with
            | Some q => Some q
            | None => try_ reSqlBare
            end
  end.

(** [traceConfigurationMethod]; [None] is [null]. *)
Definition traceConfigurationMethod (methodCall : MethodCall)
           (methodInfo : MethodInfo) : option ConfigInfo :=
  match body methodInfo with
  | None => None
  | Some body_ =>
      if String.eqb body_ "" then None
      else
        (* SQL queries in the method body *)
        let sqlQuery_ := findSqlQuery body_ in
        let dataSource_ := match sqlQuery_ with
                           | Some _ => Some "database"
                           | None => None
                           end in
        (* jdbcTemplate usage *)
        let usesJdbc := includes body_ "jdbcTemplate" in
        let dataSource_ := if usesJdbc then Some "database" else dataSource_ in
        let tableName_ :=
          if usesJdbc then
            match sqlQuery_ with
            | Some q =>
                if String.eqb q "" then None
                else match exec flagI (lit reFrom) q with
                     | Some m => group m 1
                     | None => None
                     end
            | None => None
            end
          else None in
        Some {| configMethod := fullCall methodCall;
                configSource := source methodInfo;
                dataSource := dataSource_;
                sqlQuery := sqlQuery_;
                tableName := tableName_;
                populationSteps :=
                  buildConfigurationSteps methodCall methodInfo dataSource_
                                          sqlQuery_ tableName_ |}
  end.

(** The configuration part of [traceDependencies]: every method call
    of the statement is resolved and, when it is a configuration
    method, traced.  The entries are stored under the call object used
    as a property name, which is the same text for every call. *)
Definition objectKey : string := "[object Object]".

Definition assign {A : Type} (key : string) (v : A) (o : list (string * A))
  : list (string * A) :=
  if existsb (fun e => String.eqb (fst e) key) o
  then map (fun e => if String.eqb (fst e) key then (key, v) else e) o
  else o ++ [(key, v)].

Fixpoint traceConfigurations (methodCalls : list MethodCall)
         (sourceFiles : list SourceFile) (acc : list (string * ConfigInfo))
  : exn (list (string * ConfigInfo)) :=
  match methodCalls with
  | [] => Return acc
  | methodCall :: tl =>
      match resolveMethodCall methodCall sourceFiles with
      | Throw e => Throw e
      | Return methodInfo =>
          if isConfigurationMethod methodCall then
            match traceConfigurationMethod methodCall methodInfo with
            | Some configInfo =>
                traceConfigurations tl sourceFiles (assign objectKey configInfo acc)
            | None => traceConfigurations tl sourceFiles acc
            end
          else traceConfigurations tl sourceFiles acc
      end
  end.

Definition configurationsOf (statement : string) (sourceFiles : list SourceFile)
  : exn (list (string * ConfigInfo)) :=
  traceConfigurations (parseMethodCalls statement) sourceFiles [].

End CodeTraversal.

(* ===================================================================== *)
(** * The issue finder ([EnhancedIssueFinder]): configuration references *)
(* ===================================================================== *)

Module EnhancedIssueFinder.
Import JsString JsRegExp JsPattern.

(** The literals of [extractErrorCodes], [extractConfigurationReferences],
    [extractSqlQuery] and [traceConfigurationReference]. *)
Definition reErrorCode : string := "\b[A-Z]+ERROR-\d+\b|\b[A-Z]+ERR-\d+\b".
Definition reConfigReference : string := "\b(ConfigStore|Const)\.\w+".
Definition reSqlDouble : string := (DQ ++ "(SELECT[\s\S]*?)" ++ DQ)%string.
Definition reSqlSingle : string := "'(SELECT[\s\S]*?)'".
Definition reSqlBare : string := ("SELECT[\s\S]*?(?=" ++ DQ ++ "|'|;|\))")%string.
Definition reOuterQuotes : string := ("^[" ++ DQ ++ "']|[" ++ DQ ++ "']$")%string.
Definition reFrom : string := "FROM\s+(\w+)".

Definition literals : list string :=
  [ reErrorCode; reConfigReference; reSqlDouble; reSqlSingle; reSqlBare;
    reOuterQuotes; reFrom ].

(** The [analysis] object of [traceConfigurationReference]; [None] is
    [null], or for [tableName] a property that was never set. *)
Record ConfigAnalysis : Type :=
  { reference : string;
    populationMethod : option string;
    dataSource : option string;
    sqlQuery : option string;
    tableName : option string;
    steps : list CodeTraversal.TraceStep }.

(** The object itself, property by property: the five properties of
    the literal and [tableName] when it was set. *)
Definition asObject (a : ConfigAnalysis) : JsValue.value :=
  JsValue.VObject
    ([ ("reference", JsValue.VString (reference a));
       ("populationMethod", JsValue.ofOption (populationMethod a));
       ("dataSource", JsValue.ofOption (dataSource a));
       ("sqlQuery", JsValue.ofOption (sqlQuery a));
       ("steps",
        JsValue.VArray
          (map (fun s =>
                  JsValue.VObject
                    [ ("step", JsValue.VNumber (Z.of_nat (CodeTraversal.step s)));
                      ("description",
                       JsValue.VString (CodeTraversal.description s));
                      ("location", JsValue.VString (CodeTraversal.location s)) ])
               (steps a))) ]
     ++ match tableName a with
        | Some t => [("tableName", JsValue.VString t)]
        | None => []
        end).

Definition extractErrorCodes (snippet : string) : list string :=
  matchTexts noFlags (lit reErrorCode) snippet.

Definition extractConfigurationReferences (snippet : string) : list string :=
  matchTexts noFlags (lit reConfigReference) snippet.

(** [extractMethodBody]: the same loop as in [CodeTraversalEngine]. *)
Definition extractMethodBody (content_ : string) (startIndex : nat) : string :=
  ofChars (CodeTraversal.methodBodyLoop (chars (drop startIndex content_)) 0 false).

(** [extractSqlQuery]: the first of the three patterns that matches
    gives the query; [None] is [null]. *)
Definition extractSqlQuery (methodBody : string) : option string :=
  let try_ (p : string) :=
    match matchTexts flagI (lit p) methodBody with
    | m :: _ => Some (trim (replace noFlags (lit reOuterQuotes) "" m))
    | [] => None
    end in
  match try_ reSqlDouble with
  | Some q => Some q
  | None => match try_ reSqlSingle with
            | Some q => Some q
            | None => try_ reSqlBare
            end
  end.

(** A text that is not [null] and not empty. *)
Definition truthy (o : option string) : bool :=
  match o with
  | Some s => negb (String.eqb s "")
  | None => false
  end.

(** [buildConfigurationTraceSteps] *)
Definition buildConfigurationTraceSteps (configRef : string)
           (populationMethod_ dataSource_ sqlQuery_ tableName_ : option string)
  : list CodeTraversal.TraceStep :=
  let text (o : option string) := match o with Some s => s | None => "" end in
  [{| CodeTraversal.step := 1;
      CodeTraversal.description := "Configuration accessed: " ++ configRef;
      CodeTraversal.location := "Code usage point" |}]
  ++ (if truthy populationMethod_ then
        [{| CodeTraversal.step := 2;
            CodeTraversal.description :=
              "Populated by method containing: " ++ text populationMethod_;
            CodeTraversal.location := "Population method" |}]
      else [])
  ++ (match dataSource_ with
      | Some "database" =>
          {| CodeTraversal.step := 3;
             CodeTraversal.description :=
               "Data loaded from database table: "
               ++ (if truthy tableName_ then text tableName_ else "Unknown table");
             CodeTraversal.location := "Database" |}
          :: (if truthy sqlQuery_ then
                [{| CodeTraversal.step := 4;
                    CodeTraversal.description :=
                      "SQL Query executed: " ++ text sqlQuery_;
                    CodeTraversal.location := "Database query" |}]
              else [])
      | _ => []
      end).

(** What [traceConfigurationReference] returns once a pattern has
    matched in a file: [found] is [match[0]]. *)
Definition analysisFor (configRef content_ found : string) : ConfigAnalysis :=
  (* the method body; [indexOf] finds the matched text *)
  let methodStart := match indexOf content_ found with
                     | Some i => i
                     | None => 0
                     end in
  let methodBody := extractMethodBody content_ methodStart in
  (* SQL queries *)
  let extracted := extractSqlQuery methodBody in
  let sqlQuery_ := if truthy extracted then extracted else None in
  let dataSource_ := if truthy extracted then Some "database" else None in
  (* the table name *)
  let tableName_ :=
    match sqlQuery_ with
    | Some q => match exec flagI (lit reFrom) q with
                | Some m => group m 1
                | None => None
                end
    | None => None
    end in
  {| reference := configRef;
     populationMethod := Some found;
     dataSource := dataSource_;
     sqlQuery := sqlQuery_;
     tableName := tableName_;
     steps := buildConfigurationTraceSteps configRef (Some found) dataSource_
                                           sqlQuery_ tableName_ |}.

(** [populatePatterns], with the flags of each; [None] when a
    constructor throws. *)
Definition populatePatterns (propertyName : string)
  : option (list (flags * regex)) :=
  match parse ("populate.*" ++ propertyName ++ ".*\("),
        parse (propertyName ++ "\s*="),
        parse ("\.(" ++ propertyName ++ ")\s*=") with
  | Some r1, Some r2, Some r3 => Some [(flagI, r1); (flagM, r2); (flagM, r3)]
  | _, _, _ => None
  end.

(** The first pattern that matches the content, with [match[0]]. *)
Fixpoint firstPopulation (patterns : list (flags * regex)) (content_ : string)
  : option string :=
  match patterns with
  | [] => None
  | (fl, r) :: tl =>
      match matchTexts fl r content_ with
      | found :: _ => Some found
      | [] => firstPopulation tl content_
      end
  end.

(** The loop over the source files. *)
Fixpoint traceIn (configRef : string) (patterns : list (flags * regex))
         (sourceFiles : list CodeTraversal.SourceFile) : option ConfigAnalysis :=
  match sourceFiles with
  | [] => None
  | file_ :: tl =>
      match firstPopulation patterns (CodeTraversal.content file_) with
      | Some found =>
          Some (analysisFor configRef (CodeTraversal.content file_) found)
      | None => traceIn configRef patterns tl
      end
  end.

(** [traceConfigurationReference]; [Return None] is [null] and [Throw]
    the [SyntaxError] of a pattern constructor, which runs once per
    source file. *)
Definition traceConfigurationReference (configRef : string)
           (sourceFiles : list CodeTraversal.SourceFile)
  : exn (option ConfigAnalysis) :=
  (* the property name *)
  let parts := splitChar "." configRef in
  let propertyName := last parts "" in
  match sourceFiles with
  | [] => Return None
  | _ :: _ =>
      match populatePatterns propertyName with
      | Some patterns => Return (traceIn configRef patterns sourceFiles)
      | None => Throw "Invalid regular expression"
      end
  end.

(** The loop of [performTraversalAnalysis] over the configuration
    references: [analysis.configurations[configRef] = configAnalysis].
    An error thrown inside is caught by the method and becomes
    [analysis.error], the second component. *)
Fixpoint traceReferences (configRefs : list string)
         (sourceFiles : list CodeTraversal.SourceFile)
         (configurations : list (string * ConfigAnalysis))
  : list (string * ConfigAnalysis) * option string :=
  match configRefs with
  | [] => (configurations, None)
  | configRef :: tl =>
      match traceConfigurationReference configRef sourceFiles with
      | Throw e => (configurations, Some e)
      | Return (Some configAnalysis) =>
          traceReferences tl sourceFiles
                          (CodeTraversal.assign configRef configAnalysis
                                                configurations)
      | Return None => traceReferences tl sourceFiles configurations
      end
  end.

(** The configurations [performTraversalAnalysis] records for a
    snippet without error codes (with error codes the engine's
    [analyzeErrorCode] runs first). *)
Definition configurationsOf (snippet : string)
           (sourceFiles : list CodeTraversal.SourceFile)
  : list (string * ConfigAnalysis) * option string :=
  traceReferences (extractConfigurationReferences snippet) sourceFiles [].

End EnhancedIssueFinder.

(* ===================================================================== *)
(** * The allow-listed walker ([RobustSearchEngine.getAllFilesSync]) *)
(* ===================================================================== *)

Module RobustSearch.
Import JsString.
Local Open Scope engine_scope.

Record SyncEntry : Type :=
  { syncPath : string; syncRelativePath : string; syncName : string;
    syncExtension : string; syncDirectory : string }.

Definition skipDirs : list string :=
  [ "node_modules"; ".git"; ".svn"; ".hg"; "target"; "build"; "dist";
    "bin"; "obj"; ".vscode"; ".idea"; "__pycache__"; ".gradle";
    "vendor"; "coverage"; ".nyc_output"; "logs"; ".next"; "out";
    "tmp"; "temp"; ".cache"; ".pytest_cache"; ".mypy_cache";
    "bower_components"; "jspm_packages"; ".meteor"; ".sass-cache" ].

Section Walker.
Variable rt : Runtime.
(** [config.files.allowedPaths] *)
Variable allowedPaths : list string.

(** The allow-list test at the head of [getAllFilesSync]. *)
Definition isAllowed (dirPath : string) : bool :=
  existsb (fun allowedPath =>
             let resolvedAllowed := pathResolve rt allowedPath in
             let resolvedTarget := pathResolve rt dirPath in
             startsWith resolvedTarget resolvedAllowed)
          allowedPaths.

(** [getAllFilesSync(dirPath, maxDepth, currentDepth)]; [fuel] bounds
    the nesting and starts at [maxDepth]. *)
Fixpoint getAllFilesSyncAt (fuel : nat) (dirPath : string)
         (maxDepth currentDepth : nat) {struct fuel} : M (list SyncEntry) :=
  tryCatch
    ((* the path must be in the allowed directories *)
     if negb (isAllowed dirPath) then
       tell (errorStat ("Directory not in allowed paths: " ++ dirPath)) ;;; ret []
     else if negb (existsSync rt dirPath) then
       tell (errorStat ("Directory does not exist: " ++ dirPath)) ;;; ret []
     else
       kind <- orThrow (lstat rt dirPath) "lstat failed" ;;
       if negb (isDirectory kind) then
         tell (errorStat ("Path is not a directory: " ++ dirPath)) ;;; ret []
       else if maxDepth <=? currentDepth then ret []
       else
         match readdir rt dirPath with
         | None =>
             tell (errorStat ("Cannot read directory: " ++ dirPath)) ;;; ret []
         | Some entries =>
             match fuel with
             | 0 => ret []
             | S fuel' =>
                 forEachM
                   (fun entry =>
                      let fullPath := PosixPath.join dirPath (d_name entry) in
                      tryCatch
                        (if isDirectory (d_kind entry) then
                           if startsWith (d_name entry) "."
                              && negb (String.eqb (d_name entry) ".")
                           then ret []
                           else if JsArray.includes skipDirs
                                     (toLowerCase (d_name entry))
                           then ret []
                           else getAllFilesSyncAt fuel' fullPath maxDepth
                                                  (S currentDepth)
                         else if isFile (d_kind entry) then
                           ret [{| syncPath := fullPath;
                                   syncRelativePath :=
                                     PosixPath.relative dirPath fullPath;
                                   syncName := d_name entry;
                                   syncExtension :=
                                     toLowerCase (PosixPath.extname (d_name entry));
                                   syncDirectory := PosixPath.dirname fullPath |}]
                         else ret [])
                        (fun _ =>
                           tell (errorStat ("Error processing entry: " ++ fullPath)) ;;;
                           ret []))
                   entries
             end
         end)
    (fun _ =>
       tell (errorStat ("Fatal error in directory: " ++ dirPath)) ;;; ret []).

Definition getAllFilesSync (dirPath : string) (maxDepth : nat)
  : M (list SyncEntry) :=
  getAllFilesSyncAt maxDepth dirPath maxDepth 0.

End Walker.
End RobustSearch.

(* ===================================================================== *)
(** * Scenarios: explicit inputs on which the model is run *)
(* ===================================================================== *)

Module Scenario.
Import JsString JsValue Fixture SmartSearch.

(** A file system without any directory. *)
Definition emptyFs : Runtime := memFs [] [].

(** Two search roots that each hold a file [x.js] with the same first
    line. *)
Definition twoRoots : Runtime :=
  memFs [ ("/srv/a", [fil "x.js"]); ("/srv/b", [fil "x.js"]) ]
        [ ("/srv/a/x.js", "foo"); ("/srv/b/x.js", "foo") ].

(** One root with a file at each of three depths, and directories the
    walker skips. *)
Definition deepTree : Runtime :=
  memFs [ ("/srv/a", [fil "top.js"; dir "lib"; dir "node_modules"; dir ".git"]);
          ("/srv/a/lib", [fil "mid.js"; dir "util"]);
          ("/srv/a/lib/util", [fil "low.js"]);
          ("/srv/a/node_modules", [fil "dep.js"]);
          ("/srv/a/.git", [fil "config"]) ]
        [ ("/srv/a/top.js", "foo(1)"); ("/srv/a/lib/mid.js", "foo(2)");
          ("/srv/a/lib/util/low.js", "foo(3)");
          ("/srv/a/node_modules/dep.js", "foo(4)"); ("/srv/a/.git/config", "foo") ].

(** An engine that works in batches of one file. *)
Definition oneByOne : Settings :=
  {| maxFileSize := 50 * 1024 * 1024; maxDepth := 30;
     maxFilesToProcess := 20 * 1000; maxResults := 500; batchSize := 1 |}.

(** The same, with an engine-wide result ceiling of one. *)
Definition stopAtOne : Settings :=
  {| maxFileSize := 50 * 1024 * 1024; maxDepth := 30;
     maxFilesToProcess := 20 * 1000; maxResults := 1; batchSize := 1 |}.

(** The response of a search, an empty one when it throws. *)
Definition responseOf (m : M SearchResponse) : SearchResponse :=
  match fst m with
  | Return r => r
  | Throw _ =>
      {| query := ""; searchPaths := []; results := [];
         summary := {| totalFiles := 0; filteredFiles := 0;
                       summaryProcessedFiles := 0; matchCount := None;
                       summaryErrors := []; message := None |} |}
  end.

(** The number of files a search reports as processed. *)
Definition processedOf (m : M SearchResponse) : nat :=
  match fst m with
  | Return r => summaryProcessedFiles (summary r)
  | Throw _ => 0
  end.

Definition atMost (n : nat) : SearchOptions :=
  {| optFileTypes := None; optMaxResults := Some n; optMaxFiles := None;
     optCaseSensitive := None; optContextLines := None;
     optExcludePatterns := [] |}.

(** The response of a search, or an empty one when it throws. *)
Definition resultsOf (m : M SearchResponse) : list SearchResult :=
  match fst m with
  | Return r => results r
  | Throw _ => []
  end.

(** A path of 4097 code units that contains [..]. *)
Definition longTraversal : string := (repeat "a" 4095 ++ "..")%string.

(** The source tree of the configuration scenario: a population
    method whose body runs a query on [PLAN_TABLE]. *)
Definition configLoader : string :=
  ("public class ConfigLoader {" ++ NL ++
   "  public void populateColPlanList() {" ++ NL ++
   "    List rows = jdbcTemplate.query(" ++ DQ ++ "SELECT * FROM PLAN_TABLE" ++ DQ
     ++ ");" ++ NL ++
   "    ConfigStore.colPlanList.addAll(rows);" ++ NL ++
   "  }" ++ NL ++
   "}")%string.

Definition configTree : Runtime :=
  memFs [ ("/srv/app", [fil "ConfigLoader.java"]) ]
        [ ("/srv/app/ConfigLoader.java", configLoader) ].

Definition configSnippet : string := "if (!ConfigStore.colPlanList.contains(x))".

(** The source files of the tree, as the issue finder reads them. *)
Definition configSources : list CodeTraversal.SourceFile :=
  [{| CodeTraversal.sourcePath := "/srv/app/ConfigLoader.java";
      CodeTraversal.content := configLoader |}].

Definition dependenciesOf (m : M TraversalAnalyzer.Analysis) : list value :=
  match fst m with
  | Return a => TraversalAnalyzer.dependencies a
  | Throw _ => []
  end.

(** The dependencies the resolver records for the scenario. *)
Definition configDependencies : list value :=
  dependenciesOf
    (TraversalAnalyzer.analyzeWithTraversal
       configTree defaultSettings configSnippet "PlanCheck.java"
       "/srv/app").

(** A dependency as the specification describes it: of type
    [configuration_source], with some property holding the table name
    [PLAN_TABLE] and some property holding a chain of at least three
    steps. *)
Definition resolvesPlanTable (d : value) : bool :=
  isString (get d "type") "configuration_source"
  && existsb (fun k => isString (get d k) "PLAN_TABLE") (keys d)
  && existsb (fun k => 3 <=? arrayLength (get d k)) (keys d).

(** The configuration records of the issue finder for the scenario,
    as objects. *)
Definition configRecords : list value :=
  map (fun e => EnhancedIssueFinder.asObject (snd e))
      (fst (EnhancedIssueFinder.configurationsOf configSnippet configSources)).

(** What the resolver does record: the query text. *)
Definition recordsPlanQuery (d : value) : bool :=
  isString (get d "type") "configuration_source"
  && isString (get d "name") "ConfigStore.colPlanList"
  && isString (get d "sqlQuery") "SELECT * FROM PLAN_TABLE".

End Scenario.

(* ===================================================================== *)
(** * Notions used to state the properties *)
(* ===================================================================== *)

Module Notions.
Import JsString SmartSearch.

(** A computation returns: it does not throw. *)
Definition returns {A : Type} (m : M A) : Prop := exists a, fst m = Return a.

(** The value of a computation that yields a list, empty when it
    throws. *)
Definition listOf {A : Type} (m : M (list A)) : list A :=
  match fst m with
  | Return l => l
  | Throw _ => []
  end.

(** Number of separators in a relative path: the directory levels
    between the walk root and the file. *)
Fixpoint countChar (c : ascii) (s : string) : nat :=
  match s with
  | EmptyString => 0
  | String d s' => (if Ascii.eqb c d then 1 else 0) + countChar c s'
  end.

Definition levels (relative : string) : nat := countChar PosixPath.sep relative.

(** Entry names, as a file system lists them, contain no separator. *)
Definition plainNames (rt : Runtime) : Prop :=
  forall p entries e,
    readdir rt p = Some entries -> In e entries ->
    includes (d_name e) "/" = false.

(** Every index at which [p] starts in [s], in ascending order,
    counting from [k]. *)
Fixpoint occurrencesFrom (s p : string) (k : nat) : list nat :=
  (if startsWith s p then [k] else [])
  ++ match s with
     | EmptyString => []
     | String _ s' => occurrencesFrom s' p (S k)
     end.

Definition occurrences (s p : string) : list nat := occurrencesFrom s p 0.

(** The order of the final result list: score descending, then file
    path ascending in the order of [localeCompare]. *)
Definition inOrder (rt : Runtime) (a b : SearchResult) : Prop :=
  (score b < score a)%Z
  \/ (score a = score b /\ (localeCompare rt (file a) (file b) <= 0)%Z).

(** [localeCompare] orders any two strings one way or the other. *)
Definition totalOrder (rt : Runtime) : Prop :=
  forall a b, (0 < localeCompare rt a b)%Z -> (localeCompare rt b a <= 0)%Z.

(** The files a search discovers under its roots, before the limit on
    their number: the value of [allFiles] in [smartSearch]. *)
Definition discovered (rt : Runtime) (settings : Settings)
           (paths : list string) (options : SearchOptions) : list FileEntry :=
  listOf (forEachM (validFilesOf rt settings
                                 (orDefault (optFileTypes options) ["all"])
                                 (optExcludePatterns options))
                   paths).

(** A line-keyed map of matches: the keys are distinct and every
    match is stored under its own line. *)
Definition keyed (m : list (nat * Match)) : Prop :=
  NoDup (map fst m) /\ Forall (fun e => line (snd e) = fst e) m.

(** The queries the strategies of a trace can issue for a log: the key
    phrases, the light and the moderate normal form, the long
    sub-phrases of the moderate form, and the error-type tokens. *)
Definition strategyQueries (log : string) : list string :=
  let moderateNormalized := LogNormalizer.normalizeLogText log "moderate" in
  LogTracer.extractKeyPhrases log
  ++ [LogNormalizer.normalizeLogText log "light"]
  ++ [moderateNormalized]
  ++ map trim
         (filter (fun phrase => 10 <? String.length phrase)
                 (JsRegExp.split JsPattern.noFlags (JsPattern.lit "[:\-|]")
                                 moderateNormalized))
  ++ LogTracer.extractErrorTypes log.

(** A traversal path revisits: it has more entries than unique files
    in it. *)
Definition revisits (path : list TraversalAnalyzer.PathEntry) : Prop :=
  List.length (TraversalAnalyzer.uniqueFiles
                 (map TraversalAnalyzer.visitedFile path))
  < List.length path.

(** The traversal a step leaves behind, whether it returns or throws. *)
Definition after {A : Type} (m : TraversalAnalyzer.T A)
           (t : TraversalAnalyzer.Traversal) : TraversalAnalyzer.Traversal :=
  snd (fst (m t)).

(** Two traversals with the same visited-file set, the same traversal
    path and the same recommendations. *)
Definition untouched (t t' : TraversalAnalyzer.Traversal) : Prop :=
  TraversalAnalyzer.visitedFiles t' = TraversalAnalyzer.visitedFiles t
  /\ TraversalAnalyzer.traversalPath (TraversalAnalyzer.analysis t')
     = TraversalAnalyzer.traversalPath (TraversalAnalyzer.analysis t)
  /\ TraversalAnalyzer.recommendations (TraversalAnalyzer.analysis t')
     = TraversalAnalyzer.recommendations (TraversalAnalyzer.analysis t).

(** A step that only records dependencies. *)
Definition keepsPath {A : Type} (m : TraversalAnalyzer.T A) : Prop :=
  forall t, untouched t (after m t).

(** The validation of the target of a symbolic link: the nested call
    of [validatePath] in step 6. *)
Definition targetValidation (rt : Runtime) (target : string)
  : PathSecurity.validation :=
  fst (PathSecurity.validatePathAt rt (frames rt) target []).

(** The target of a path that is a symbolic link, when it resolves. *)
Definition linkTarget (rt : Runtime) (absolutePath : string) : option string :=
  match lstat rt absolutePath with
  | Some KSymlink => realpath rt absolutePath
  | _ => None
  end.

(** File type names the type tables can be read at: [all] is among
    them, or none of them is a name that object literals inherit from
    [Object.prototype]. *)
Definition plainTypes (types : list string) : bool :=
  JsArray.includes types "all"
  || forallb (fun type => negb (JsArray.includes objectPrototypeKeys type)) types.

(** The file types a search runs with. *)
Definition typesOf (options : SearchOptions) : list string :=
  orDefault (optFileTypes options) ["all"].

(** A query of a trace that finds nothing. *)
Definition silent (rt : Runtime) (settings : Settings) (paths : list string)
           (options : SearchOptions) (query_ : string) : Prop :=
  forall response,
    fst (smartSearch rt settings query_ paths (LogTracer.traceOptions options))
    = Return response ->
    results response = [].

(** The pair that identifies a match: file and line. *)
Definition keyOf (r : SearchResult) : string * nat := (file r, lineOf r).

(** The result ceiling a search runs with. *)
Definition ceiling (settings : Settings) (options : SearchOptions) : nat :=
  orDefault (optMaxResults options) (maxResults settings).

End Notions.

(* ===================================================================== *)
(** * Objects used as tables, and [Map]s with text keys *)
(* ===================================================================== *)

Module JsObject.

(** [o[key] = (o[key] || 0) + 1] on an object used as a table of
    counters, for keys that are no property of [Object.prototype]. *)
Fixpoint increment (key : string) (o : list (string * nat)) : list (string * nat) :=
  match o with
  | [] => [(key, 1)]
  | (k, n) :: tl =>
      if String.eqb k key then (k, n + 1) :: tl else (k, n) :: increment key tl
  end.

(** The sum of the counters of a table. *)
Definition total (o : list (string * nat)) : nat :=
  fold_right (fun e s => snd e + s) 0 o.

(** [m.set(key, value)] on a [Map]: a known key keeps its place. *)
Fixpoint mapSet {A : Type} (key : string) (value : A) (m : list (string * A))
  : list (string * A) :=
  match m with
  | [] => [(key, value)]
  | (k, v) :: tl =>
      if String.eqb k key then (k, value) :: tl else (k, v) :: mapSet key value tl
  end.

(** [m.get(key)]; [None] is [undefined]. *)
Fixpoint mapGet {A : Type} (key : string) (m : list (string * A)) : option A :=
  match m with
  | [] => None
  | (k, v) :: tl => if String.eqb k key then Some v else mapGet key tl
  end.

(** [m.delete(key)] *)
Definition mapDelete {A : Type} (key : string) (m : list (string * A))
  : list (string * A) :=
  filter (fun e => negb (String.eqb (fst e) key)) m.

End JsObject.

(* ===================================================================== *)
(** * The issue-tracker helper ([JiraIntegrationHelper]) *)
(* ===================================================================== *)

Module JiraIntegration.
Import JsString JsRegExp JsPattern JsObject.

(** The parts of an analysis result the helper reads; a property that
    is absent is [None], and a present one has the type the producers
    of analysis results give it. *)
Record Recommendation : Type :=
  { priority : option string; title : option string;
    recommendationType : option string }.

Record ResolvedArray : Type := { arrayType : option string }.

Record AnalysisDetails : Type :=
  { recommendations : option (list Recommendation);
    dependencies : option (list JsValue.value) }.

Record Resolved : Type := { arrays : option (list ResolvedArray) }.

Record AnalysisResult : Type :=
  { explanation : option string;
    file : option string;
    language : option string;
    analysis : option AnalysisDetails;
    resolved : option Resolved }.

(** [x || ''] *)
Definition orEmpty (o : option string) : string :=
  match o with Some s => s | None => "" end.

(** The truth value of a text property: absent and empty are falsy. *)
Definition truthy (o : option string) : bool :=
  match o with Some s => negb (String.eqb s "") | None => false end.

(** [x === 'text'] *)
Definition is_ (o : option string) (s : string) : bool :=
  match o with Some t => String.eqb t s | None => false end.

(** [analysisResult.analysis?.recommendations] *)
Definition recommendationsOf (analysisResult : AnalysisResult)
  : option (list Recommendation) :=
  match analysis analysisResult with
  | Some a => recommendations a
  | None => None
  end.

(** [x?.length || 0] *)
Definition lengthOr0 {A : Type} (o : option (list A)) : nat :=
  match o with Some l => List.length l | None => 0 end.

Definition highPriorityKeywords : list string :=
  [ "exception"; "error"; "crash"; "failure"; "null pointer"; "security";
    "authentication"; "authorization"; "database"; "connection"; "timeout";
    "production"; "critical"; "billing"; "payment" ].

Definition determinePriority (analysisResult : AnalysisResult) : string :=
  let explanation_ := toLowerCase (orEmpty (explanation analysisResult)) in
  let hasHighPriority :=
    existsb (fun keyword => includes explanation_ keyword) highPriorityKeywords in
  if hasHighPriority then "High"
  (* recommendations priority *)
  else if match recommendationsOf analysisResult with
          | Some rs => existsb (fun r => is_ (priority r) "high") rs
          | None => false
          end
  then "High"
  (* medium priority for general code issues *)
  else if truthy (explanation analysisResult) then "Medium"
  else "Low".

Definition determineIssueType (analysisResult : AnalysisResult) : string :=
  let explanation_ := toLowerCase (orEmpty (explanation analysisResult)) in
  if includes explanation_ "exception" || includes explanation_ "error"
     || includes explanation_ "crash" || includes explanation_ "fail"
  then "Problem"
  else if includes explanation_ "performance"
          || includes explanation_ "optimization"
          || includes explanation_ "improvement"
  then "Improvement"
  else if includes explanation_ "feature" || includes explanation_ "enhancement"
  then "Change Request"
  else "Problem".

Definition label (b : bool) (l : string) : list string := if b then [l] else [].

Definition generateLabels (analysisResult : AnalysisResult) : list string :=
  let labels :=
    (* language-based labels *)
    label (truthy (language analysisResult))
          (toLowerCase (orEmpty (language analysisResult)))
    (* analysis type labels *)
    ++ ["code-analysis"; "automated"]
    (* issue type labels *)
    ++ (if truthy (explanation analysisResult) then
          let explanation_ := toLowerCase (orEmpty (explanation analysisResult)) in
          label (includes explanation_ "null") "null-pointer"
          ++ label (includes explanation_ "validation") "validation"
          ++ label (includes explanation_ "database") "database"
          ++ label (includes explanation_ "configuration") "configuration"
          ++ label (includes explanation_ "authentication") "auth"
          ++ label (includes explanation_ "performance") "performance"
          ++ label (includes explanation_ "exception") "exception"
          ++ label (includes explanation_ "error") "error"
        else [])
    (* technical context labels *)
    ++ label (match resolved analysisResult with
              | Some r =>
                  match arrays r with
                  | Some l => existsb (fun a => is_ (arrayType a) "database") l
                  | None => false
                  end
              | None => false
              end)
             "database-related" in
  JsArray.slice labels 0 10.

Definition reSentenceEnd : string := "[.!?]".

(** [extractMainIssue]; [sentences[0]] of an empty array would be
    [undefined] and its [trim] a [TypeError]. *)
Definition extractMainIssue (explanation_ : string) : exn string :=
  match split noFlags (lit reSentenceEnd) explanation_ with
  | [] => Throw "Cannot read properties of undefined (reading 'trim')"
  | first :: _ =>
      let mainIssue := trim first in
      Return (if 50 <? String.length mainIssue
              then (take 50 mainIssue ++ "...")%string
              else mainIssue)
  end.

Definition extractIssueType (analysisResult : AnalysisResult) : string :=
  let explanation_ := toLowerCase (orEmpty (explanation analysisResult)) in
  if includes explanation_ "null pointer" then "NullPointerException"
  else if includes explanation_ "validation" then "Validation Error"
  else if includes explanation_ "configuration" then "Configuration Issue"
  else if includes explanation_ "database" then "Database Error"
  else if includes explanation_ "authentication" then "Auth Error"
  else if includes explanation_ "exception" then "Exception"
  else if includes explanation_ "error" then "Error"
  else "Code Issue".

(** An entry of [analysisCache]. *)
Record StoredAnalysis : Type :=
  { result : AnalysisResult; timestamp : string; id : string }.

(** [storeAnalysis]: [id_] is the identifier the code draws from the
    clock and the random generator, [timestamp_] the time of the call.
    The result is the identifier and the cache after the call. *)
Definition storeAnalysis (id_ timestamp_ : string)
           (analysisResult : AnalysisResult)
           (analysisCache : list (string * StoredAnalysis))
  : string * list (string * StoredAnalysis) :=
  let cache :=
    mapSet id_ {| result := analysisResult; timestamp := timestamp_; id := id_ |}
           analysisCache in
  (* clean up old entries (keep last 100) *)
  let cache :=
    if 100 <? List.length cache then
      fold_left (fun c key => mapDelete key c)
                (map fst (JsArray.slice cache 0 (List.length cache - 100)))
                cache
    else cache in
  (id_, cache).

Definition getAnalysis (analysisId : string)
           (analysisCache : list (string * StoredAnalysis))
  : option StoredAnalysis :=
  mapGet analysisId analysisCache.

Record AnalysisSummary : Type :=
  { summaryFile : option string;
    summaryLanguage : option string;
    issueDetected : bool;
    issueDescription : string;
    recommendationsCount : nat;
    dependenciesFound : nat;
    shouldCreateJira : bool;
    estimatedPriority : string;
    estimatedIssueType : string }.

Definition formatAnalysisSummary (analysisResult : AnalysisResult)
  : AnalysisSummary :=
  {| summaryFile := file analysisResult;
     summaryLanguage := language analysisResult;
     issueDetected := truthy (explanation analysisResult);
     issueDescription :=
       if truthy (explanation analysisResult)
       then orEmpty (explanation analysisResult)
       else "No specific issue detected";
     recommendationsCount := lengthOr0 (recommendationsOf analysisResult);
     dependenciesFound :=
       lengthOr0 (match analysis analysisResult with
                  | Some a => dependencies a
                  | None => None
                  end);
     shouldCreateJira :=
       truthy (explanation analysisResult)
       || match recommendationsOf analysisResult with
          | Some rs => 0 <? List.length rs
          | None => false
          end;
     estimatedPriority := determinePriority analysisResult;
     estimatedIssueType := determineIssueType analysisResult |}.

End JiraIntegration.

(* ===================================================================== *)
(** * The security log ([PathSecurityValidator.getSecurityStats]) *)
(* ===================================================================== *)

Module SecurityLog.
Import JsString PathSecurity JsObject.

(** The types [validatePath] logs violations under. *)
Definition violationTypes : list string :=
  [ "TRAVERSAL_ATTEMPT"; "BLOCKED_PATH"; "SYMLINK_TO_BLOCKED" ].

Record SecurityStats : Type :=
  { totalViolations : nat;
    violationsByType : list (string * nat);
    recentViolations : list violation }.

Definition getSecurityStats (securityLog : list violation) : SecurityStats :=
  {| totalViolations := List.length securityLog;
     violationsByType :=
       fold_left (fun o v => increment (v_type v) o) securityLog [];
     recentViolations := lastN 10 securityLog |}.

(** The state of a security log the validator keeps: at most 1000
    entries, each of a known type and with a path cut to 100 code
    units. *)
Definition wellKept (securityLog : list violation) : Prop :=
  List.length securityLog <= 1000
  /\ Forall (fun v => In (v_type v) violationTypes
                      /\ String.length (v_path v) <= 100) securityLog.

End SecurityLog.

(* ===================================================================== *)
(** * The robust search engine ([RobustSearchEngine]) *)
(* ===================================================================== *)

Module RobustEngine.
Import JsString JsObject RobustSearch.
Local Open Scope engine_scope.

Definition codeExtensions : list string :=
  [ ".java"; ".class"; ".jsp"; ".jspx"; ".properties"; ".xml"; ".gradle";
    ".js"; ".ts"; ".jsx"; ".tsx"; ".json"; ".html"; ".css"; ".scss";
    ".py"; ".cpp"; ".c"; ".h"; ".hpp"; ".cs"; ".php"; ".rb"; ".go";
    ".swift"; ".kt"; ".scala"; ".rs"; ".pl"; ".r"; ".sql"; ".sh"; ".bat" ].

Definition docExtensions : list string :=
  [ ".md"; ".txt"; ".rst"; ".adoc"; ".doc"; ".docx"; ".pdf";
    ".rtf"; ".tex"; ".readme"; ".changelog"; ".license" ].

Definition javaExtensions : list string :=
  [ ".java"; ".jsp"; ".jspx"; ".properties"; ".xml"; ".gradle"; ".maven" ].

Definition shouldSearchFile (extension searchType : string) : bool :=
  if String.eqb searchType "java" then JsArray.includes javaExtensions extension
  else if String.eqb searchType "docs" then JsArray.includes docExtensions extension
  else if String.eqb searchType "code" then JsArray.includes codeExtensions extension
  else JsArray.includes codeExtensions extension
       || JsArray.includes docExtensions extension.

(** A match of [searchInFile]. *)
Record FileMatch : Type :=
  { matchFile : string; matchLine : nat; matchColumn : Z;
    matchContext : string; matchIndex : nat;
    beforeContext : string; afterContext : string }.

Record TypeCounts : Type := { code : nat; docs : nat; other : nat }.

Record DirStats : Type :=
  { statsPath : string; fileCount : nat;
    dirExtensions : list (string * nat); types : TypeCounts }.

Record DirectoryStats : Type :=
  { directories : list DirStats;
    totalFiles : nat;
    filesByExtension : list (string * nat);
    filesByType : TypeCounts;
    statsErrors : list string }.

Definition noCounts : TypeCounts := {| code := 0; docs := 0; other := 0 |}.

(** The three-way count of one file by its extension. *)
Definition countType (ext : string) (c : TypeCounts) : TypeCounts :=
  if shouldSearchFile ext "code" then
    {| code := code c + 1; docs := docs c; other := other c |}
  else if shouldSearchFile ext "docs" then
    {| code := code c; docs := docs c + 1; other := other c |}
  else {| code := code c; docs := docs c; other := other c + 1 |}.

Section Engine.
Variable rt : Runtime.
(** [config.files.allowedPaths], [config.files.maxFileSize] and
    [config.search.maxDepth] *)
Variable allowedPaths : list string.
Variable maxFileSize : Z.
Variable maxDepth : nat.
(** [fs.readFileSync(p, 'latin1')]; [None] is a thrown error. *)
Variable readFileLatin1 : string -> option string.

(** The result built for the match at [matchIndex_]. *)
Definition matchAt (filePath content query_ : string) (lines : list string)
           (matchIndex_ : nat) : FileMatch :=
  let lineNumber :=
    List.length (splitChar newline (take matchIndex_ content)) in
  let contextStart := lineNumber - 3 in
  let contextEnd := Nat.min (List.length lines) (lineNumber + 2) in
  {| matchFile := filePath;
     matchLine := lineNumber;
     matchColumn :=
       (Z.of_nat matchIndex_
        - match lastIndexOfChar (take (S matchIndex_) content) newline 0 None with
          | Some i => Z.of_nat i
          | None => -1
          end)%Z;
     matchContext := join NL (JsArray.slice lines contextStart contextEnd);
     matchIndex := matchIndex_;
     beforeContext := slice content (matchIndex_ - 100) matchIndex_;
     afterContext :=
       slice content (matchIndex_ + String.length query_)
             (matchIndex_ + String.length query_ + 100) |}.

(** The [while] loop of [searchInFile]; [remaining] is
    [maxMatches - matchCount]. *)
Fixpoint searchLoop (filePath content searchContent searchQuery query_ : string)
         (lines : list string) (remaining searchIndex : nat) : list FileMatch :=
  match remaining with
  | 0 => []
  | S remaining' =>
      if searchIndex <? String.length searchContent then
        match indexOfFrom searchContent searchQuery searchIndex with
        | None => []
        | Some matchIndex_ =>
            matchAt filePath content query_ lines matchIndex_
            :: searchLoop filePath content searchContent searchQuery query_
                          lines remaining' (matchIndex_ + String.length query_)
        end
      else []
  end.

Definition searchInFile (filePath query_ : string) (caseSensitive : bool)
           (maxMatches : nat) : M (list FileMatch) :=
  tryCatch
    (size <- orThrow (stat rt filePath) "stat failed" ;;
     if (maxFileSize <? size)%Z then tell skippedStat ;;; ret []
     else
       let search (content : string) : M (list FileMatch) :=
         let searchContent := if caseSensitive then content else toLowerCase content in
         let searchQuery := if caseSensitive then query_ else toLowerCase query_ in
         let lines := splitChar newline content in
         tell processedStat ;;;
         ret (searchLoop filePath content searchContent searchQuery query_
                         lines maxMatches 0) in
       match readFile rt filePath with
       | Some content => search content
       | None =>
           (* try with latin1 encoding *)
           match readFileLatin1 filePath with
           | Some content => search content
           | None =>
               tell (errorStat ("Cannot read file: " ++ filePath)) ;;; ret []
           end
       end)
    (fun _ => tell (errorStat ("Error searching file: " ++ filePath)) ;;; ret []).

(** The counting loop over the files of one directory. *)
Definition countFiles (files : list SyncEntry)
           (acc : list (string * nat) * TypeCounts
                  * (list (string * nat) * TypeCounts))
  : list (string * nat) * TypeCounts * (list (string * nat) * TypeCounts) :=
  fold_left
    (fun acc file_ =>
       let '(dirExts, dirTypes, (allExts, allTypes)) := acc in
       let ext := if String.eqb (syncExtension file_) "" then "no-extension"
                  else syncExtension file_ in
       (increment ext dirExts, countType ext dirTypes,
        (increment ext allExts, countType ext allTypes)))
    files acc.

Fixpoint statsLoop (paths : list string) (stats : DirectoryStats)
  : M DirectoryStats :=
  match paths with
  | [] => ret stats
  | dirPath :: tl =>
      if String.eqb dirPath "" || negb (existsSync rt dirPath) then
        statsLoop tl
          {| directories := directories stats;
             totalFiles := totalFiles stats;
             filesByExtension := filesByExtension stats;
             filesByType := filesByType stats;
             statsErrors := statsErrors stats ++ [("Invalid directory: " ++ dirPath)%string] |}
      else
        files <- getAllFilesSync rt allowedPaths dirPath maxDepth ;;
        let '(dirExts, dirTypes, (allExts, allTypes)) :=
          countFiles files ([], noCounts,
                            (filesByExtension stats, filesByType stats)) in
        statsLoop tl
          {| directories :=
               directories stats
               ++ [{| statsPath := dirPath; fileCount := List.length files;
                      dirExtensions := dirExts; types := dirTypes |}];
             totalFiles := totalFiles stats + List.length files;
             filesByExtension := allExts;
             filesByType := allTypes;
             statsErrors := statsErrors stats |}
  end.

Definition getDirectoryStats (paths : list string) : M DirectoryStats :=
  statsLoop paths
    {| directories := []; totalFiles := 0; filesByExtension := [];
       filesByType := noCounts; statsErrors := [] |}.

End Engine.
End RobustEngine.

(* ===================================================================== *)
(** * More of the code traversal engine ([CodeTraversalEngine]) *)
(* ===================================================================== *)

Module CodeTraversalEngine.
Import JsString JsRegExp JsPattern JsObject CodeTraversal.

(** A condition of [parseConditions]. *)
Record Condition : Type :=
  { conditionType : string; expression : string; negated : bool }.

(** The parts of a flow analysis [buildTraceSteps] reads. *)
Record FlowAnalysis : Type :=
  { flowLocation : string; statement : string; conditions : list Condition }.

(** A step of the trace of an analysis. *)
Record AnalysisStep : Type :=
  { stepNumber : nat; stepType : string; stepDescription : string;
    details : option string; stepLocation : option string }.

(** [config.populationSteps.map(ps => ({ ...ps, step: stepNumber++,
    type: 'configuration_trace' }))] *)
Fixpoint renumber (stepNumber_ : nat) (populationSteps_ : list TraceStep)
  : list AnalysisStep :=
  match populationSteps_ with
  | [] => []
  | ps :: tl =>
      {| stepNumber := stepNumber_; stepType := "configuration_trace";
         stepDescription := description ps; details := None;
         stepLocation := Some (location ps) |}
      :: renumber (S stepNumber_) tl
  end.

Definition buildTraceSteps (flowAnalysis : FlowAnalysis)
           (configurations : list (string * ConfigInfo)) : list AnalysisStep :=
  let stepNumber_ := 1 in
  (* error location *)
  let steps :=
    [{| stepNumber := stepNumber_; stepType := "error_location";
        stepDescription := "Error occurs at: " ++ flowLocation flowAnalysis;
        details := Some (statement flowAnalysis); stepLocation := None |}] in
  let stepNumber_ := S stepNumber_ in
  (* condition analysis *)
  let '(steps, stepNumber_) :=
    match conditions flowAnalysis with
    | c :: _ =>
        (steps ++ [{| stepNumber := stepNumber_; stepType := "condition";
                      stepDescription := "Condition that failed:";
                      details := Some (expression c); stepLocation := None |}],
         S stepNumber_)
    | [] => (steps, stepNumber_)
    end in
  (* dependency traces *)
  fst (fold_left
         (fun (acc : list AnalysisStep * nat) (entry : string * ConfigInfo) =>
            let '(steps, stepNumber_) := acc in
            (steps ++ renumber stepNumber_ (populationSteps (snd entry)),
             stepNumber_ + List.length (populationSteps (snd entry))))
         configurations (steps, stepNumber_)).

(** ** Constants ([resolveConstant]) *)

Definition reSpecial : string := "[.*+?^${}()|[\]\\]".

(** [escapeRegex] *)
Definition escapeRegex (str : string) : string :=
  replace noFlags (lit reSpecial) "\$&" str.

Record Resolution : Type :=
  { resolutionName : string; resolutionValue : option string;
    resolutionSource : option string; resolutionType : option string;
    resolutionDefinition : option string }.

(** The four declaration patterns for a constant, in source order. *)
Definition declarationPatterns (constant : string) : list string :=
  let name := escapeRegex constant in
  [ ("static\s+final\s+\w+\s+" ++ name ++ "\s*=\s*([^;]+);")%string;
    ("public\s+static\s+final\s+\w+\s+" ++ name ++ "\s*=\s*([^;]+);")%string;
    ("private\s+static\s+final\s+\w+\s+" ++ name ++ "\s*=\s*([^;]+);")%string;
    ("static\s+\w+\s+" ++ name ++ "\s*=\s*([^;]+);")%string ].

(** [new RegExp(p, 'gm')] for each pattern; [None] when a constructor
    throws. *)
Fixpoint compileAll (patterns : list string) : option (list regex) :=
  match patterns with
  | [] => Some []
  | p :: tl =>
      match parse p, compileAll tl with
      | Some r, Some rs => Some (r :: rs)
      | _, _ => None
      end
  end.

(** The first pattern that matches the content. *)
Fixpoint firstMatch (patterns : list regex) (content_ : string)
  : option matchResult :=
  match patterns with
  | [] => None
  | r :: tl =>
      match exec flagM r content_ with
      | Some m => Some m
      | None => firstMatch tl content_
      end
  end.

(** The loop over the source files; it stops at the first file that
    gives a non-empty value. *)
Fixpoint resolveInFiles (patterns : list regex) (sourceFiles : list SourceFile)
         (resolution : Resolution) : Resolution :=
  match sourceFiles with
  | [] => resolution
  | f :: tl =>
      let resolution :=
        match firstMatch patterns (content f) with
        | Some m =>
            {| resolutionName := resolutionName resolution;
               resolutionValue :=
                 Some (replace noFlags (lit reOuterQuotes) ""
                               (trim (match group m 1 with
                                      | Some g => g
                                      | None => ""
                                      end)));
               resolutionSource := Some (sourcePath f);
               resolutionType := Some "static_constant";
               resolutionDefinition := Some (trim (matched m)) |}
        | None => resolution
        end in
      match resolutionValue resolution with
      | Some v =>
          if String.eqb v "" then resolveInFiles patterns tl resolution
          else resolution
      | None => resolveInFiles patterns tl resolution
      end
  end.

(** [resolveConstant], with the [constantsMap] cache threaded through;
    [Throw] is the [SyntaxError] of a pattern constructor. *)
Definition resolveConstant (constant : string) (sourceFiles : list SourceFile)
           (constantsMap : list (string * Resolution))
  : exn (Resolution * list (string * Resolution)) :=
  (* check cache first *)
  match mapGet constant constantsMap with
  | Some cached => Return (cached, constantsMap)
  | None =>
      let resolution :=
        {| resolutionName := constant; resolutionValue := None;
           resolutionSource := None; resolutionType := None;
           resolutionDefinition := None |} in
      let finish (r : Resolution) := Return (r, mapSet constant r constantsMap) in
      match sourceFiles with
      | [] => finish resolution
      | _ =>
          match compileAll (declarationPatterns constant) with
          | Some patterns => finish (resolveInFiles patterns sourceFiles resolution)
          | None => Throw "Invalid regular expression"
          end
      end
  end.

End CodeTraversalEngine.

(* ===================================================================== *)
(** * The analysis formatter ([AnalysisFormatter]) *)
(* ===================================================================== *)

Module AnalysisFormatter.
Import JsString JsRegExp JsPattern.

(** One round of the [forEach] of [wrapText]: the lines pushed so far
    and the line being filled. *)
Definition wrapWord (width : nat) (indent : string)
           (state : list string * string) (word : string)
  : list string * string :=
  let '(lines, currentLine) := state in
  if width <? String.length (currentLine ++ word)
  then (lines ++ [currentLine], (indent ++ word)%string)
  else (lines,
        (currentLine ++ (if String.eqb currentLine indent then "" else " ")
         ++ word)%string).

(** The array [lines] of [wrapText] before it is joined. *)
Definition wrapLines (text : string) (width : nat) (indent : string)
  : list string :=
  let words := splitChar " " text in
  let '(lines, currentLine) := fold_left (wrapWord width indent) words ([], indent) in
  if String.length indent <? String.length currentLine
  then lines ++ [currentLine]
  else lines.

Definition wrapText (text : string) (width : nat) (indent : string) : string :=
  join NL (wrapLines text width indent).

Definition reHtmlSpecial : string := ("[&<>" ++ DQ ++ "']")%string.

(** [map[char]]; a character without an entry reads as [undefined]. *)
Definition htmlEntity (char : string) : string :=
  if String.eqb char "&" then "&amp;"
  else if String.eqb char "<" then "&lt;"
  else if String.eqb char ">" then "&gt;"
  else if String.eqb char DQ then "&quot;"
  else if String.eqb char "'" then "&#039;"
  else "undefined".

Definition escapeHtml (text : string) : string :=
  replaceWith noFlags (lit reHtmlSpecial) (fun m => htmlEntity (matched m)) text.

(** The characters [escapeHtml] replaces. *)
Definition htmlSpecial (c : ascii) : bool :=
  Ascii.eqb c "&" || Ascii.eqb c "<" || Ascii.eqb c ">"
  || Ascii.eqb c dquote || Ascii.eqb c "'".

End AnalysisFormatter.

(* ===================================================================== *)
(** * More notions used to state the properties *)
(* ===================================================================== *)

Module MoreNotions.
Import JsString JsObject SmartSearch LogTracer RobustEngine.

(** The order of the patterns of a file: weight descending. *)
Definition byWeight (a b : PatternInfo) : Prop := (weight b <= weight a)%Z.

(** [improve] rewrites the first entry of the key, and only its score
    and search context. *)
Definition improved (result e : SearchResult) : SearchResult :=
  if (score e <? score result)%Z
  then setContext (searchContext result) (setScore (score result) e)
  else e.

(** [unique] accounts for the results [processed] so far: every
    processed result has an entry with its key and at least its score,
    and every entry has the key and the score of a processed result. *)
Definition accounts (unique processed : list SearchResult) : Prop :=
  (forall r, In r processed ->
             exists e, In e unique /\ resultKey e = resultKey r
                       /\ (score r <= score e)%Z)
  /\ (forall e, In e unique ->
                exists r, In r processed /\ resultKey r = resultKey e
                          /\ score r = score e).

Definition dedupStep (acc : list string * list SearchResult)
           (result : SearchResult) : list string * list SearchResult :=
  let '(seen, unique) := acc in
  let key := resultKey result in
  if JsArray.includes seen key
  then (seen, improve key result unique)
  else (seen ++ [key], unique ++ [result]).

(** What a search reads of a file: the text of either encoding. *)
Definition readable (rt : Runtime) (readFileLatin1 : string -> option string)
           (filePath content : string) : Prop :=
  readFile rt filePath = Some content
  \/ (readFile rt filePath = None /\ readFileLatin1 filePath = Some content).

(** The counters of the statistics: files counted by type and by
    extension. *)
Definition sumTypes (c : TypeCounts) : nat := code c + docs c + other c.

(** The invariant of the statistics loop. *)
Definition addsUp (stats : DirectoryStats) : Prop :=
  totalFiles stats = list_sum (map fileCount (directories stats))
  /\ sumTypes (filesByType stats) = totalFiles stats
  /\ total (filesByExtension stats) = totalFiles stats
  /\ Forall (fun d => sumTypes (types d) = fileCount d
                      /\ total (dirExtensions d) = fileCount d)
            (directories stats).

(** Opening braces minus closing braces. *)
Fixpoint braceBalance (l : list ascii) : Z :=
  match l with
  | [] => 0
  | c :: tl =>
      ((if Ascii.eqb c "{" then 1 else if Ascii.eqb c "}" then -1 else 0)
       + braceBalance tl)%Z
  end.

(** A text with every code unit of a class replaced: what a global
    [replace] with a one-character class pattern computes. *)
Fixpoint replaceEach (inClass : ascii -> bool) (replacement : string -> string)
         (l : list ascii) : string :=
  match l with
  | [] => ""
  | c :: tl =>
      ((if inClass c then replacement (String c "") else String c "")
       ++ replaceEach inClass replacement tl)%string
  end.

(** The characters [escapeRegex] puts a backslash before. *)
Definition regexSpecial (c : ascii) : bool :=
  existsb (Ascii.eqb c) (chars ".*+?^${}()|[]\").

(** Reading an escaped text back: a backslash stands for the character
    after it. *)
Fixpoint unescape (l : list ascii) : list ascii :=
  match l with
  | [] => []
  | c :: tl =>
      if Ascii.eqb c "\"
      then match tl with
           | d :: tl' => d :: unescape tl'
           | [] => []
           end
      else c :: unescape tl
  end.

(** A wrapped line is within the width, allowing for the separating
    blank, or it is the bare indent, or the indent and a single word. *)
Definition wrapped (width : nat) (indent : string) (words : list string)
           (line_ : string) : Prop :=
  String.length line_ <= width + 1
  \/ line_ = indent
  \/ exists word, In word words /\ line_ = (indent ++ word)%string.

End MoreNotions.

(* ===================================================================== *)
(** * Properties *)
(* ===================================================================== *)

(** ** Log normalisation *)

Module LogNormalizerFacts.
Import JsString JsPattern LogNormalizer.

(** Every regular-expression literal of the normaliser, the tracer and
    the analyzers is inside the fragment [parse] accepts. *)
Lemma literals_parse :
  forallb (fun p => match parse p with Some _ => true | None => false end)
          (LogNormalizer.literals ++ LogTracer.literals
           ++ TraversalAnalyzer.literals ++ CodeTraversal.literals
           ++ PathSecurity.blockedUniversal ++ PathSecurity.blockedLinux
           ++ PathSecurity.blockedWindows ++ PathSecurity.blockedMacos) = true.
Proof. vm_compute. reflexivity. Qed.

(** C4, as stated, fails: moderate normalisation is not idempotent.
    The text [%S] is only case-folded by a first pass (step 8 knows the
    lower-case [%s] only), and the second pass then replaces the [%s]
    the first one produced. *)
Lemma moderate_not_idempotent :
  normalizeLogText (normalizeLogText "%S" "moderate") "moderate"
  <> normalizeLogText "%S" "moderate".
Proof. vm_compute. discriminate. Qed.

(** C4, amended: on the sample log line the token replacements put
    [IP] for the address and [TIMESTAMP] for the timestamp and keep
    [404]; the final case folding then gives the lower-case result,
    which a second moderate pass leaves unchanged. *)
Theorem moderate_sample :
  replacements sampleLog = "User IP failed at TIMESTAMP code=404"
  /\ normalizeLogText sampleLog "moderate" = "user ip failed at timestamp code=404"
  /\ normalizeLogText (normalizeLogText sampleLog "moderate") "moderate"
     = normalizeLogText sampleLog "moderate".
Proof. repeat split; vm_compute; reflexivity. Qed.

End LogNormalizerFacts.

(** ** The path guard *)

Module PathSecurityFacts.
Import JsString PathSecurity Scenario Notions.

Lemma includes_empty (p : string) : includes "" p = true -> p = "".
Proof.
  unfold includes, indexOf, indexOfFrom. simpl.
  destruct p as [|c p']; [reflexivity|]. simpl. discriminate.
Qed.

(** C10, as stated, fails: a path longer than 4096 code units is
    rejected by the length check of step 2 before the traversal check
    of step 4 is reached, so it is reported as [PATH_TOO_LONG] even
    though it contains [..]. *)
Lemma long_traversal_is_too_long :
  includes longTraversal ".." = true
  /\ validatePath emptyFs longTraversal
     = Invalid "PATH_TOO_LONG" "Path too long: exceeds 4096 characters".
Proof. split; vm_compute; reflexivity. Qed.

(** C10, amended: every path of at most 4096 code units that contains
    the text [..] anywhere is rejected with [TRAVERSAL_DETECTED],
    whatever the runtime normalises it to; the test is on the text of
    the raw path, not on its segments. *)
Theorem dotdot_is_traversal (rt : Runtime) (filePath : string) :
  includes filePath ".." = true ->
  String.length filePath <= maxPathLength ->
  validatePath rt filePath
  = Invalid "TRAVERSAL_DETECTED" "Security violation: Directory traversal detected".
Proof.
  intros Hdots Hlen.
  unfold validatePath, validatePathLog. cbn [validatePathAt].
  destruct (String.eqb filePath "") eqn:Hempty.
  - apply String.eqb_eq in Hempty. subst filePath.
    apply includes_empty in Hdots. discriminate.
  - destruct (maxPathLength <? String.length filePath) eqn:Hlong.
    + apply Nat.ltb_lt in Hlong. lia.
    + rewrite Hdots, Bool.orb_true_r. reflexivity.
Qed.

(** The file name of the claim, [my..notes.txt], has no parent
    segment and is rejected all the same. *)
Lemma dotdot_is_traversal_witness :
  includes "my..notes.txt" ".." = true
  /\ String.length "my..notes.txt" <= maxPathLength
  /\ validatePath emptyFs "my..notes.txt"
     = Invalid "TRAVERSAL_DETECTED" "Security violation: Directory traversal detected".
Proof.
  split; [reflexivity|]. split; [vm_compute; lia|].
  apply (dotdot_is_traversal emptyFs "my..notes.txt"); [reflexivity | vm_compute; lia].
Defined.

(** C2, as stated, fails: with [/srv/app] as the only allowed root,
    the path [/home/user/notes.txt] resolves outside every allowed
    root, matches no blocked pattern and contains no traversal
    sequence, and [validatePath] accepts it.  The validator has no
    allow-list at all. *)
Lemma outside_allowed_roots_is_accepted :
  RobustSearch.isAllowed emptyFs ["/srv/app"] "/home/user/notes.txt" = false
  /\ validatePath emptyFs "/home/user/notes.txt" = Valid "/home/user/notes.txt".
Proof. split; vm_compute; reflexivity. Qed.

(** C2, amended: [validatePath] rejects an empty path, a path of
    more than 4096 characters, a path whose raw or normalised text
    contains [..], a path whose resolved form matches a blocked
    pattern, and a symbolic link whose target is rejected (with the
    target's own verdict); every other path is accepted, also a link
    whose target is accepted, and no allowed root is consulted:
    acceptance holds whether or not the path resolves under one.  The
    prefix test against the allowed roots is made by
    [RobustSearchEngine.getAllFilesSync], which returns no file for a
    directory that resolves outside every allowed root. *)
Theorem allow_list_is_in_the_walker
        (rt : Runtime) (allowedPaths : list string) (p : string) (maxDepth : nat) :
  let normalizedPath := pathNormalize rt p in
  let absolutePath := pathResolve rt normalizedPath in
  let traversal := includes normalizedPath ".." || includes p ".." in
  let blocked := existsb (fun pat => blocks pat absolutePath)
                         (getPatternsByPlatform (platform rt)) in
  (* the five rejections, in the order of the checks *)
  (p = "" -> code (validatePath rt p) = Some "INVALID_INPUT")
  /\ (maxPathLength < String.length p ->
      code (validatePath rt p) = Some "PATH_TOO_LONG")
  /\ (p <> "" -> String.length p <= maxPathLength -> traversal = true ->
      code (validatePath rt p) = Some "TRAVERSAL_DETECTED")
  /\ (p <> "" -> String.length p <= maxPathLength -> traversal = false ->
      blocked = true ->
      code (validatePath rt p) = Some "BLOCKED_PATH")
  /\ (forall target,
        p <> "" -> String.length p <= maxPathLength -> traversal = false ->
        blocked = false ->
        linkTarget rt absolutePath = Some target ->
        valid (targetValidation rt target) = false ->
        validatePath rt p = targetValidation rt target)
  (* every other path is accepted, under any allow-list *)
  /\ (p <> "" -> String.length p <= maxPathLength -> traversal = false ->
      blocked = false ->
      (forall target, linkTarget rt absolutePath = Some target ->
                      valid (targetValidation rt target) = true) ->
      validatePath rt p = Valid absolutePath)
  (* the allow-list is the walker's *)
  /\ (RobustSearch.isAllowed rt allowedPaths p = false ->
      fst (RobustSearch.getAllFilesSync rt allowedPaths p maxDepth) = Return []).
Proof.
  intros normalizedPath absolutePath traversal blocked.
  assert (Hstep : forall (A : Type) (k : validation -> A),
             p <> "" -> String.length p <= maxPathLength ->
             k (validatePath rt p)
             = k (if traversal
                  then Invalid "TRAVERSAL_DETECTED"
                               "Security violation: Directory traversal detected"
                  else if blocked
                  then Invalid "BLOCKED_PATH"
                               "Access denied: Cannot access system directory"
                  else match linkTarget rt absolutePath with
                       | Some target =>
                           if valid (targetValidation rt target)
                           then Valid absolutePath
                           else targetValidation rt target
                       | None => Valid absolutePath
                       end)).
  { intros A k Hne Hlen. f_equal.
    unfold validatePath, validatePathLog. cbn [validatePathAt].
    apply String.eqb_neq in Hne. rewrite Hne.
    destruct (maxPathLength <? String.length p) eqn:Hlong;
      [apply Nat.ltb_lt in Hlong; lia|].
    fold normalizedPath. fold absolutePath. fold traversal.
    destruct traversal; [reflexivity|].
    fold blocked. destruct blocked; [reflexivity|].
    unfold linkTarget, targetValidation.
    destruct (lstat rt absolutePath) as [[| | |]|]; try reflexivity.
    destruct (realpath rt absolutePath) as [target|]; [|reflexivity].
    destruct (validatePathAt rt (frames rt) target []) as [v log'].
    cbn [fst]. destruct (valid v); reflexivity. }
  split; [|split; [|split; [|split; [|split; [|split]]]]].
  - intros ->. reflexivity.
  - intros Hlong. unfold validatePath, validatePathLog. cbn [validatePathAt].
    destruct (String.eqb p "") eqn:Hempty.
    + apply String.eqb_eq in Hempty. subst p. cbn in Hlong. lia.
    + apply Nat.ltb_lt in Hlong. rewrite Hlong. reflexivity.
  - intros Hne Hlen Ht. rewrite (Hstep _ code Hne Hlen), Ht. reflexivity.
  - intros Hne Hlen Ht Hb. rewrite (Hstep _ code Hne Hlen), Ht, Hb. reflexivity.
  - intros target Hne Hlen Ht Hb Hlink Hrejected.
    rewrite (Hstep _ (fun v => v) Hne Hlen), Ht, Hb, Hlink, Hrejected.
    reflexivity.
  - intros Hne Hlen Ht Hb Haccepted.
    rewrite (Hstep _ (fun v => v) Hne Hlen), Ht, Hb.
    destruct (linkTarget rt absolutePath) as [target|]; [|reflexivity].
    rewrite (Haccepted target eq_refl). reflexivity.
  - intros Hout. unfold RobustSearch.getAllFilesSync.
    destruct maxDepth; cbn [RobustSearch.getAllFilesSyncAt]; rewrite Hout;
      reflexivity.
Qed.

(** A directory outside the allowed root is accepted by the validator
    and yields no file in the walker; a link into [/etc] is rejected
    with the verdict on its target. *)
Lemma allow_list_is_in_the_walker_witness :
  validatePath emptyFs "/home/user/project" = Valid "/home/user/project"
  /\ fst (RobustSearch.getAllFilesSync emptyFs ["/srv/app"] "/home/user/project" 5)
     = Return []
  /\ code (validatePath emptyFs "/etc/hosts") = Some "BLOCKED_PATH".
Proof.
  pose proof (allow_list_is_in_the_walker emptyFs ["/srv/app"] "/home/user/project" 5)
    as [_ [_ [_ [_ [_ [Haccept Hwalker]]]]]].
  pose proof (allow_list_is_in_the_walker emptyFs ["/srv/app"] "/etc/hosts" 5)
    as [_ [_ [_ [Hblocked _]]]].
  split; [|split].
  - apply Haccept; try (vm_compute; reflexivity).
    + discriminate.
    + vm_compute; lia.
    + intros target Hlink. vm_compute in Hlink. discriminate Hlink.
  - apply Hwalker. vm_compute. reflexivity.
  - apply Hblocked; try (vm_compute; reflexivity).
    + discriminate.
    + vm_compute; lia.
Defined.

End PathSecurityFacts.

(** ** Configuration references in the issue finder *)

Module IssueFinderFacts.
Import JsString JsRegExp JsPattern EnhancedIssueFinder.

Lemma issue_finder_literals_parse :
  forallb (fun p => match parse p with Some _ => true | None => false end)
          literals = true.
Proof. vm_compute. reflexivity. Qed.

(** A configuration analysis is built from a file and the text of a
    match in it. *)
Lemma traceIn_analysis (configRef : string) (patterns : list (flags * regex))
      (sourceFiles : list CodeTraversal.SourceFile) (a : ConfigAnalysis) :
  traceIn configRef patterns sourceFiles = Some a ->
  exists file_ found,
    In file_ sourceFiles
    /\ a = analysisFor configRef (CodeTraversal.content file_) found.
Proof.
  induction sourceFiles as [|f tl IH]; cbn [traceIn]; [discriminate|].
  destruct (firstPopulation patterns (CodeTraversal.content f)) as [found|].
  - intros H. inversion H. exists f, found. split; [left|]; reflexivity.
  - intros H. destruct (IH H) as [file_ [found [Hin Ha]]].
    exists file_, found. split; [right; exact Hin | exact Ha].
Qed.

(** With a query, the chain is usage, population method (when the
    matched text is not empty), database table and SQL query. *)
Lemma analysisFor_chain (configRef content_ found q : string) :
  sqlQuery (analysisFor configRef content_ found) = Some q ->
  q <> ""
  /\ dataSource (analysisFor configRef content_ found) = Some "database"
  /\ tableName (analysisFor configRef content_ found)
     = match exec flagI (lit reFrom) q with
       | Some m => group m 1
       | None => None
       end
  /\ map CodeTraversal.location (steps (analysisFor configRef content_ found))
     = ["Code usage point"]
       ++ (if String.eqb found "" then [] else ["Population method"])
       ++ ["Database"; "Database query"].
Proof.
  unfold analysisFor. cbv zeta. cbn [sqlQuery dataSource tableName steps].
  destruct (truthy (extractSqlQuery _)) eqn:Htruthy; [|discriminate].
  intros Hq. rewrite Hq in Htruthy |- *. cbn [truthy] in Htruthy.
  split.
  { intros ->. discriminate Htruthy. }
  split; [reflexivity|]. split; [reflexivity|].
  unfold buildConfigurationTraceSteps. cbn [truthy]. rewrite Htruthy.
  destruct (String.eqb found ""); reflexivity.
Qed.

End IssueFinderFacts.

(** ** The dependency resolver *)

Module TraversalFacts.
Import JsString JsValue SmartSearch TraversalAnalyzer Scenario Notions.

Lemma circular_not_in_flat_map {A : Type} (f : A -> list Recommendation)
      (l : list A) :
  (forall x r, In r (f x) -> recType r <> "potential_circular_dependency") ->
  ~ In circularRecommendation (flat_map f l).
Proof.
  intros Hf Hin. apply in_flat_map in Hin. destruct Hin as [x [_ Hx]].
  apply (Hf x _ Hx). reflexivity.
Qed.

(** The circular-dependency recommendation is produced exactly when
    the path has more than five entries and a repeated file. *)
Lemma circular_iff (a : Analysis) :
  In circularRecommendation (generateRecommendations a)
  <-> 5 < List.length (traversalPath a)
      /\ List.length (uniqueFiles (map visitedFile (traversalPath a)))
         < List.length (map visitedFile (traversalPath a)).
Proof.
  unfold generateRecommendations. split.
  - intros Hin.
    repeat (apply in_app_or in Hin; destruct Hin as [Hin|Hin]).
    + exfalso. revert Hin. apply circular_not_in_flat_map.
      intros x r Hr. destruct (Nat.eqb _ 0); [|contradiction].
      destruct Hr as [<-|[]]. cbn. discriminate.
    + exfalso. revert Hin. apply circular_not_in_flat_map.
      intros x r Hr. destruct (Nat.eqb _ 0); [|contradiction].
      destruct Hr as [<-|[]]. cbn. discriminate.
    + exfalso. revert Hin. apply circular_not_in_flat_map.
      intros x r Hr. destruct (_ || _); [|contradiction].
      destruct Hr as [<-|[]]. cbn. discriminate.
    + exfalso. destruct (0 <? _); [|contradiction].
      destruct Hin as [Heq|[]]. apply (f_equal recType) in Heq.
      cbn in Heq. discriminate.
    + destruct (5 <? List.length (traversalPath a)) eqn:H5; [|contradiction].
      cbv zeta in Hin.
      destruct (_ <? List.length (map visitedFile (traversalPath a))) eqn:Hu;
        [|contradiction].
      split; [apply Nat.ltb_lt, H5 | apply Nat.ltb_lt, Hu].
  - intros [H5 Hu].
    repeat (apply in_or_app; right).
    apply Nat.ltb_lt in H5. rewrite H5. cbv zeta.
    apply Nat.ltb_lt in Hu. rewrite Hu. left. reflexivity.
Qed.

(** *** What a traversal step touches *)

Lemma untouched_refl (t : Traversal) : untouched t t.
Proof. repeat split. Qed.

Lemma untouched_trans (t1 t2 t3 : Traversal) :
  untouched t1 t2 -> untouched t2 t3 -> untouched t1 t3.
Proof.
  intros [Hv [Hp Hr]] [Hv' [Hp' Hr']]. repeat split; congruence.
Qed.

Lemma after_bindT {A B : Type} (m : T A) (f : A -> T B) (t : Traversal) :
  after (bindT m f) t
  = match fst (fst (m t)) with
    | Return a => after (f a) (after m t)
    | Throw _ => after m t
    end.
Proof.
  unfold after, bindT. destruct (m t) as [[[a|e] t'] s]; cbn; [|reflexivity].
  destruct (f a t') as [r s']. reflexivity.
Qed.

Lemma keepsPath_retT {A : Type} (a : A) : keepsPath (retT a).
Proof. intros t. apply untouched_refl. Qed.

Lemma keepsPath_liftT {A : Type} (m : M A) : keepsPath (liftT m).
Proof.
  intros t. unfold after, liftT. destruct m as [[a|e] s]; apply untouched_refl.
Qed.

Lemma keepsPath_bindT {A B : Type} (m : T A) (f : A -> T B) :
  keepsPath m -> (forall a, keepsPath (f a)) -> keepsPath (bindT m f).
Proof.
  intros Hm Hf t. rewrite after_bindT.
  destruct (fst (fst (m t))) as [a|e]; [|apply Hm].
  apply (untouched_trans (Hm t)), Hf.
Qed.

Lemma keepsPath_forEachT {A : Type} (body : A -> T unit) (xs : list A) :
  (forall x, keepsPath (body x)) -> keepsPath (forEachT body xs).
Proof.
  intros H. induction xs as [|x tl IH]; cbn [forEachT].
  - apply keepsPath_retT.
  - apply keepsPath_bindT; [apply H | intros _; exact IH].
Qed.

Lemma keepsPath_pushT (d : value) : keepsPath (pushT d).
Proof. intros t. repeat split. Qed.

Ltac keeps :=
  repeat first
    [ apply keepsPath_retT
    | apply keepsPath_liftT
    | apply keepsPath_pushT
    | apply keepsPath_bindT; [|intros ?]
    | apply keepsPath_forEachT; intros ?
    | match goal with
      | |- keepsPath (if ?b then _ else _) => destruct b
      | |- keepsPath (match ?x with Some _ => _ | None => _ end) => destruct x
      end ].

Section Steps.
Variable rt : Runtime.
Variable settings : Settings.

Lemma traceVariableSource_keeps (variable_ searchDir : string) :
  keepsPath (traceVariableSource rt settings variable_ searchDir).
Proof. unfold traceVariableSource. keeps. Qed.

Lemma traceConstantDefinition_keeps (constant searchDir : string) :
  keepsPath (traceConstantDefinition rt settings constant searchDir).
Proof. unfold traceConstantDefinition. keeps. Qed.

Lemma traceConfigurationSource_keeps (config searchDir : string) :
  keepsPath (traceConfigurationSource rt settings config searchDir).
Proof. unfold traceConfigurationSource. keeps. Qed.

Lemma traceDatabaseSchema_keeps (table searchDir : string) :
  keepsPath (traceDatabaseSchema rt settings table searchDir).
Proof. unfold traceDatabaseSchema. keeps. Qed.

(** The searches of a traversal step record dependencies only. *)
Lemma tracing_keeps (searchDir : string) (references : References) :
  keepsPath
    (bindT (forEachT (fun v => traceVariableSource rt settings v searchDir)
                     (variables references))
       (fun _ =>
          bindT (forEachT (fun c => traceConstantDefinition rt settings c searchDir)
                          (constants references))
            (fun _ =>
               bindT (forEachT
                        (fun c => traceConfigurationSource rt settings c searchDir)
                        (configurations references))
                 (fun _ =>
                    forEachT (fun tb => traceDatabaseSchema rt settings tb searchDir)
                             (tables references))))).
Proof.
  apply keepsPath_bindT;
    [apply keepsPath_forEachT; intros; apply traceVariableSource_keeps|].
  intros _. apply keepsPath_bindT;
    [apply keepsPath_forEachT; intros; apply traceConstantDefinition_keeps|].
  intros _. apply keepsPath_bindT;
    [apply keepsPath_forEachT; intros; apply traceConfigurationSource_keeps|].
  intros _. apply keepsPath_forEachT. intros. apply traceDatabaseSchema_keeps.
Qed.

(** A traversal step either does nothing, or it enters a file that
    was not visited, at a depth below [maxTraversalDepth], marks it as
    visited and appends it to the path. *)
Lemma performDeepTraversal_step (currentFile searchDir : string)
      (references : References) (depth_ : nat) (t : Traversal) :
  let t' := after (performDeepTraversal rt settings currentFile searchDir
                                        references depth_) t in
  (((maxTraversalDepth <=? depth_)
    || JsArray.includes (visitedFiles t) currentFile = true)
   /\ t' = t)
  \/ (depth_ < maxTraversalDepth
      /\ JsArray.includes (visitedFiles t) currentFile = false
      /\ visitedFiles t' = setAdd (visitedFiles t) currentFile
      /\ traversalPath (analysis t')
         = traversalPath (analysis t)
           ++ [{| visitedFile := currentFile; depth := depth_ |}]
      /\ recommendations (analysis t') = recommendations (analysis t)).
Proof.
  cbv zeta. unfold performDeepTraversal. rewrite after_bindT.
  change (fst (fst (getT t))) with (Return t).
  change (after getT t) with t. cbv beta iota.
  destruct ((maxTraversalDepth <=? depth_)
            || JsArray.includes (visitedFiles t) currentFile) eqn:Hguard.
  - left. split; reflexivity.
  - right. apply orb_false_iff in Hguard. destruct Hguard as [Hd Hv].
    apply Nat.leb_gt in Hd. split; [exact Hd|]. split; [exact Hv|].
    rewrite after_bindT. cbn [modifyT fst].
    rewrite after_bindT. cbn [modifyT fst].
    match goal with
    | |- context [after ?m ?t0] =>
        destruct (tracing_keeps searchDir references t0) as [Hv' [Hp' Hr']]
    end.
    rewrite Hv', Hp', Hr'. repeat split.
Qed.

(** The state a run of [analyzeWithTraversal] ends in: the path holds
    the primary file, at depth 0, when a search directory was given
    and nothing otherwise, and the recommendations do not hold the
    circular-dependency one. *)
Lemma analysisSteps_path (snippet file_ searchDirectory : string) :
  let t' := after (analysisSteps rt settings snippet file_ searchDirectory)
                  {| visitedFiles := []; analysis := freshAnalysis snippet file_ |} in
  traversalPath (analysis t')
  = (if String.eqb searchDirectory "" then []
     else [{| visitedFile := file_; depth := 0 |}])
  /\ ~ In circularRecommendation (recommendations (analysis t')).
Proof.
  cbv zeta. unfold analysisSteps. rewrite after_bindT.
  set (t0 := {| visitedFiles := []; analysis := freshAnalysis snippet file_ |}).
  set (step3 := if String.eqb searchDirectory "" then retT tt
                else performDeepTraversal rt settings file_ searchDirectory
                                          (extractReferences snippet) 0).
  assert (H1 : traversalPath (analysis (after step3 t0))
               = (if String.eqb searchDirectory "" then []
                  else [{| visitedFile := file_; depth := 0 |}])
               /\ recommendations (analysis (after step3 t0)) = []).
  { unfold step3. destruct (String.eqb searchDirectory "").
    - split; reflexivity.
    - destruct (performDeepTraversal_step file_ searchDirectory
                  (extractReferences snippet) 0 t0)
        as [[Hguard _]|[_ [_ [_ [Hp Hr]]]]].
      + cbn in Hguard. discriminate Hguard.
      + rewrite Hp, Hr. split; reflexivity. }
  destruct H1 as [Hpath Hrecs].
  destruct (fst (fst (step3 t0))) as [u|e].
  2:{ split; [exact Hpath | rewrite Hrecs; intros []]. }
  generalize dependent (after step3 t0). intros t1 Hpath Hrecs.
  unfold after, bindT, liftT, modifyT.
  destruct (analyzeDataSources rt settings snippet searchDirectory) as [[ds|e] s];
    cbn [fst snd].
  - cbn [updAnalysis analysis setDataSources setRecommendations traversalPath
         recommendations].
    split; [exact Hpath|]. intros Hin. apply circular_iff in Hin.
    cbn [traversalPath setDataSources updAnalysis analysis] in Hin.
    destruct Hin as [Hlong _]. rewrite Hpath in Hlong.
    destruct (String.eqb searchDirectory ""); cbn in Hlong; lia.
  - split; [exact Hpath | rewrite Hrecs; intros []].
Qed.

End Steps.




(** What [CodeTraversalEngine] computes on the scenario tree: for a
    statement that calls the population method, a configuration with
    the table name and a chain of four steps; for the snippet of the
    scenario, whose only calls are [if] and [contains], nothing. *)
Lemma population_call_scenario :
  (exists info,
      CodeTraversal.configurationsOf
        "rows = ConfigStore.populateColPlanList();"
        [{| CodeTraversal.sourcePath := "ConfigLoader.java";
            CodeTraversal.content := configLoader |}]
      = Return [(CodeTraversal.objectKey, info)]
      /\ CodeTraversal.tableName info = Some "PLAN_TABLE"
      /\ CodeTraversal.sqlQuery info = Some "SELECT * FROM PLAN_TABLE"
      /\ map CodeTraversal.location (CodeTraversal.populationSteps info)
         = ["Usage point"; "ConfigLoader.java"; "PLAN_TABLE"; "Database query"])
  /\ CodeTraversal.configurationsOf
       configSnippet
       [{| CodeTraversal.sourcePath := "ConfigLoader.java";
           CodeTraversal.content := configLoader |}]
     = Return [].
Proof.
  split.
  - eexists. split; [vm_compute; reflexivity|].
    repeat split; vm_compute; reflexivity.
  - vm_compute. reflexivity.
Qed.


End TraversalFacts.

(** ** Computations of the engine *)

Module EngineFacts.
Import Notions.

Lemma fst_bind_Return {A B : Type} (m : M A) (f : A -> M B) (a : A) :
  fst m = Return a -> fst (bind m f) = fst (f a).
Proof.
  destruct m as [[x|e] s]; cbn; intros H; inversion H; subst.
  destruct (f a) as [r s']. reflexivity.
Qed.

Lemma fst_bind_Throw {A B : Type} (m : M A) (f : A -> M B) (e : string) :
  fst m = Throw e -> fst (bind m f) = Throw e.
Proof. destruct m as [[x|e'] s]; cbn; intros H; inversion H; reflexivity. Qed.

Lemma fst_tryCatch_Return {A : Type} (body : M A) (h : string -> M A) (a : A) :
  fst body = Return a -> fst (tryCatch body h) = Return a.
Proof. destruct body as [[x|e] s]; cbn; intros H; inversion H; reflexivity. Qed.

Lemma fst_tryCatch_Throw {A : Type} (body : M A) (h : string -> M A) (e : string) :
  fst body = Throw e -> fst (tryCatch body h) = fst (h e).
Proof.
  destruct body as [[x|e'] s]; cbn; intros H; inversion H; subst.
  destruct (h e) as [r s']. reflexivity.
Qed.

Lemma fst_bind_inv {A B : Type} (m : M A) (f : A -> M B) (b : B) :
  fst (bind m f) = Return b ->
  exists a, fst m = Return a /\ fst (f a) = Return b.
Proof.
  destruct (fst m) as [a|e] eqn:E; intros H.
  - exists a. split; [reflexivity|]. rewrite (fst_bind_Return _ _ E) in H. exact H.
  - rewrite (fst_bind_Throw _ _ E) in H. discriminate.
Qed.

Lemma returns_ret {A : Type} (a : A) : returns (ret a).
Proof. exists a. reflexivity. Qed.

Lemma returns_bind {A B : Type} (m : M A) (f : A -> M B) :
  returns m -> (forall a, returns (f a)) -> returns (bind m f).
Proof.
  intros [a Ha] Hf. destruct (Hf a) as [b Hb]. exists b.
  rewrite (fst_bind_Return m f Ha). exact Hb.
Qed.

Lemma returns_tell_then {A : Type} (s : Stats) (m : M A) :
  returns m -> returns (bind (tell s) (fun _ => m)).
Proof. intros H. apply returns_bind; [exists tt; reflexivity | intros _; exact H]. Qed.

(** A [try]/[catch] whose handler returns never throws. *)
Lemma returns_tryCatch {A : Type} (body : M A) (h : string -> M A) :
  (forall e, returns (h e)) -> returns (tryCatch body h).
Proof.
  intros Hh. destruct (fst body) as [a|e] eqn:E.
  - exists a. apply fst_tryCatch_Return, E.
  - destruct (Hh e) as [a Ha]. exists a.
    rewrite (fst_tryCatch_Throw body h E). exact Ha.
Qed.

Lemma returns_forEachM {A B : Type} (body : A -> M (list B)) (xs : list A) :
  (forall x, In x xs -> returns (body x)) -> returns (forEachM body xs).
Proof.
  induction xs as [|x tl IH]; intros H; cbn [forEachM].
  - apply returns_ret.
  - apply returns_bind; [apply H; left; reflexivity|].
    intros r. apply returns_bind.
    + apply IH. intros y Hy. apply H. right. exact Hy.
    + intros rs. apply returns_ret.
Qed.

Lemma listOf_Return {A : Type} (m : M (list A)) (l : list A) :
  fst m = Return l -> listOf m = l.
Proof. unfold listOf. intros ->. reflexivity. Qed.

(** When every round returns, the loop returns the concatenation. *)
Lemma forEachM_flat_map {A B : Type} (body : A -> M (list B)) (xs : list A) :
  (forall x, In x xs -> returns (body x)) ->
  fst (forEachM body xs) = Return (flat_map (fun x => listOf (body x)) xs).
Proof.
  induction xs as [|x tl IH]; intros H; cbn [forEachM flat_map].
  - reflexivity.
  - destruct (H x (or_introl eq_refl)) as [r Hr].
    rewrite (fst_bind_Return _ _ Hr).
    assert (Htl : forall y, In y tl -> returns (body y))
      by (intros y Hy; apply H; right; exact Hy).
    rewrite (fst_bind_Return _ _ (IH Htl)).
    rewrite (listOf_Return _ Hr). reflexivity.
Qed.

End EngineFacts.

(** ** Matching inside a file *)

Module MatchingFacts.
Import JsString SmartSearch Notions EngineFacts.

Lemma indexOfAux_head (s p : string) (k : nat) :
  indexOfAux s p k = hd_error (occurrencesFrom s p k).
Proof.
  revert k. induction s as [|c s' IH]; intros k; cbn [indexOfAux occurrencesFrom].
  - destruct (startsWith "" p); reflexivity.
  - destruct (startsWith (String c s') p); [reflexivity|]. cbn [app]. apply IH.
Qed.

Lemma indexOfAux_bounds (s p : string) (k i : nat) :
  p <> "" -> indexOfAux s p k = Some i -> k <= i < k + String.length s.
Proof.
  intros Hp. revert k. induction s as [|c s' IH]; intros k; cbn [indexOfAux].
  - destruct p as [|d p']; [contradiction|]. cbn. discriminate.
  - destruct (startsWith (String c s') p).
    + intros H. inversion H. subst. cbn. lia.
    + intros H. apply IH in H. cbn. lia.
Qed.

Lemma occurrences_step (s p : string) (k : nat) :
  p <> "" ->
  occurrencesFrom s p k
  = match indexOfAux s p k with
    | None => []
    | Some i => i :: occurrencesFrom (drop (S (i - k)) s) p (S i)
    end.
Proof.
  intros Hp. revert k.
  induction s as [|c s' IH]; intros k; cbn [indexOfAux occurrencesFrom].
  - destruct p as [|d p']; [contradiction|]. reflexivity.
  - destruct (startsWith (String c s') p) eqn:E.
    + rewrite Nat.sub_diag. reflexivity.
    + cbn [app]. rewrite IH.
      destruct (indexOfAux s' p (S k)) as [i|] eqn:Ei; [|reflexivity].
      apply (indexOfAux_bounds _ _ Hp) in Ei.
      replace (i - k) with (S (i - S k)) by lia. reflexivity.
Qed.

Lemma drop_drop (a b : nat) (s : string) : drop a (drop b s) = drop (b + a) s.
Proof.
  revert s. induction b as [|b IH]; intros s; [reflexivity|].
  destruct s as [|c s']; cbn.
  - destruct a; reflexivity.
  - apply IH.
Qed.

Lemma length_drop (k : nat) (s : string) :
  String.length (drop k s) = String.length s - k.
Proof.
  revert s. induction k as [|k IH]; intros s; cbn.
  - lia.
  - destruct s as [|c s']; cbn; [reflexivity|apply IH].
Qed.

(** The loop of the fall-back visits every occurrence of a non-empty
    pattern, and stops. *)
Lemma literal_loop (text pat : string) :
  pat <> "" ->
  forall fuel k,
    k <= String.length text -> String.length text - k < fuel ->
    literalIndices text pat fuel (indexOfAux (drop k text) pat k)
    = occurrencesFrom (drop k text) pat k.
Proof.
  intros Hp. induction fuel as [|fuel IH]; intros k Hk Hfuel; [lia|].
  rewrite (occurrences_step _ k Hp). cbn [literalIndices].
  destruct (indexOfAux (drop k text) pat k) as [i|] eqn:Ei; [|reflexivity].
  pose proof (indexOfAux_bounds _ _ Hp Ei) as Hb. rewrite length_drop in Hb.
  f_equal. unfold indexOfFrom.
  destruct (String.length text <? S i) eqn:Hlt; [apply Nat.ltb_lt in Hlt; lia|].
  rewrite drop_drop. replace (k + S (i - k)) with (S i) by lia.
  apply IH; lia.
Qed.

Lemma literalIndices_occurrences (text pat : string) :
  pat <> "" ->
  literalIndices text pat (S (String.length text)) (indexOf text pat)
  = occurrences text pat.
Proof.
  intros Hp. unfold indexOf, indexOfFrom, occurrences. cbn [Nat.ltb Nat.leb].
  apply (@literal_loop text pat Hp (S (String.length text)) 0); lia.
Qed.

Lemma toLowerCase_nonempty (p : string) : p <> "" -> toLowerCase p <> "".
Proof. destruct p; [contradiction|]. cbn. discriminate. Qed.

(** No exception leaves the search of one file. *)
Lemma smartSearchInFile_returns (rt : Runtime) (settings : Settings)
      (filePath query_ : string) (caseSensitive : bool)
      (maxMatches contextLines : nat) :
  returns (smartSearchInFile rt settings filePath query_ caseSensitive
                             maxMatches contextLines).
Proof.
  unfold smartSearchInFile.
  destruct (negb (PathSecurity.valid (PathSecurity.validatePath rt filePath))).
  - apply returns_tell_then, returns_ret.
  - apply returns_tryCatch. intros e. apply returns_tell_then, returns_ret.
Qed.

(** C7: matching with a pattern is regular-expression first; when the
    construction or the execution of the expression throws, the
    matches are those of the literal search for the pattern text in the
    same content (every occurrence, case folded unless the search is
    case sensitive); and no exception leaves the search of a file,
    whatever the query.  The empty pattern is a valid expression, so
    the fall-back only runs on a non-empty pattern. *)
Theorem regex_first_literal_fallback
        (rt : Runtime) (settings : Settings)
        (content_ : string) (lines : list string) (info : PatternInfo)
        (caseSensitive : bool) (contextLines maxMatches : nat)
        (filePath query_ : string) :
  (forall ignoreCase_, regExpMatchAll rt "" ignoreCase_ <> None) ->
  (forall matchAll,
      regExpMatchAll rt (pattern info) (negb caseSensitive) = Some matchAll ->
      findMatches rt content_ lines info caseSensitive contextLines
      = map (fun m => resultAt content_ lines info contextLines
                               (JsRegExp.index m) (JsRegExp.matched m))
            (matchAll content_))
  /\ (regExpMatchAll rt (pattern info) (negb caseSensitive) = None ->
      let searchText := if caseSensitive then content_ else toLowerCase content_ in
      let searchPattern :=
        if caseSensitive then pattern info else toLowerCase (pattern info) in
      findMatches rt content_ lines info caseSensitive contextLines
      = map (fun i => resultAt content_ lines info contextLines i
                               (take (String.length searchPattern) (drop i content_)))
            (occurrences searchText searchPattern))
  /\ returns (smartSearchInFile rt settings filePath query_ caseSensitive
                                maxMatches contextLines).
Proof.
  intros Hempty. split; [|split].
  - intros matchAll H. unfold findMatches. rewrite H. reflexivity.
  - intros H searchText searchPattern. unfold findMatches. rewrite H.
    unfold literalSearch. fold searchText. fold searchPattern.
    rewrite literalIndices_occurrences; [reflexivity|].
    assert (Hp : pattern info <> "").
    { intros Heq. rewrite Heq in H. exact (Hempty _ H). }
    unfold searchPattern. destruct caseSensitive;
      [exact Hp | apply toLowerCase_nonempty, Hp].
  - apply smartSearchInFile_returns.
Qed.

(** The engine of the scenarios accepts the empty pattern. *)
Lemma fixture_empty_pattern (ignoreCase_ : bool) :
  regExpMatchAll Scenario.emptyFs "" ignoreCase_ <> None.
Proof.
  change (Fixture.regExp "" ignoreCase_ <> None). unfold Fixture.regExp.
  destruct (JsPattern.parse "") eqn:E; [discriminate|].
  vm_compute in E. discriminate.
Qed.

(** The query [foo(] is no valid expression; its two occurrences are
    found by the literal search. *)
Lemma regex_first_literal_fallback_witness :
  let info := {| pattern := "foo("; patternType := "exact"; weight := 10 |} in
  regExpMatchAll Scenario.emptyFs "foo(" true = None
  /\ map (fun m => (line m, column m, matchText m))
         (findMatches Scenario.emptyFs "x = Foo(1) + foo(2)" ["x = Foo(1) + foo(2)"]
                      info false 3)
     = [(1, 5%Z, "Foo("); (1, 14%Z, "foo(")]
  /\ returns (smartSearchInFile Scenario.emptyFs defaultSettings
                                "/srv/a/x.js" "foo(" false 3 3).
Proof.
  intros info.
  destruct (@regex_first_literal_fallback
              Scenario.emptyFs defaultSettings "x = Foo(1) + foo(2)"
              ["x = Foo(1) + foo(2)"] info false 3 3 "/srv/a/x.js" "foo(")
    as [_ [Hfallback Hreturns]].
  - exact fixture_empty_pattern.
  - split; [vm_compute; reflexivity|]. split; [|exact Hreturns].
    rewrite Hfallback by (vm_compute; reflexivity).
    vm_compute. reflexivity.
Defined.

End MatchingFacts.

(** ** The walker *)

Module WalkerFacts.
Import JsString SmartSearch Notions EngineFacts Scenario.

Lemma forEachM_In {A B : Type} (body : A -> M (list B)) (xs : list A)
      (l : list B) (e : B) :
  fst (forEachM body xs) = Return l -> In e l ->
  exists x lx, In x xs /\ fst (body x) = Return lx /\ In e lx.
Proof.
  revert l. induction xs as [|x tl IH]; intros l; cbn [forEachM].
  - cbn. intros H. inversion H. contradiction.
  - destruct (fst (body x)) as [r|err] eqn:Hx.
    + rewrite (fst_bind_Return _ _ Hx).
      destruct (fst (forEachM body tl)) as [rs|err] eqn:Htl.
      * rewrite (fst_bind_Return _ _ Htl). cbn. intros H Hin.
        inversion H. subst l. apply in_app_or in Hin. destruct Hin as [Hin|Hin].
        -- exists x, r. split; [left; reflexivity|]. split; assumption.
        -- destruct (IH rs eq_refl Hin) as [y [ly [Hy [Hly He]]]].
           exists y, ly. split; [right; exact Hy|]. split; assumption.
      * rewrite (fst_bind_Throw _ _ Htl). discriminate.
    + rewrite (fst_bind_Throw _ _ Hx). discriminate.
Qed.

Lemma countChar_app (c : ascii) (a b : string) :
  countChar c (a ++ b) = countChar c a + countChar c b.
Proof. induction a as [|d a IH]; cbn; [reflexivity|]. rewrite IH. lia. Qed.

Lemma append_assoc (a b c : string) : ((a ++ b) ++ c = a ++ (b ++ c))%string.
Proof. induction a as [|d a IH]; cbn; [reflexivity|]. rewrite IH. reflexivity. Qed.

Lemma drop_past (a b : string) (c : ascii) :
  drop (S (String.length a)) (a ++ String c b) = b.
Proof. induction a as [|d a IH]; cbn; [reflexivity|]. exact IH. Qed.

Lemma startsWith_empty (s : string) : startsWith s "" = true.
Proof. destruct s; reflexivity. Qed.

Lemma no_separator (s : string) (k : nat) :
  indexOfAux s "/" k = None -> countChar PosixPath.sep s = 0.
Proof.
  revert k. induction s as [|c s IH]; intros k; cbn [indexOfAux countChar];
    [reflexivity|].
  cbn [startsWith]. rewrite startsWith_empty. unfold PosixPath.sep in *.
  destruct (Ascii.eqb "/" c); cbn [andb]; [discriminate|].
  intros H. rewrite (IH _ H). reflexivity.
Qed.

Lemma plain_name_levels (name_ : string) :
  includes name_ "/" = false -> countChar PosixPath.sep name_ = 0.
Proof.
  unfold includes, indexOf, indexOfFrom. cbn [Nat.ltb Nat.leb drop].
  destruct (indexOfAux name_ "/" 0) eqn:E; [discriminate|].
  intros _. exact (no_separator _ _ E).
Qed.

(** The relative path of a file found in the directory
    [dirPath ++ suffix] has as many separators as [suffix]. *)
Lemma relative_levels (dirPath suffix name_ : string) :
  suffix = "" \/ (exists s, suffix = String PosixPath.sep s) ->
  countChar PosixPath.sep name_ = 0 ->
  levels (PosixPath.relative dirPath
                             (PosixPath.join (dirPath ++ suffix) name_))
  = countChar PosixPath.sep suffix.
Proof.
  intros Hs Hname. unfold levels, PosixPath.relative, PosixPath.join.
  destruct Hs as [->|[s ->]].
  - replace ((dirPath ++ "") ++ "/" ++ name_)%string
      with (dirPath ++ String "/" name_)%string.
    + rewrite drop_past. exact Hname.
    + rewrite append_assoc. reflexivity.
  - replace ((dirPath ++ String PosixPath.sep s) ++ "/" ++ name_)%string
      with (dirPath ++ String PosixPath.sep (s ++ "/" ++ name_))%string.
    + rewrite drop_past. rewrite countChar_app. cbn.
      change (countChar PosixPath.sep name_) with (countChar "/" name_) in Hname.
      unfold PosixPath.sep in *. rewrite Hname. cbn. lia.
    + rewrite append_assoc. reflexivity.
Qed.

(** A round of a loop that returned the empty list holds no entry. *)
Ltac nothing_found H :=
  cbn in H; inversion H; subst;
  match goal with Hin : In _ [] |- _ => destruct Hin end.

(** Every file the scan of a directory at depth [currentDepth] yields
    lies fewer than [maxDepth] directory levels below the root. *)
Lemma scan_levels (rt : Runtime) (dirPath : string) (maxDepth : nat)
      (exts skipDirsSet : list string) :
  plainNames rt ->
  forall fuel suffix currentDepth files e,
    suffix = "" \/ (exists s, suffix = String PosixPath.sep s) ->
    countChar PosixPath.sep suffix = currentDepth ->
    fst (scanDirectory rt dirPath maxDepth exts skipDirsSet fuel
                       (dirPath ++ suffix) currentDepth) = Return files ->
    In e files ->
    levels (relativePath e) < maxDepth.
Proof.
  intros Hplain.
  induction fuel as [|fuel IH]; intros suffix currentDepth files e Hs Hc Hscan Hin.
  - cbn in Hscan. destruct (maxDepth <=? currentDepth); nothing_found Hscan.
  - cbn [scanDirectory] in Hscan.
    destruct (maxDepth <=? currentDepth) eqn:Hguard; [nothing_found Hscan|].
    apply Nat.leb_gt in Hguard.
    destruct (readdir rt (dirPath ++ suffix)) as [entries|] eqn:Hread.
    2:{ nothing_found Hscan. }
    cbn [orThrow] in Hscan.
    match type of Hscan with
    | fst (tryCatch (bind (ret entries) ?f) ?h) = _ =>
        pose proof (fst_bind_Return (ret entries) f (a := entries) eq_refl) as Hb;
        destruct (fst (f entries)) as [found|err] eqn:Hloop;
        [ rewrite (fst_tryCatch_Return _ h Hb) in Hscan
        | rewrite (fst_tryCatch_Throw _ h Hb) in Hscan ]
    end.
    2:{ nothing_found Hscan. }
    inversion Hscan. subst found. clear Hscan.
    destruct (forEachM_In _ _ e Hloop Hin) as [entry [lx [Hentry [Hbody He]]]].
    cbv beta in Hbody.
    pose proof (plain_name_levels _ (Hplain _ _ _ Hread Hentry)) as Hname.
    destruct (isDirectory (d_kind entry)).
    + destruct (startsWith (d_name entry) "."
                && negb (String.eqb (d_name entry) "."));
        [nothing_found Hbody|].
      destruct (JsArray.includes skipDirsSet (toLowerCase (d_name entry)));
        [nothing_found Hbody|].
      unfold PosixPath.join in Hbody. rewrite append_assoc in Hbody.
      apply (IH (suffix ++ "/" ++ d_name entry)%string (S currentDepth) lx e);
        [| |exact Hbody|exact He].
      * destruct Hs as [->|[s ->]]; right; eexists; cbn; reflexivity.
      * rewrite countChar_app. cbn.
        change (countChar "/" (d_name entry))
          with (countChar PosixPath.sep (d_name entry)).
        rewrite Hname, Hc. unfold PosixPath.sep. cbn. lia.
    + destruct (isFile (d_kind entry)); [|nothing_found Hbody].
      destruct (Nat.eqb (List.length exts) 0
                || JsArray.includes exts
                     (toLowerCase (PosixPath.extname (d_name entry))));
        [|nothing_found Hbody].
      cbn in Hbody. inversion Hbody. subst lx. destruct He as [<-|[]].
      cbn [relativePath mkEntry].
      rewrite (@relative_levels dirPath suffix (d_name entry) Hs Hname). lia.
Qed.

(** C8: with [maxDepth = d], every file entry the walker returns lies
    at most [d] directory levels below the walk root (the number of
    separators of its path relative to the root is at most [d]; it is
    in fact below [d]). *)
Theorem walk_depth_bound (rt : Runtime) (settings : Settings) (root : string)
        (d : nat) (exts skips : list string)
        (files : list FileEntry) (e : FileEntry) :
  plainNames rt ->
  fst (getAllFiles rt settings root
                   {| walkMaxDepth := Some d; extensions := exts;
                      skipDirs := skips |}) = Return files ->
  In e files ->
  levels (relativePath e) <= d.
Proof.
  intros Hplain Hwalk Hin. unfold getAllFiles in Hwalk.
  destruct (negb (PathSecurity.valid (PathSecurity.validatePath rt root)));
    [cbn in Hwalk; discriminate|].
  cbn [walkMaxDepth extensions skipDirs] in Hwalk.
  apply Nat.lt_le_incl.
  apply (@scan_levels rt root d exts (defaultSkipDirs ++ skips) Hplain
                      d "" 0 files e); [left; reflexivity | reflexivity | | exact Hin].
  replace (root ++ "")%string with root; [exact Hwalk|].
  clear. induction root as [|c r IH]; cbn; [reflexivity|]. rewrite <- IH. reflexivity.
Qed.

(** The names of an in-memory tree are checked listing by listing. *)
Ltac check_names :=
  let p := fresh "p" in
  let entries := fresh "entries" in
  let e := fresh "e" in
  let Hread := fresh "Hread" in
  let Hin := fresh "Hin" in
  intros p entries e Hread Hin;
  cbn in Hread;
  repeat match type of Hread with
         | (if ?c then _ else _) = _ => destruct c
         end;
  try discriminate;
  inversion Hread; subst entries; cbn in Hin;
  repeat (destruct Hin as [<-|Hin]; [reflexivity|]);
  destruct Hin.

Lemma deepTree_plainNames : plainNames deepTree.
Proof. check_names. Qed.

(** With [maxDepth = 2] the walk of the three-level tree returns the
    files of the first two levels only. *)
Lemma walk_depth_bound_witness :
  map relativePath
      (listOf (getAllFiles deepTree defaultSettings "/srv/a"
                           {| walkMaxDepth := Some 2; extensions := [];
                              skipDirs := [] |}))
  = ["top.js"; "lib/mid.js"]
  /\ levels (relativePath (mkEntry "/srv/a" "/srv/a/lib/mid.js" "mid.js")) <= 2.
Proof.
  split; [vm_compute; reflexivity|].
  apply (@walk_depth_bound deepTree defaultSettings "/srv/a" 2 [] []
           (listOf (getAllFiles deepTree defaultSettings "/srv/a"
                                {| walkMaxDepth := Some 2; extensions := [];
                                   skipDirs := [] |}))).
  - exact deepTree_plainNames.
  - vm_compute. reflexivity.
  - vm_compute. right. left. reflexivity.
Defined.

End WalkerFacts.

(** ** Batches *)

Module BatchFacts.
Import JsString SmartSearch Notions EngineFacts Scenario.

Lemma chunks_nil {A : Type} (fuel n : nat) : JsArray.chunks fuel n (@nil A) = [].
Proof. destruct fuel; reflexivity. Qed.

Lemma chunks_concat {A : Type} (n : nat) :
  0 < n ->
  forall fuel (l : list A),
    List.length l <= fuel -> List.concat (JsArray.chunks fuel n l) = l.
Proof.
  intros Hn. induction fuel as [|fuel IH]; intros l Hl.
  - destruct l; [reflexivity|cbn in Hl; lia].
  - destruct l as [|a l']; [reflexivity|].
    cbn [JsArray.chunks List.concat]. rewrite IH.
    + apply firstn_skipn.
    + rewrite length_skipn. cbn [List.length] in *. lia.
Qed.

Lemma chunks_sizes {A : Type} (n : nat) :
  0 < n ->
  forall fuel (l : list A) pre b post,
    JsArray.chunks fuel n l = pre ++ b :: post ->
    1 <= List.length b <= n /\ (post <> [] -> List.length b = n).
Proof.
  intros Hn. induction fuel as [|fuel IH]; intros l pre b post H.
  - cbn in H. destruct pre; discriminate.
  - destruct l as [|a l']; [cbn in H; destruct pre; discriminate|].
    cbn [JsArray.chunks] in H.
    destruct pre as [|p pre']; cbn [app] in H; inversion H as [[Hb Hpost]].
    + split.
      * rewrite length_firstn. cbn [List.length]. lia.
      * intros Hne. rewrite length_firstn.
        destruct (Nat.le_gt_cases (List.length (a :: l')) n) as [Hle|Hgt]; [|lia].
        exfalso. apply Hne. rewrite skipn_all2 by exact Hle.
        apply chunks_nil.
    + eapply IH. eassumption.
Qed.

Lemma guarded_returns (f : FileEntry -> M (list SearchResult)) (file_ : FileEntry) :
  returns (guarded f file_).
Proof. apply returns_tryCatch. intros e. apply returns_tell_then, returns_ret. Qed.

Lemma runBatch_value (f : FileEntry -> M (list SearchResult))
      (batch : list FileEntry) :
  fst (runBatch f batch)
  = Return (flat_map (fun file_ => listOf (guarded f file_)) batch).
Proof.
  unfold runBatch. apply forEachM_flat_map. intros x _. apply guarded_returns.
Qed.

Lemma batchLoop_step (settings : Settings)
      (f : FileEntry -> M (list SearchResult))
      (batch : list FileEntry) (rest : list (list FileEntry))
      (acc : list SearchResult) :
  fst (batchLoop settings f (batch :: rest) acc)
  = if maxResults settings <=? List.length (acc ++ listOf (runBatch f batch))
    then Return (acc ++ listOf (runBatch f batch))
    else fst (batchLoop settings f rest (acc ++ listOf (runBatch f batch))).
Proof.
  cbn [batchLoop].
  rewrite (fst_bind_Return _ _ (runBatch_value f batch)).
  rewrite (listOf_Return _ (runBatch_value f batch)).
  destruct (maxResults settings <=? _); reflexivity.
Qed.

(** The results of the loop are those of the files of the first [k]
    batches, for some [k]. *)
Lemma batchLoop_prefix (settings : Settings)
      (f : FileEntry -> M (list SearchResult)) :
  forall (batches : list (list FileEntry)) (acc : list SearchResult),
  exists k,
    fst (batchLoop settings f batches acc)
    = Return (acc ++ flat_map (fun file_ => listOf (guarded f file_))
                              (List.concat (firstn k batches))).
Proof.
  induction batches as [|batch rest IH]; intros acc.
  - exists 0. cbn. rewrite app_nil_r. reflexivity.
  - rewrite batchLoop_step. rewrite (listOf_Return _ (runBatch_value f batch)).
    destruct (maxResults settings <=? _).
    + exists 1. cbn [firstn List.concat]. rewrite app_nil_r. reflexivity.
    + destruct (IH (acc ++ flat_map (fun file_ => listOf (guarded f file_)) batch))
        as [k Hk].
      exists (S k). rewrite Hk. cbn [firstn List.concat].
      rewrite flat_map_app, app_assoc. reflexivity.
Qed.

(** The batches are consecutive slices of the file list. *)
Lemma batches_are_slices (settings : Settings)
      (files : list FileEntry) :
  List.concat (batchesOf settings files) = files
  /\ (forall pre b post,
         batchesOf settings files = pre ++ b :: post ->
         1 <= List.length b <= Pos.to_nat (batchSize settings)
         /\ (post <> [] -> List.length b = Pos.to_nat (batchSize settings))).
Proof.
  split.
  - apply chunks_concat; [apply Pos2Nat.is_pos | apply Nat.le_refl].
  - intros pre b post H. eapply chunks_sizes; [apply Pos2Nat.is_pos | exact H].
Qed.

(** C6, as stated, fails: a search asked for at most one result, on an
    engine whose own ceiling is 500 and whose batches hold one file,
    has one result after the first batch, which is the requested
    maximum, and still processes the second batch: two files are
    reported as processed. *)
Lemma caller_ceiling_does_not_stop_batches :
  let files := discovered twoRoots oneByOne ["/srv/a"; "/srv/b"] (atMost 1) in
  let f := searchFunction twoRoots oneByOne "foo" false 3 in
  List.length (batchesOf oneByOne files) = 2
  /\ ceiling oneByOne (atMost 1)
     <= List.length (listOf (runBatch f (hd [] (batchesOf oneByOne files))))
  /\ processedOf (smartSearch twoRoots oneByOne "foo" ["/srv/a"; "/srv/b"]
                              (atMost 1)) = 2.
Proof.
  cbv zeta. split; [vm_compute; reflexivity|].
  split; [vm_compute; lia | vm_compute; reflexivity].
Qed.

(** C6, amended: the files are processed in batches of [batchSize]
    (the batches are consecutive slices of the file list, every batch
    but the last of exactly [batchSize] files), and after a batch the
    remaining batches are skipped as soon as the running result count
    has reached the engine's own ceiling [this.maxResults]; the
    maximum the caller asks for plays no part in the loop.  Below the
    ceiling the loop goes on with the next batch. *)
Theorem batches_and_early_termination
        (settings : Settings) (files : list FileEntry)
        (f : FileEntry -> M (list SearchResult))
        (batch : list FileEntry) (rest : list (list FileEntry))
        (acc : list SearchResult) :
  List.concat (batchesOf settings files) = files
  /\ (forall pre b post,
         batchesOf settings files = pre ++ b :: post ->
         1 <= List.length b <= Pos.to_nat (batchSize settings)
         /\ (post <> [] -> List.length b = Pos.to_nat (batchSize settings)))
  /\ (maxResults settings <= List.length (acc ++ listOf (runBatch f batch)) ->
      batchLoop settings f (batch :: rest) acc = batchLoop settings f [batch] acc)
  /\ (List.length (acc ++ listOf (runBatch f batch)) < maxResults settings ->
      fst (batchLoop settings f (batch :: rest) acc)
      = fst (batchLoop settings f rest (acc ++ listOf (runBatch f batch)))).
Proof.
  destruct (batches_are_slices settings files) as [Hc Hs].
  split; [exact Hc|]. split; [exact Hs|]. split.
  - intros Hreached. cbn [batchLoop]. unfold listOf in Hreached.
    destruct (runBatch f batch) as [[r|e] s]; cbn [fst] in Hreached; [|reflexivity].
    cbn [bind]. apply Nat.leb_le in Hreached. rewrite Hreached. reflexivity.
  - intros Hbelow. rewrite batchLoop_step.
    apply Nat.leb_gt in Hbelow. rewrite Hbelow. reflexivity.
Qed.

(** On an engine whose own ceiling is one, the first batch reaches it
    and the second batch is not run: one file is processed. *)
Lemma batches_and_early_termination_witness :
  let files := discovered twoRoots stopAtOne ["/srv/a"; "/srv/b"] noOptions in
  let f := searchFunction twoRoots stopAtOne "foo" false 3 in
  batchLoop stopAtOne f (firstn 1 files :: [skipn 1 files]) []
  = batchLoop stopAtOne f [firstn 1 files] []
  /\ processedOf (smartSearch twoRoots stopAtOne "foo" ["/srv/a"; "/srv/b"]
                              noOptions) = 1.
Proof.
  cbv zeta. split; [|vm_compute; reflexivity].
  apply (batches_and_early_termination
           stopAtOne (discovered twoRoots stopAtOne ["/srv/a"; "/srv/b"] noOptions)
           (searchFunction twoRoots stopAtOne "foo" false 3)).
  vm_compute. lia.
Defined.

End BatchFacts.

(** ** The search never throws *)

Module SearchFacts.
Import JsString SmartSearch Notions EngineFacts BatchFacts.

Lemma validFilesOf_returns (rt : Runtime) (settings : Settings)
      (types excludePatterns : list string) (searchPath : string) :
  returns (validFilesOf rt settings types excludePatterns searchPath).
Proof. apply returns_tryCatch. intros e. apply returns_tell_then, returns_ret. Qed.

(** The value of [allFiles] in [smartSearch]. *)
Lemma discovered_value (rt : Runtime) (settings : Settings)
      (paths : list string) (options : SearchOptions) :
  fst (forEachM (validFilesOf rt settings
                              (orDefault (optFileTypes options) ["all"])
                              (optExcludePatterns options)) paths)
  = Return (discovered rt settings paths options).
Proof.
  unfold discovered.
  destruct (returns_forEachM
              (validFilesOf rt settings (orDefault (optFileTypes options) ["all"])
                            (optExcludePatterns options)) paths) as [l Hl].
  - intros x _. apply validFilesOf_returns.
  - rewrite (listOf_Return _ Hl). exact Hl.
Qed.

Lemma processFilesInBatches_returns (settings : Settings)
      (files : list FileEntry) (f : FileEntry -> M (list SearchResult)) :
  returns (processFilesInBatches settings files f).
Proof.
  unfold processFilesInBatches.
  destruct (batchLoop_prefix settings f (batchesOf settings files) []) as [k Hk].
  eexists. exact Hk.
Qed.

(** An inherited name is no own key of the table. *)
Lemma inherited_not_own (type : string) :
  JsArray.includes objectPrototypeKeys type = true -> mapping type = None.
Proof.
  unfold JsArray.includes. rewrite existsb_exists.
  intros [k [Hin Heq]]. apply String.eqb_eq in Heq. subst k.
  repeat (destruct Hin as [<-|Hin]; [reflexivity|]). destruct Hin.
Qed.

Lemma typeMappingAt_Inherited (type : string) :
  typeMappingAt type = Inherited
  <-> JsArray.includes objectPrototypeKeys type = true.
Proof.
  unfold typeMappingAt. split.
  - destruct (mapping type); [discriminate|].
    destruct (JsArray.includes objectPrototypeKeys type);
      [reflexivity | discriminate].
  - intros H. rewrite (inherited_not_own _ H), H. reflexivity.
Qed.

Lemma allowedTypesOf_returns (otherwise : string -> list string)
      (types : list string) :
  forallb (fun type => negb (JsArray.includes objectPrototypeKeys type)) types
  = true ->
  returns (allowedTypesOf otherwise types).
Proof.
  intros H. apply returns_forEachM. intros type Hin.
  rewrite forallb_forall in H. specialize (H type Hin).
  apply negb_true_iff in H.
  destruct (typeMappingAt type) eqn:E; try apply returns_ret.
  apply typeMappingAt_Inherited in E. rewrite E in H. discriminate.
Qed.

Lemma allowedTypesOf_throws (otherwise : string -> list string)
      (types : list string) :
  forallb (fun type => negb (JsArray.includes objectPrototypeKeys type)) types
  = false ->
  fst (allowedTypesOf otherwise types)
  = Throw "typeMapping[type].forEach is not a function".
Proof.
  unfold allowedTypesOf.
  induction types as [|type tl IH]; cbn [forallb forEachM]; [discriminate|].
  intros H. destruct (typeMappingAt type) as [listed| |] eqn:E.
  - assert (Hn : JsArray.includes objectPrototypeKeys type = false).
    { destruct (JsArray.includes objectPrototypeKeys type) eqn:Hi; [|reflexivity].
      apply typeMappingAt_Inherited in Hi. rewrite Hi in E. discriminate. }
    rewrite Hn in H. cbn [negb andb] in H.
    rewrite (fst_bind_Return (ret listed) _ (a := listed) eq_refl).
    apply fst_bind_Throw, IH, H.
  - reflexivity.
  - assert (Hn : JsArray.includes objectPrototypeKeys type = false).
    { destruct (JsArray.includes objectPrototypeKeys type) eqn:Hi; [|reflexivity].
      apply typeMappingAt_Inherited in Hi. rewrite Hi in E. discriminate. }
    rewrite Hn in H. cbn [negb andb] in H.
    rewrite (fst_bind_Return (ret (otherwise type)) _ (a := otherwise type) eq_refl).
    apply fst_bind_Throw, IH, H.
Qed.

Lemma filterFilesByType_returns (files : list FileEntry) (types : list string) :
  plainTypes types = true -> returns (filterFilesByType files types).
Proof.
  unfold plainTypes, filterFilesByType. intros H.
  destruct (JsArray.includes types "all"); [apply returns_ret|].
  apply returns_bind; [apply allowedTypesOf_returns, H|].
  intros allowed. apply returns_ret.
Qed.

(** With an inherited name among the types the type filter throws,
    whatever the files are. *)
Lemma filterFilesByType_throws (files : list FileEntry) (types : list string) :
  plainTypes types = false ->
  fst (filterFilesByType files types)
  = Throw "typeMapping[type].forEach is not a function".
Proof.
  unfold plainTypes, filterFilesByType. intros H.
  destruct (JsArray.includes types "all"); [discriminate|].
  apply fst_bind_Throw, allowedTypesOf_throws, H.
Qed.

Lemma filterFilesByType_nil (types : list string) (filtered : list FileEntry) :
  fst (filterFilesByType [] types) = Return filtered -> filtered = [].
Proof.
  unfold filterFilesByType.
  destruct (JsArray.includes types "all").
  - cbn. intros H. inversion H. reflexivity.
  - intros H. apply fst_bind_inv in H. destruct H as [allowed [_ H]].
    cbn in H. inversion H. reflexivity.
Qed.

Lemma searchCore_returns (rt : Runtime) (settings : Settings) (query_ : string)
      (paths : list string) (options : SearchOptions) :
  plainTypes (typesOf options) = true ->
  returns (searchCore rt settings query_ paths options).
Proof.
  intros Hplain. unfold searchCore. apply returns_bind.
  - eexists. apply discovered_value.
  - intros allFiles. apply returns_bind.
    + apply filterFilesByType_returns, Hplain.
    + intros filtered. destruct (Nat.eqb _ 0); [apply returns_ret|].
      apply returns_bind; [apply processFilesInBatches_returns|].
      intros allResults. apply returns_ret.
Qed.

(** Every exception raised inside a search is handled inside it,
    except the [TypeError] of the type filter. *)
Lemma smartSearch_returns (rt : Runtime) (settings : Settings) (query_ : string)
      (paths : list string) (options : SearchOptions) :
  plainTypes (typesOf options) = true ->
  returns (smartSearch rt settings query_ paths options).
Proof.
  intros Hplain.
  destruct (searchCore_returns rt settings query_ paths options Hplain)
    as [core Hcore].
  unfold smartSearch. destruct (searchCore rt settings query_ paths options)
    as [[[[[found total] filtered] msg]|e] stats]; cbn in Hcore; [|discriminate].
  eexists. reflexivity.
Qed.

Lemma smartSearch_throws (rt : Runtime) (settings : Settings) (query_ : string)
      (paths : list string) (options : SearchOptions) :
  plainTypes (typesOf options) = false ->
  fst (smartSearch rt settings query_ paths options)
  = Throw "typeMapping[type].forEach is not a function".
Proof.
  intros Hplain.
  assert (Hcore : fst (searchCore rt settings query_ paths options)
                  = Throw "typeMapping[type].forEach is not a function").
  { unfold searchCore.
    rewrite (fst_bind_Return _ _ (discovered_value rt settings paths options)).
    apply fst_bind_Throw, filterFilesByType_throws, Hplain. }
  unfold smartSearch. destruct (searchCore rt settings query_ paths options)
    as [[[[[found total] filtered] msg]|e] stats]; cbn in Hcore; [discriminate|].
  cbn. inversion Hcore. reflexivity.
Qed.

(** The results of a search, in terms of its core. *)
Lemma smartSearch_results (rt : Runtime) (settings : Settings) (query_ : string)
      (paths : list string) (options : SearchOptions) (response : SearchResponse) :
  fst (smartSearch rt settings query_ paths options) = Return response ->
  exists total filtered msg,
    fst (searchCore rt settings query_ paths options)
    = Return (results response, total, filtered, msg).
Proof.
  unfold smartSearch. destruct (searchCore rt settings query_ paths options)
    as [[[[[found total] filtered] msg]|e] stats]; cbn; intros H; [|discriminate].
  inversion H. cbn. exists total, filtered, msg. reflexivity.
Qed.

(** A search that discovers no file has no result. *)
Lemma no_files_no_results (rt : Runtime) (settings : Settings) (query_ : string)
      (paths : list string) (options : SearchOptions) (response : SearchResponse) :
  discovered rt settings paths options = [] ->
  fst (smartSearch rt settings query_ paths options) = Return response ->
  results response = [].
Proof.
  intros Hnone Hsearch.
  destruct (smartSearch_results _ _ _ _ _ Hsearch) as [total [filtered [msg Hcore]]].
  unfold searchCore in Hcore.
  rewrite (fst_bind_Return _ _ (discovered_value rt settings paths options)) in Hcore.
  rewrite Hnone in Hcore.
  apply fst_bind_inv in Hcore. destruct Hcore as [filtered' [Hf Hcore]].
  apply filterFilesByType_nil in Hf. subst filtered'.
  cbn in Hcore. inversion Hcore. reflexivity.
Qed.

End SearchFacts.

(** ** The log tracer *)

Module TraceFacts.
Import JsString SmartSearch LogTracer Notions EngineFacts SearchFacts Scenario.

Section Trace.
Variable rt : Runtime.
Variable settings : Settings.
Variable log : string.
Variable paths : list string.
Variable options : SearchOptions.

(** The file types of the searches of the trace can be looked up. *)
Hypothesis plain : plainTypes (typesOf (traceOptions options)) = true.

Lemma trySearch_returns (query_ context_ : string) (st : TraceState) :
  returns (trySearch rt settings log paths options query_ context_ st).
Proof.
  unfold trySearch. destruct (_ || _); [apply returns_ret|].
  apply returns_bind; [apply smartSearch_returns, plain|].
  intros r. apply returns_ret.
Qed.

Lemma searchEach_returns (guard : string -> bool) (prep : string -> string)
      (context_ : string) (queries : list string) :
  forall st,
    returns (searchEach rt settings log paths options guard prep context_
                        queries st).
Proof.
  induction queries as [|q tl IH]; intros st; cbn [searchEach].
  - apply returns_ret.
  - destruct (guard q); [|apply IH].
    apply returns_bind; [apply trySearch_returns|].
    intros st'. destruct (5 <=? _); [apply returns_ret|apply IH].
Qed.

Lemma trace_returns :
  returns (traceErrorLogToSource rt settings log paths options).
Proof.
  unfold traceErrorLogToSource.
  apply returns_bind; [apply searchEach_returns|]. intros st1.
  apply returns_bind.
  { destruct (_ <? 3); [apply trySearch_returns|apply returns_ret]. }
  intros st2. apply returns_bind.
  { destruct (_ <? 3); [|apply returns_ret].
    apply returns_bind; [apply trySearch_returns|].
    intros st. apply searchEach_returns. }
  intros st3. apply returns_bind.
  { destruct (_ <? 3); [apply searchEach_returns|apply returns_ret]. }
  intros st4. destruct (Nat.eqb _ 0); apply returns_ret.
Qed.

(** A query of fewer than three characters is not searched, so only
    the longer ones have to be silent. *)
Lemma trySearch_empty (query_ context_ : string) (st st' : TraceState) :
  (3 <= String.length query_ -> silent rt settings paths options query_) ->
  found st = [] ->
  fst (trySearch rt settings log paths options query_ context_ st) = Return st' ->
  found st' = [].
Proof.
  intros Hsilent Hst. unfold trySearch.
  destruct (JsArray.includes (searchedQueries st) query_); cbn [orb].
  { cbn. intros H. inversion H. subst. exact Hst. }
  destruct (String.length query_ <? 3) eqn:Hshort.
  - cbn. intros H. inversion H. subst. exact Hst.
  - apply Nat.ltb_ge in Hshort.
    intros H. apply fst_bind_inv in H. destruct H as [r [Hr H]].
    cbn in H. inversion H. cbn. rewrite Hst, (Hsilent Hshort _ Hr). reflexivity.
Qed.

Lemma searchEach_empty (guard : string -> bool) (prep : string -> string)
      (context_ : string) (queries : list string) :
  (forall q, In q queries -> guard q = true ->
             3 <= String.length (prep q) ->
             silent rt settings paths options (prep q)) ->
  forall st st',
    found st = [] ->
    fst (searchEach rt settings log paths options guard prep context_
                    queries st) = Return st' ->
    found st' = [].
Proof.
  induction queries as [|q tl IH]; intros Hq st st' Hst; cbn [searchEach].
  - cbn. intros H. inversion H. subst. exact Hst.
  - assert (Htl : forall q', In q' tl -> guard q' = true ->
                             3 <= String.length (prep q') ->
                             silent rt settings paths options (prep q'))
      by (intros q' Hin; apply Hq; right; exact Hin).
    destruct (guard q) eqn:Hguard; [|apply (IH Htl); exact Hst].
    intros H. apply fst_bind_inv in H. destruct H as [st1 [H1 H]].
    pose proof (@trySearch_empty _ _ _ _ (Hq q (or_introl eq_refl) Hguard) Hst H1)
      as Hst1.
    rewrite Hst1 in H. cbn [List.length Nat.leb] in H.
    exact (IH Htl _ _ Hst1 H).
Qed.

(** The queries of each strategy are strategy queries. *)
Lemma key_phrase_query (q : string) :
  In q (extractKeyPhrases log) -> In q (strategyQueries log).
Proof. intros H. unfold strategyQueries. apply in_or_app. left. exact H. Qed.

Lemma light_query :
  In (LogNormalizer.normalizeLogText log "light") (strategyQueries log).
Proof.
  unfold strategyQueries. apply in_or_app. right. apply in_or_app. left.
  left. reflexivity.
Qed.

Lemma moderate_query :
  In (LogNormalizer.normalizeLogText log "moderate") (strategyQueries log).
Proof.
  unfold strategyQueries. apply in_or_app. right. apply in_or_app. right.
  apply in_or_app. left. left. reflexivity.
Qed.

Unset Implicit Arguments.

Lemma phrase_part_query (q : string) :
  In q (JsRegExp.split JsPattern.noFlags (JsPattern.lit "[:\-|]")
                       (LogNormalizer.normalizeLogText log "moderate")) ->
  (10 <? String.length q) = true ->
  In (trim q) (strategyQueries log).
Proof.
  intros Hin Hguard. unfold strategyQueries. apply in_or_app. right.
  apply in_or_app. right. apply in_or_app. right. apply in_or_app. left.
  apply in_map. apply filter_In. split; assumption.
Qed.

Set Implicit Arguments.

Lemma error_type_query (q : string) :
  In q (extractErrorTypes log) -> In q (strategyQueries log).
Proof.
  intros H. unfold strategyQueries. apply in_or_app. right.
  apply in_or_app. right. apply in_or_app. right. apply in_or_app. right.
  exact H.
Qed.

(** No query the strategies search has a result. *)
Hypothesis nothing_found :
  forall q, In q (strategyQueries log) -> 3 <= String.length q ->
            silent rt settings paths options q.

Lemma trace_sentinel :
  fst (traceErrorLogToSource rt settings log paths options) = Return sentinel.
Proof.
  destruct trace_returns as [s Hs]. rewrite Hs. f_equal.
  unfold traceErrorLogToSource in Hs.
  apply fst_bind_inv in Hs. destruct Hs as [st1 [H1 Hs]].
  assert (E1 : found st1 = []).
  { apply (@searchEach_empty _ _ _ _) with (st := {| found := []; searchedQueries := [] |})
      in H1; [exact H1 | | reflexivity].
    intros q Hin _. apply nothing_found, key_phrase_query, Hin. }
  apply fst_bind_inv in Hs. destruct Hs as [st2 [H2 Hs]].
  rewrite E1 in H2. cbn [List.length Nat.ltb Nat.leb] in H2.
  assert (E2 : found st2 = []).
  { apply (@trySearch_empty _ _ _ _) in H2; [exact H2 | | exact E1].
    apply nothing_found, light_query. }
  apply fst_bind_inv in Hs. destruct Hs as [st3 [H3 Hs]].
  rewrite E2 in H3. cbn [List.length Nat.ltb Nat.leb] in H3.
  apply fst_bind_inv in H3. destruct H3 as [st3' [H3' H3]].
  assert (E3' : found st3' = []).
  { apply (@trySearch_empty _ _ _ _) in H3'; [exact H3' | | exact E2].
    apply nothing_found, moderate_query. }
  assert (E3 : found st3 = []).
  { apply (@searchEach_empty _ _ _ _) with (st := st3') in H3; [exact H3 | | exact E3'].
    intros q Hin Hguard. apply nothing_found.
    exact (phrase_part_query q Hin Hguard). }
  apply fst_bind_inv in Hs. destruct Hs as [st4 [H4 Hs]].
  rewrite E3 in H4. cbn [List.length Nat.ltb Nat.leb] in H4.
  assert (E4 : found st4 = []).
  { apply (@searchEach_empty _ _ _ _) with (st := st3) in H4; [exact H4 | | exact E3].
    intros q Hin _. apply nothing_found, error_type_query, Hin. }
  rewrite E4 in Hs. cbn in Hs. inversion Hs. reflexivity.
Qed.

End Trace.

(** With the default file types of the trace, and with every
    [fileTypes] option that holds [all] or no name inherited from
    [Object.prototype], the trace returns a string for every log text
    and every set of search roots: every exception raised by the path
    guard, the file system or a malformed pattern is handled inside
    it.  When none of the queries its strategies search (key phrases,
    light normalisation, moderate normalisation and its sub-phrases,
    error-type tokens; a query of fewer than three characters is never
    searched) has any result, the string is exactly the sentinel
    [No matching source found for the error log.]. *)
Theorem trace_never_throws
        (rt : Runtime) (settings : Settings) (log : string)
        (paths : list string) (options : SearchOptions) :
  plainTypes (typesOf (traceOptions options)) = true ->
  returns (traceErrorLogToSource rt settings log paths options)
  /\ ((forall q, In q (strategyQueries log) -> 3 <= String.length q ->
                 silent rt settings paths options q) ->
      fst (traceErrorLogToSource rt settings log paths options)
      = Return "No matching source found for the error log.").
Proof.
  intros Hplain. split; [apply trace_returns, Hplain|].
  intros H. apply trace_sentinel; assumption.
Qed.

(** On a file system without directories every search is empty and the
    trace of a log with key phrases and error types is the sentinel;
    the options are the default ones. *)
Lemma trace_never_throws_witness :
  strategyQueries "TypeError: bad at foo (x.js:2) Error: connection failed"
  = [ "foo"; "bad at foo (x"; "connection failed"; "x.js";
      "TypeError: bad at foo (x.js:2) Error: connection failed";
      "type error: bad at foo (x.js:num) error: connection failed";
      "bad at foo (x.js"; "connection failed"; "TypeError"; "Error" ]
  /\ returns (traceErrorLogToSource emptyFs defaultSettings
                "TypeError: bad at foo (x.js:2) Error: connection failed"
                ["/srv/none"] noOptions)
  /\ fst (traceErrorLogToSource emptyFs defaultSettings
             "TypeError: bad at foo (x.js:2) Error: connection failed"
             ["/srv/none"] noOptions)
     = Return "No matching source found for the error log.".
Proof.
  split; [vm_compute; reflexivity|].
  destruct (@trace_never_throws emptyFs defaultSettings
              "TypeError: bad at foo (x.js:2) Error: connection failed"
              ["/srv/none"] noOptions) as [Hreturns Hsentinel].
  - reflexivity.
  - split; [exact Hreturns|]. apply Hsentinel.
    intros q _ _ response. apply no_files_no_results.
    vm_compute. reflexivity.
Defined.

(** C3 fails on a [fileTypes] option that holds a name inherited from
    [Object.prototype]: for the log [TypeError: bad at foo (x.js:2)],
    the root [/srv/a] and the file types [constructor], the first
    search of the trace throws the [TypeError] of [filterFilesByType],
    and nothing in [smartSearch] or in the trace catches it. *)
Lemma trace_throws_on_inherited_type :
  fst (traceErrorLogToSource twoRoots defaultSettings
         "TypeError: bad at foo (x.js:2)" ["/srv/a"]
         {| optFileTypes := Some ["constructor"]; optMaxResults := None;
            optMaxFiles := None; optCaseSensitive := None;
            optContextLines := None; optExcludePatterns := [] |})
  = Throw "typeMapping[type].forEach is not a function".
Proof. vm_compute. reflexivity. Qed.

End TraceFacts.

(** ** Sorting and deduplication *)

Module SortFacts.
Import SmartSearch Notions.

Section Sort.
Variable A : Type.
Variable cmp : A -> A -> Z.

Lemma insert_perm (x : A) (l : list A) :
  Permutation (JsArray.insert cmp x l) (x :: l).
Proof.
  induction l as [|y tl IH]; cbn [JsArray.insert]; [apply Permutation_refl|].
  destruct (cmp x y <=? 0)%Z; [apply Permutation_refl|].
  apply perm_trans with (y :: x :: tl); [apply perm_skip, IH | apply perm_swap].
Qed.

Lemma sort_perm (l : list A) : Permutation (JsArray.sort cmp l) l.
Proof.
  induction l as [|x tl IH]; cbn; [apply perm_nil|].
  apply perm_trans with (x :: JsArray.sort cmp tl);
    [apply insert_perm | apply perm_skip, IH].
Qed.

(** [R] is the order the comparator stands for. *)
Variable R : A -> A -> Prop.
Hypothesis cmp_le : forall x y, (cmp x y <= 0)%Z -> R x y.
Hypothesis cmp_gt : forall x y, (0 < cmp x y)%Z -> R y x.

Lemma insert_HdRel (x y : A) (l : list A) :
  HdRel R y l -> R y x -> HdRel R y (JsArray.insert cmp x l).
Proof.
  intros Hl Hx. destruct l as [|z tl]; cbn [JsArray.insert].
  - constructor. exact Hx.
  - destruct (cmp x z <=? 0)%Z; constructor; [exact Hx|].
    inversion Hl. assumption.
Qed.

Lemma insert_Sorted (x : A) (l : list A) :
  Sorted R l -> Sorted R (JsArray.insert cmp x l).
Proof.
  induction l as [|y tl IH]; intros Hl; cbn [JsArray.insert].
  - repeat constructor.
  - destruct (cmp x y <=? 0)%Z eqn:E.
    + constructor; [exact Hl|]. constructor. apply cmp_le, Z.leb_le, E.
    + inversion Hl as [|? ? Htl Hhd]. subst. constructor; [apply IH, Htl|].
      apply insert_HdRel; [exact Hhd|]. apply cmp_gt.
      apply Z.leb_gt in E. exact E.
Qed.

Lemma sort_Sorted (l : list A) : Sorted R (JsArray.sort cmp l).
Proof.
  induction l as [|x tl IH]; cbn; [constructor|]. apply insert_Sorted, IH.
Qed.

Lemma firstn_Sorted (n : nat) (l : list A) : Sorted R l -> Sorted R (firstn n l).
Proof.
  revert l. induction n as [|n IH]; intros l Hl; [constructor|].
  destruct l as [|x tl]; [constructor|]. cbn [firstn].
  inversion Hl as [|? ? Htl Hhd]. subst. constructor; [apply IH, Htl|].
  destruct tl as [|y tl']; [destruct n; constructor|].
  destruct n; [constructor|]. cbn [firstn]. constructor.
  inversion Hhd. assumption.
Qed.

End Sort.

Lemma slice_from_0 {A : Type} (l : list A) (n : nat) :
  JsArray.slice l 0 n = firstn n l.
Proof. unfold JsArray.slice. rewrite Nat.sub_0_r. reflexivity. Qed.

Lemma nodup_app_l {A : Type} (l l' : list A) : NoDup (l ++ l') -> NoDup l.
Proof.
  induction l as [|x tl IH]; intros H; [constructor|].
  inversion H as [|? ? Hx Htl]. subst. constructor.
  - intros Hin. apply Hx, in_or_app. left. exact Hin.
  - apply IH, Htl.
Qed.

Lemma nodup_firstn {A : Type} (n : nat) (l : list A) : NoDup l -> NoDup (firstn n l).
Proof.
  intros H. rewrite <- (firstn_skipn n l) in H. exact (nodup_app_l _ _ H).
Qed.

Lemma nodup_app_intro {A : Type} (l l' : list A) :
  NoDup l -> NoDup l' -> (forall x, In x l -> ~ In x l') -> NoDup (l ++ l').
Proof.
  induction l as [|x tl IH]; intros Hl Hl' Hd; [exact Hl'|].
  inversion Hl as [|? ? Hx Htl]. subst. cbn. constructor.
  - intros Hin. apply in_app_or in Hin. destruct Hin as [Hin|Hin].
    + exact (Hx Hin).
    + exact (Hd x (or_introl eq_refl) Hin).
  - apply IH; [exact Htl | exact Hl' |].
    intros y Hy. apply Hd. right. exact Hy.
Qed.

(** ** One file has one match per line *)

Lemma mapSet_keys (k k' : nat) (v : Match) (m : list (nat * Match)) :
  In k' (map fst (mapSet k v m)) -> k' = k \/ In k' (map fst m).
Proof.
  induction m as [|[k0 v0] tl IH]; cbn [mapSet map fst In].
  - intros [H|[]]. left. symmetry. exact H.
  - destruct (Nat.eqb k0 k) eqn:E; cbn [map fst In].
    + intros [H|H]; right; [left; exact H | right; exact H].
    + intros [H|H]; [right; left; exact H|].
      destruct (IH H) as [Hk|Hk]; [left; exact Hk | right; right; exact Hk].
Qed.

Lemma mapSet_keyed (v : Match) (m : list (nat * Match)) :
  keyed m -> keyed (mapSet (line v) v m).
Proof.
  intros [Hnd Hall]. induction m as [|[k0 v0] tl IH]; cbn [mapSet].
  - split; [repeat constructor; intros []|]. repeat constructor.
  - cbn [map fst] in Hnd. inversion Hnd as [|? ? Hk0 Htl]. subst.
    inversion Hall as [|? ? Hv0 Hall']. subst.
    destruct (Nat.eqb k0 (line v)) eqn:E.
    + split; [exact Hnd|]. constructor; [|exact Hall'].
      cbn. apply Nat.eqb_eq in E. symmetry. exact E.
    + destruct (IH Htl Hall') as [Hnd' Hall''].
      split; [|constructor; assumption].
      cbn [map fst]. constructor; [|exact Hnd'].
      intros Hin. apply mapSet_keys in Hin. destruct Hin as [Hin|Hin].
      * apply Nat.eqb_neq in E. exact (E Hin).
      * exact (Hk0 Hin).
Qed.

Lemma uniqueByLine_keyed (results_ : list Match) : keyed (uniqueByLine results_).
Proof.
  unfold uniqueByLine.
  assert (H : forall m, keyed m ->
              keyed (fold_left
                       (fun m result =>
                          match mapGet (line result) m with
                          | None => mapSet (line result) result m
                          | Some existing =>
                              if (relevanceScore existing <? relevanceScore result)%Z
                              then mapSet (line result) result m
                              else m
                          end) results_ m)).
  { induction results_ as [|r tl IH]; intros m Hm; [exact Hm|].
    cbn [fold_left]. apply IH.
    destruct (mapGet (line r) m) as [existing|].
    - destruct (relevanceScore existing <? relevanceScore r)%Z;
        [apply mapSet_keyed, Hm | exact Hm].
    - apply mapSet_keyed, Hm. }
  apply H. split; constructor.
Qed.

Lemma keyed_lines (m : list (nat * Match)) :
  keyed m -> NoDup (map line (map snd m)).
Proof.
  intros [Hnd Hall]. replace (map line (map snd m)) with (map fst m); [exact Hnd|].
  induction Hall as [|e tl He Htl IH]; [reflexivity|].
  cbn [map]. rewrite He. f_equal. apply IH.
  cbn [map] in Hnd. inversion Hnd. assumption.
Qed.

Lemma deduplicateAndScore_lines (results_ : list Match) :
  NoDup (map line (deduplicateAndScore results_)).
Proof.
  unfold deduplicateAndScore.
  apply (Permutation_NoDup (l := map line (map snd (uniqueByLine results_)))).
  - apply Permutation_map, Permutation_sym, sort_perm.
  - apply keyed_lines, uniqueByLine_keyed.
Qed.

End SortFacts.

(** ** The result list of a search *)

Module ResultFacts.
Import JsString SmartSearch Notions EngineFacts BatchFacts SearchFacts SortFacts
       Scenario.

(** The matches [smartSearchInFile] returns lie on distinct lines. *)
Lemma smartSearchInFile_lines (rt : Runtime) (settings : Settings)
      (filePath query_ : string) (caseSensitive : bool)
      (maxMatches contextLines : nat) (ms : list Match) :
  fst (smartSearchInFile rt settings filePath query_ caseSensitive
                         maxMatches contextLines) = Return ms ->
  NoDup (map line ms).
Proof.
  unfold smartSearchInFile.
  destruct (negb (PathSecurity.valid (PathSecurity.validatePath rt filePath))).
  { cbn. intros H. inversion H. constructor. }
  match goal with
  | |- fst (tryCatch ?body ?h) = _ -> _ => destruct (fst body) as [a|e] eqn:Hbody
  end.
  2:{ rewrite (fst_tryCatch_Throw _ _ Hbody). cbn. intros H. inversion H. constructor. }
  rewrite (fst_tryCatch_Return _ _ Hbody). intros H. inversion H. subst a. clear H.
  destruct (stat rt filePath) as [size|]; [|cbn in Hbody; discriminate].
  cbn [orThrow] in Hbody.
  rewrite (fst_bind_Return (ret size) _ (a := size) eq_refl) in Hbody.
  destruct (maxFileSize settings <? size)%Z.
  { cbn in Hbody. inversion Hbody. constructor. }
  destruct (readFile rt filePath) as [content_|].
  2:{ cbn in Hbody. inversion Hbody. constructor. }
  cbn in Hbody. inversion Hbody.
  rewrite slice_from_0. rewrite <- firstn_map.
  apply nodup_firstn, deduplicateAndScore_lines.
Qed.

(** What one file contributes to the results: its matches, on
    distinct lines, with the metadata of the file. *)
Lemma guarded_search (rt : Runtime) (settings : Settings) (query_ : string)
      (caseSensitive : bool) (contextLines : nat) (file_ : FileEntry) :
  exists ms,
    listOf (guarded (searchFunction rt settings query_ caseSensitive contextLines)
                    file_)
    = map (withFile file_) ms
    /\ NoDup (map line ms).
Proof.
  destruct (MatchingFacts.smartSearchInFile_returns
              rt settings (path file_) query_ caseSensitive 3 contextLines)
    as [ms Hms].
  exists ms. split; [|exact (smartSearchInFile_lines _ _ _ _ _ _ _ Hms)].
  apply listOf_Return. unfold guarded. apply fst_tryCatch_Return.
  unfold searchFunction. rewrite (fst_bind_Return _ _ Hms). reflexivity.
Qed.

Lemma keys_of_file (file_ : FileEntry) (ms : list Match) :
  map keyOf (map (withFile file_) ms)
  = map (fun l => (relativePath file_, l)) (map line ms).
Proof. rewrite !map_map. reflexivity. Qed.

Lemma nodup_pairs (p : string) (ls : list nat) :
  NoDup ls -> NoDup (map (fun l => (p, l)) ls).
Proof.
  induction 1 as [|l tl Hl Htl IH]; cbn; constructor; [|exact IH].
  intros Hin. apply in_map_iff in Hin. destruct Hin as [l' [Heq Hin]].
  inversion Heq. subst. exact (Hl Hin).
Qed.

(** Files with distinct relative paths contribute distinct
    (file, line) pairs. *)
Lemma distinct_keys (g : FileEntry -> list SearchResult) (files : list FileEntry) :
  (forall file_, exists ms,
      g file_ = map (withFile file_) ms /\ NoDup (map line ms)) ->
  NoDup (map relativePath files) ->
  NoDup (map keyOf (flat_map g files)).
Proof.
  intros Hg. induction files as [|f tl IH]; intros Hnd; [constructor|].
  cbn [flat_map map] in *. inversion Hnd as [|? ? Hf Htl]. subst.
  rewrite map_app. destruct (Hg f) as [ms [Hms Hlines]].
  apply nodup_app_intro.
  - rewrite Hms, keys_of_file. apply nodup_pairs, Hlines.
  - apply IH, Htl.
  - intros k Hk Hk'. rewrite Hms, keys_of_file in Hk.
    apply in_map_iff in Hk. destruct Hk as [l [<- _]].
    apply in_map_iff in Hk'. destruct Hk' as [r [Hr Hin]].
    apply in_flat_map in Hin. destruct Hin as [f' [Hf' Hin]].
    destruct (Hg f') as [ms' [Hms' _]]. rewrite Hms' in Hin.
    apply in_map_iff in Hin. destruct Hin as [m [<- _]].
    cbn in Hr. inversion Hr as [[Hpath Hline]].
    apply Hf. rewrite <- Hpath. apply in_map, Hf'.
Qed.

Lemma prefix_of_batches {A : Type} (k : nat) (batches : list (list A)) :
  (List.concat (firstn k batches) ++ List.concat (skipn k batches))%list
  = List.concat batches.
Proof. rewrite <- concat_app, firstn_skipn. reflexivity. Qed.

Lemma byScoreThenFile_le (rt : Runtime) (a b : SearchResult) :
  (byScoreThenFile rt a b <= 0)%Z -> inOrder rt a b.
Proof.
  unfold byScoreThenFile, inOrder.
  destruct (Z.eqb (score a) (score b)) eqn:E; cbn [negb].
  - apply Z.eqb_eq in E. intros H. right. split; assumption.
  - apply Z.eqb_neq in E. intros H. left. lia.
Qed.

Lemma byScoreThenFile_gt (rt : Runtime) (a b : SearchResult) :
  totalOrder rt -> (0 < byScoreThenFile rt a b)%Z -> inOrder rt b a.
Proof.
  intros Htotal. unfold byScoreThenFile, inOrder.
  destruct (Z.eqb (score a) (score b)) eqn:E; cbn [negb].
  - apply Z.eqb_eq in E. intros H. right. split; [symmetry; exact E|].
    apply Htotal, H.
  - intros H. left. lia.
Qed.

(** The three properties for any list the final sort and slice are
    applied to. *)
Lemma sorted_slice (rt : Runtime) (n : nat) (allResults : list SearchResult) :
  let found := JsArray.slice
                 (JsArray.slice (JsArray.sort (byScoreThenFile rt) allResults) 0 n)
                 0 n in
  List.length found <= n
  /\ (totalOrder rt -> Sorted (inOrder rt) found)
  /\ (NoDup (map keyOf allResults) -> NoDup (map keyOf found)).
Proof.
  intros found. unfold found. rewrite !slice_from_0.
  split; [|split].
  - apply firstn_le_length.
  - intros Htotal. do 2 apply firstn_Sorted.
    apply (@sort_Sorted _ (byScoreThenFile rt) (inOrder rt));
      [apply byScoreThenFile_le | intros x y; apply byScoreThenFile_gt, Htotal].
  - intros Hnd. rewrite <- !firstn_map. do 2 apply nodup_firstn.
    apply (Permutation_NoDup (l := map keyOf allResults)); [|exact Hnd].
    apply Permutation_map, Permutation_sym, sort_perm.
Qed.

(** C1, as stated, fails: a search for [foo] under the two roots
    [/srv/a] and [/srv/b], which both hold a file [x.js] whose first
    line matches, returns two results with the same (file, line) pair:
    [file] is the path relative to the root the file was found under,
    and results are only deduplicated inside one file. *)
Lemma two_roots_duplicate_keys :
  map keyOf (resultsOf (smartSearch twoRoots defaultSettings "foo"
                                    ["/srv/a"; "/srv/b"] noOptions))
  = [("x.js", 1); ("x.js", 1)]
  /\ ~ NoDup (map keyOf (resultsOf (smartSearch twoRoots defaultSettings "foo"
                                                ["/srv/a"; "/srv/b"] noOptions))).
Proof.
  assert (H : map keyOf (resultsOf (smartSearch twoRoots defaultSettings "foo"
                                                ["/srv/a"; "/srv/b"] noOptions))
              = [("x.js", 1); ("x.js", 1)]) by (vm_compute; reflexivity).
  split; [exact H|]. rewrite H. intros Hnd.
  inversion Hnd as [|? ? Hx _]. apply Hx. left. reflexivity.
Qed.

(** C1, amended: for every file system, query, roots and options, a
    search returns at most N results, N being the [maxResults] option
    (the engine's own ceiling when the caller gives none), sorted by
    score descending and then by file path ascending in the order of
    [localeCompare]; and no two results share a (file, line) pair
    provided the files discovered under the roots have pairwise
    distinct paths relative to their roots.  The search returns
    whenever its file types hold [all] or no name inherited from
    [Object.prototype]; the bound and the order hold for whatever it
    returns. *)
Theorem search_bounded_sorted_unique
        (rt : Runtime) (settings : Settings) (query_ : string)
        (paths : list string) (options : SearchOptions) :
  (plainTypes (typesOf options) = true ->
   returns (smartSearch rt settings query_ paths options))
  /\ forall response,
       fst (smartSearch rt settings query_ paths options) = Return response ->
       List.length (results response) <= ceiling settings options
       /\ (totalOrder rt -> Sorted (inOrder rt) (results response))
       /\ (NoDup (map relativePath (discovered rt settings paths options)) ->
           NoDup (map keyOf (results response))).
Proof.
  split; [apply smartSearch_returns|]. intros response Hsearch.
  destruct (smartSearch_results _ _ _ _ _ Hsearch) as [total [filtered [msg Hcore]]].
  unfold searchCore in Hcore.
  rewrite (fst_bind_Return _ _ (discovered_value rt settings paths options)) in Hcore.
  apply fst_bind_inv in Hcore. destruct Hcore as [kept [_ Hcore]].
  destruct (Nat.eqb _ 0).
  { cbn in Hcore. inversion Hcore as [[Hres Ht Hf Hm]].
    split; [apply Nat.le_0_l|]. split; intros _; constructor. }
  unfold processFilesInBatches in Hcore.
  match type of Hcore with
  | context [batchLoop settings ?f ?batches []] =>
      destruct (batchLoop_prefix settings f batches []) as [k Hk]
  end.
  rewrite (fst_bind_Return _ _ Hk) in Hcore. cbn [fst ret] in Hcore.
  inversion Hcore as [[Hres Ht Hf Hm]]. clear Hcore Ht Hf Hm.
  match goal with
  | |- context [JsArray.sort (byScoreThenFile rt) ?l] =>
      destruct (sorted_slice rt (ceiling settings options) l)
        as [Hbound [Hsorted Hunique]]
  end.
  split; [exact Hbound|]. split; [exact Hsorted|].
  intros Hfiles. apply Hunique. cbn [app].
  apply distinct_keys; [intros file_; apply guarded_search|].
  apply (nodup_app_l _ (map relativePath
                            (List.concat
                               (skipn k (batchesOf settings
                                           (JsArray.slice
                                              (discovered rt settings paths options) 0
                                              (orDefault (optMaxFiles options)
                                                         (maxFilesToProcess settings)))))))).
  rewrite <- map_app, prefix_of_batches.
  destruct (BatchFacts.batches_are_slices settings
              (JsArray.slice (discovered rt settings paths options) 0
                             (orDefault (optMaxFiles options)
                                        (maxFilesToProcess settings)))) as [Hconcat _].
  rewrite Hconcat, slice_from_0, <- firstn_map. apply nodup_firstn, Hfiles.
Qed.

Lemma compareStrings_total (dirs : list (string * list Dirent))
      (files : list (string * string)) :
  totalOrder (Fixture.memFs dirs files).
Proof.
  intros a b. cbn [localeCompare Fixture.memFs].
  unfold Fixture.compareStrings. rewrite (String.compare_antisym a b).
  destruct (String.compare b a); cbn; lia.
Qed.

(** A search for [foo(] under the single root [/srv/a] of the
    three-level tree, limited to two results. *)
Lemma search_bounded_sorted_unique_witness :
  let response :=
    responseOf (smartSearch deepTree defaultSettings "foo(" ["/srv/a"] (atMost 2)) in
  map keyOf (results response) = [("lib/mid.js", 1); ("lib/util/low.js", 1)]
  /\ List.length (results response) <= 2
  /\ Sorted (inOrder deepTree) (results response)
  /\ NoDup (map keyOf (results response)).
Proof.
  intros response. split; [vm_compute; reflexivity|].
  destruct (search_bounded_sorted_unique deepTree defaultSettings "foo(" ["/srv/a"]
                                         (atMost 2)) as [_ Hresponse].
  destruct (Hresponse response) as [Hbound [Hsorted Hunique]];
    [vm_compute; reflexivity|].
  split; [exact Hbound|]. split; [apply Hsorted, compareStrings_total|].
  apply Hunique.
  assert (H : map relativePath
                  (discovered deepTree defaultSettings ["/srv/a"] (atMost 2))
              = ["top.js"; "lib/mid.js"; "lib/util/low.js"])
    by (vm_compute; reflexivity).
  rewrite H.
  repeat (constructor; [cbn; intuition discriminate|]). constructor.
Defined.

End ResultFacts.

(** ** Strings, tables and maps *)

Module TextFacts.
Import JsString JsObject.

Lemma length_append (a b : string) :
  String.length (a ++ b) = String.length a + String.length b.
Proof. induction a as [|c a IH]; cbn; [reflexivity | rewrite IH; reflexivity]. Qed.

Lemma length_take (n : nat) (s : string) : String.length (take n s) <= n.
Proof.
  revert s. induction n as [|n IH]; intros [|c s]; cbn; try lia.
  specialize (IH s). lia.
Qed.

Lemma includes_In (l : list string) (s : string) :
  JsArray.includes l s = true <-> In s l.
Proof.
  unfold JsArray.includes. rewrite existsb_exists. split.
  - intros [x [Hin Heq]]. apply String.eqb_eq in Heq. subst. exact Hin.
  - intros Hin. exists s. split; [exact Hin | apply String.eqb_refl].
Qed.

Lemma total_increment (key : string) (o : list (string * nat)) :
  total (increment key o) = S (total o).
Proof.
  induction o as [|[k n] tl IH]; cbn; [reflexivity|].
  destruct (String.eqb k key); cbn; [lia|].
  fold (total (increment key tl)). fold (total tl). rewrite IH. lia.
Qed.

Lemma total_counted {A : Type} (key : A -> string) (l : list A)
      (o : list (string * nat)) :
  total (fold_left (fun o x => increment (key x) o) l o) = total o + List.length l.
Proof.
  revert o. induction l as [|x tl IH]; intros o; cbn [fold_left List.length];
    [lia|].
  rewrite IH, total_increment. lia.
Qed.

Lemma mapGet_mapSet {A : Type} (key : string) (v : A) (m : list (string * A)) :
  mapGet key (mapSet key v m) = Some v.
Proof.
  induction m as [|[k w] tl IH]; cbn.
  - rewrite String.eqb_refl. reflexivity.
  - destruct (String.eqb k key) eqn:E; cbn; rewrite E; [reflexivity | exact IH].
Qed.

(** A [set] either updates the entry of a known key in place or appends
    the entry of a new one. *)
Lemma mapSet_cases {A : Type} (key : string) (v : A) (m : list (string * A)) :
  (mapGet key m = None /\ mapSet key v m = m ++ [(key, v)])
  \/ (mapGet key m <> None /\ List.length (mapSet key v m) = List.length m).
Proof.
  induction m as [|[k w] tl IH]; cbn.
  - left. split; reflexivity.
  - destruct (String.eqb k key) eqn:E.
    + right. split; [discriminate | reflexivity].
    + destruct IH as [[Hn Hs]|[Hn Hl]].
      * left. split; [exact Hn | rewrite Hs; reflexivity].
      * right. split; [exact Hn | cbn; rewrite Hl; reflexivity].
Qed.

Lemma mapGet_app_new {A : Type} (key : string) (v : A) (m : list (string * A)) :
  mapGet key m = None -> mapGet key (m ++ [(key, v)]) = Some v.
Proof.
  induction m as [|[k w] tl IH]; cbn.
  - intros _. rewrite String.eqb_refl. reflexivity.
  - destruct (String.eqb k key); [discriminate | exact IH].
Qed.

Lemma mapGet_mapDelete_other {A : Type} (key other : string)
      (m : list (string * A)) :
  String.eqb other key = false ->
  mapGet key (mapDelete other m) = mapGet key m.
Proof.
  intros Hne. unfold mapDelete.
  induction m as [|[k w] tl IH]; cbn; [reflexivity|].
  destruct (String.eqb k other) eqn:E; cbn.
  - apply String.eqb_eq in E. subst k. rewrite Hne. exact IH.
  - rewrite IH. reflexivity.
Qed.

End TextFacts.

(** ** The issue-tracker helper *)

Module JiraFacts.
Import JsString JsRegExp JsPattern JsObject JiraIntegration TextFacts.

Lemma reSentenceEnd_parses :
  parse reSentenceEnd
  = Some (RClass false [CChar "."; CChar "!"; CChar "?"]).
Proof. vm_compute. reflexivity. Qed.

Lemma keyword_is_high (analysisResult : AnalysisResult) (keyword : string) :
  In keyword highPriorityKeywords ->
  includes (toLowerCase (orEmpty (explanation analysisResult))) keyword = true ->
  determinePriority analysisResult = "High".
Proof.
  intros Hin Hinc. unfold determinePriority.
  assert (H : existsb (fun k =>
                         includes (toLowerCase (orEmpty (explanation analysisResult))) k)
                      highPriorityKeywords = true).
  { apply existsb_exists. exists keyword. split; assumption. }
  rewrite H. reflexivity.
Qed.

Ltac keyword k E :=
  intros _; apply keyword_is_high with k; [cbn; tauto | exact E].

(** Every analysis the helper labels as a null-pointer, database,
    authentication, exception or error issue gets the priority
    [High]: the words that select these issue types are all among the
    high-priority keywords. *)
Theorem serious_issue_types_have_high_priority (analysisResult : AnalysisResult) :
  In (extractIssueType analysisResult)
     ["NullPointerException"; "Database Error"; "Auth Error"; "Exception"; "Error"] ->
  determinePriority analysisResult = "High".
Proof.
  unfold extractIssueType.
  set (e := toLowerCase (orEmpty (explanation analysisResult))).
  destruct (includes e "null pointer") eqn:E1; [keyword "null pointer" E1|].
  destruct (includes e "validation") eqn:E2;
    [cbn; intros H; repeat destruct H as [H|H]; try discriminate H; contradiction|].
  destruct (includes e "configuration") eqn:E3;
    [cbn; intros H; repeat destruct H as [H|H]; try discriminate H; contradiction|].
  destruct (includes e "database") eqn:E4; [keyword "database" E4|].
  destruct (includes e "authentication") eqn:E5; [keyword "authentication" E5|].
  destruct (includes e "exception") eqn:E6; [keyword "exception" E6|].
  destruct (includes e "error") eqn:E7; [keyword "error" E7|].
  cbn; intros H; repeat destruct H as [H|H]; try discriminate H; contradiction.
Qed.

Lemma serious_issue_types_have_high_priority_witness :
  let analysisResult :=
    {| explanation := Some "Database lookup returned nothing";
       file := Some "src/dao/PlanDao.java"; language := Some "Java";
       analysis := None; resolved := None |} in
  extractIssueType analysisResult = "Database Error"
  /\ determinePriority analysisResult = "High".
Proof.
  split; [vm_compute; reflexivity|].
  apply serious_issue_types_have_high_priority.
  vm_compute. tauto.
Defined.

(** [generateLabels] never returns more than ten labels, and the two
    fixed labels [code-analysis] and [automated] are always among
    them. *)
Theorem labels_are_bounded_and_tagged (analysisResult : AnalysisResult) :
  List.length (generateLabels analysisResult) <= 10
  /\ In "code-analysis" (generateLabels analysisResult)
  /\ In "automated" (generateLabels analysisResult).
Proof.
  unfold generateLabels, JsArray.slice. rewrite Nat.sub_0_r. cbn [skipn].
  split; [apply firstn_le_length|].
  destruct (truthy (language analysisResult)); cbn [label app firstn];
    split; cbn [In]; tauto.
Qed.

Lemma split_nonempty (r : regex) (text : string) :
  exec noFlags r "" = None -> split noFlags r text <> [].
Proof.
  intros Hexec. unfold split. destruct (String.eqb_spec text "") as [->|_].
  - rewrite Hexec. discriminate.
  - destruct (matchAll noFlags r text); discriminate.
Qed.

(** [extractMainIssue] always returns, and what it returns has at most
    53 characters: the first sentence, cut after 50 characters with an
    ellipsis appended. *)
Theorem main_issue_is_short (explanation_ : string) :
  exists mainIssue,
    extractMainIssue explanation_ = Return mainIssue
    /\ String.length mainIssue <= 53.
Proof.
  unfold extractMainIssue.
  destruct (split noFlags (lit reSentenceEnd) explanation_) as [|first rest] eqn:E.
  - exfalso. revert E. apply split_nonempty.
    unfold lit. rewrite reSentenceEnd_parses. reflexivity.
  - eexists. split; [reflexivity|].
    destruct (50 <? String.length (trim first)) eqn:L.
    + rewrite length_append. pose proof (length_take 50 (trim first)).
      change (String.length "...") with 3. lia.
    + apply Nat.ltb_ge in L. lia.
Qed.

(** Storing an analysis in a cache of at most 100 entries returns the
    identifier it was given, leaves the cache with at most 100 entries,
    and the stored analysis can be read back under that identifier. *)
Theorem stored_analysis_can_be_read_back
        (id_ timestamp_ : string) (analysisResult : AnalysisResult)
        (analysisCache : list (string * StoredAnalysis)) :
  List.length analysisCache <= 100 ->
  let '(analysisId, cache) :=
    storeAnalysis id_ timestamp_ analysisResult analysisCache in
  analysisId = id_
  /\ getAnalysis analysisId cache
     = Some {| result := analysisResult; timestamp := timestamp_; id := id_ |}
  /\ List.length cache <= 100.
Proof.
  intros Hlen. unfold storeAnalysis, getAnalysis.
  set (entry := {| result := analysisResult; timestamp := timestamp_; id := id_ |}).
  split; [reflexivity|].
  destruct (mapSet_cases id_ entry analysisCache) as [[Hnew Hset]|[Hold Hsame]].
  - (* a new identifier: the entry is appended *)
    rewrite Hset. rewrite length_app. cbn [List.length].
    destruct (100 <? List.length analysisCache + 1) eqn:Hfull.
    + apply Nat.ltb_lt in Hfull.
      assert (H100 : List.length analysisCache = 100) by lia.
      replace (List.length analysisCache + 1 - 100) with 1 by lia.
      destruct analysisCache as [|[k0 v0] tl]; [discriminate H100|].
      cbn [app JsArray.slice skipn Nat.sub firstn map fst fold_left].
      cbn [mapGet] in Hnew.
      destruct (String.eqb k0 id_) eqn:Hk; [discriminate Hnew|].
      split.
      * rewrite mapGet_mapDelete_other by exact Hk.
        cbn [mapGet]. rewrite Hk. apply mapGet_app_new. exact Hnew.
      * unfold mapDelete. cbn [filter fst]. rewrite String.eqb_refl. cbn [negb].
        etransitivity; [apply filter_length_le|].
        rewrite length_app. cbn in *. lia.
    + apply Nat.ltb_ge in Hfull. split.
      * apply mapGet_app_new. exact Hnew.
      * rewrite length_app. cbn. lia.
  - (* a known identifier: the entry is replaced in place *)
    rewrite Hsame.
    destruct (100 <? List.length analysisCache) eqn:Hfull;
      [apply Nat.ltb_lt in Hfull; lia|].
    split; [apply mapGet_mapSet | rewrite Hsame; exact Hlen].
Qed.

Lemma stored_analysis_can_be_read_back_witness :
  let analysisResult :=
    {| explanation := Some "NullPointerException in billing";
       file := None; language := None; analysis := None; resolved := None |} in
  getAnalysis "analysis_1_abc"
              (snd (storeAnalysis "analysis_1_abc" "2024-01-01T00:00:00.000Z"
                                  analysisResult []))
  = Some {| result := analysisResult;
            timestamp := "2024-01-01T00:00:00.000Z"; id := "analysis_1_abc" |}.
Proof.
  intros analysisResult.
  pose proof (@stored_analysis_can_be_read_back
                "analysis_1_abc" "2024-01-01T00:00:00.000Z" analysisResult []) as H.
  cbn [List.length] in H. specialize (H (Nat.le_0_l 100)).
  destruct (storeAnalysis "analysis_1_abc" "2024-01-01T00:00:00.000Z"
                          analysisResult []) as [analysisId cache] eqn:E.
  destruct H as [Hid [Hget _]]. cbn [snd]. rewrite <- Hid at 1. exact Hget.
Defined.

Lemma keyword_needs_text (analysisResult : AnalysisResult) :
  existsb (fun k => includes (toLowerCase (orEmpty (explanation analysisResult))) k)
          highPriorityKeywords = true ->
  truthy (explanation analysisResult) = true.
Proof.
  intros H. apply existsb_exists in H. destruct H as [k [Hin Hinc]].
  destruct (truthy (explanation analysisResult)) eqn:T; [reflexivity|].
  exfalso.
  assert (Hempty : orEmpty (explanation analysisResult) = "").
  { unfold truthy in T. destruct (explanation analysisResult) as [s|]; [|reflexivity].
    cbn. apply negb_false_iff, String.eqb_eq in T. exact T. }
  rewrite Hempty in Hinc. cbn [toLowerCase] in Hinc.
  apply PathSecurityFacts.includes_empty in Hinc. subst k.
  cbn in Hin. repeat destruct Hin as [Hin|Hin]; try discriminate Hin; contradiction.
Qed.

(** Whenever the summary estimates a priority other than [Low], it
    also recommends creating an issue. *)
Theorem summary_priority_implies_issue (analysisResult : AnalysisResult) :
  estimatedPriority (formatAnalysisSummary analysisResult) <> "Low" ->
  shouldCreateJira (formatAnalysisSummary analysisResult) = true.
Proof.
  unfold formatAnalysisSummary. cbn [estimatedPriority shouldCreateJira].
  unfold determinePriority.
  destruct (existsb _ highPriorityKeywords) eqn:E.
  - intros _. rewrite (keyword_needs_text _ E). reflexivity.
  - destruct (recommendationsOf analysisResult) as [rs|].
    + destruct (existsb (fun r => is_ (priority r) "high") rs) eqn:R.
      * intros _. destruct rs as [|r rs]; [discriminate R|].
        cbn. apply orb_true_r.
      * destruct (truthy (explanation analysisResult));
          [reflexivity | intros H; contradiction H; reflexivity].
    + destruct (truthy (explanation analysisResult));
        [reflexivity | intros H; contradiction H; reflexivity].
Qed.

Lemma summary_priority_implies_issue_witness :
  shouldCreateJira
    (formatAnalysisSummary
       {| explanation := None; file := None; language := None;
          analysis :=
            Some {| recommendations :=
                      Some [{| priority := Some "high"; title := None;
                               recommendationType := Some "database_verification" |}];
                    dependencies := None |};
          resolved := None |}) = true.
Proof.
  apply summary_priority_implies_issue. vm_compute. discriminate.
Defined.

End JiraFacts.

(** ** The security log *)

Module SecurityLogFacts.
Import JsString JsObject PathSecurity SecurityLog TextFacts.

Lemma lastN_length {A : Type} (n : nat) (l : list A) :
  List.length (lastN n l) <= n.
Proof. unfold lastN. rewrite length_skipn. lia. Qed.

Lemma lastN_suffix {A : Type} (n : nat) (l : list A) :
  exists older, l = older ++ lastN n l.
Proof.
  exists (firstn (List.length l - n) l). unfold lastN.
  symmetry. apply firstn_skipn.
Qed.

Lemma Forall_lastN {A : Type} (P : A -> Prop) (n : nat) (l : list A) :
  Forall P l -> Forall P (lastN n l).
Proof.
  intros H. destruct (lastN_suffix n l) as [older E].
  rewrite E in H. apply Forall_app in H. apply H.
Qed.

Lemma logSecurityViolation_wellKept (rt : Runtime) (type path : string)
      (securityLog : list violation) :
  In type violationTypes -> wellKept securityLog ->
  wellKept (logSecurityViolation rt type path securityLog).
Proof.
  intros Htype [Hlen Hall]. unfold logSecurityViolation.
  set (log := securityLog ++ _).
  assert (Hlog : Forall (fun v => In (v_type v) violationTypes
                                  /\ String.length (v_path v) <= 100) log).
  { apply Forall_app. split; [exact Hall|].
    constructor; [|constructor]. cbn [v_type v_path].
    split; [exact Htype | apply length_take]. }
  destruct (1000 <? List.length log) eqn:E.
  - split; [apply lastN_length | apply Forall_lastN, Hlog].
  - apply Nat.ltb_ge in E. split; assumption.
Qed.

Ltac known_type := cbn; tauto.

Lemma validatePathAt_wellKept (rt : Runtime) (depth : nat) :
  forall filePath securityLog,
    wellKept securityLog ->
    wellKept (snd (validatePathAt rt depth filePath securityLog)).
Proof.
  induction depth as [|depth IH]; intros filePath securityLog Hlog;
    cbn [validatePathAt]; [exact Hlog|].
  destruct (String.eqb filePath ""); [exact Hlog|].
  destruct (maxPathLength <? String.length filePath); [exact Hlog|].
  destruct (includes _ ".." || includes filePath "..");
    [apply logSecurityViolation_wellKept; [known_type | exact Hlog]|].
  destruct (existsb _ _);
    [apply logSecurityViolation_wellKept; [known_type | exact Hlog]|].
  destruct (lstat rt _) as [[ | | | ]|]; try exact Hlog.
  destruct (realpath rt _) as [realPath|]; [|exact Hlog].
  specialize (IH realPath securityLog Hlog).
  destruct (validatePathAt rt depth realPath securityLog) as [v log'].
  cbn [snd] in IH.
  destruct (valid v); cbn [snd]; [exact IH|].
  apply logSecurityViolation_wellKept; [known_type | exact IH].
Qed.

(** The security log stays well kept under every validation: it never
    holds more than 1000 violations, every logged path is cut to at
    most 100 characters, and every entry has one of the three
    violation types. *)
Theorem security_log_stays_bounded (rt : Runtime) (filePath : string)
        (securityLog : list violation) :
  wellKept securityLog ->
  wellKept (snd (validatePathLog rt filePath securityLog)).
Proof. apply validatePathAt_wellKept. Qed.

Lemma security_log_stays_bounded_witness :
  wellKept (snd (validatePathLog Scenario.emptyFs "../etc/passwd" [])).
Proof.
  apply security_log_stays_bounded.
  split; [cbn; lia | constructor].
Defined.

(** The statistics of a well-kept log add up: the counts per type sum
    to the total number of violations, and the recent violations are
    the last entries of the log, at most ten. *)
Theorem security_stats_add_up (securityLog : list violation) :
  wellKept securityLog ->
  let stats := getSecurityStats securityLog in
  total (violationsByType stats) = totalViolations stats
  /\ totalViolations stats = List.length securityLog
  /\ List.length (recentViolations stats) <= 10
  /\ exists older, securityLog = older ++ recentViolations stats.
Proof.
  intros _. cbn [getSecurityStats violationsByType totalViolations recentViolations].
  repeat split.
  - rewrite total_counted. reflexivity.
  - apply lastN_length.
  - apply lastN_suffix.
Qed.

Lemma security_stats_add_up_witness :
  let securityLog :=
    snd (validatePathLog Scenario.emptyFs "../etc/passwd"
           (snd (validatePathLog Scenario.emptyFs "/etc/passwd" []))) in
  violationsByType (getSecurityStats securityLog)
  = [("BLOCKED_PATH", 1); ("TRAVERSAL_ATTEMPT", 1)]
  /\ total (violationsByType (getSecurityStats securityLog)) = 2.
Proof.
  intros securityLog. split; [vm_compute; reflexivity|].
  assert (H : wellKept securityLog).
  { unfold securityLog. apply validatePathAt_wellKept, validatePathAt_wellKept.
    split; [cbn; lia | constructor]. }
  destruct (security_stats_add_up H) as [Hsum [Htotal _]].
  rewrite Hsum, Htotal. vm_compute. reflexivity.
Defined.

Lemma validatePathAt_accepts (rt : Runtime) (depth : nat) :
  forall filePath securityLog normalizedPath log',
    validatePathAt rt depth filePath securityLog = (Valid normalizedPath, log') ->
    normalizedPath = pathResolve rt (pathNormalize rt filePath)
    /\ log' = securityLog.
Proof.
  induction depth as [|depth IH]; intros filePath securityLog normalizedPath log';
    cbn [validatePathAt]; [discriminate|].
  destruct (String.eqb filePath ""); [discriminate|].
  destruct (maxPathLength <? String.length filePath); [discriminate|].
  destruct (includes _ ".." || includes filePath ".."); [discriminate|].
  destruct (existsb _ _); [discriminate|].
  assert (Hplain : forall l : list violation,
             (Valid (pathResolve rt (pathNormalize rt filePath)), l)
             = (Valid normalizedPath, log') ->
             normalizedPath = pathResolve rt (pathNormalize rt filePath)
             /\ log' = l).
  { intros l H. inversion H. split; reflexivity. }
  destruct (lstat rt _) as [[ | | | ]|]; try apply Hplain.
  destruct (realpath rt _) as [realPath|]; [|apply Hplain].
  specialize (IH realPath securityLog).
  destruct (validatePathAt rt depth realPath securityLog) as [v l].
  destruct v as [np|c e]; cbn [valid].
  - intros H. destruct (IH np l eq_refl) as [_ Hl]. subst l. apply Hplain, H.
  - discriminate.
Qed.

(** A path that [validatePath] accepts is returned as
    [path.resolve(path.normalize(filePath))], also when it is a
    symbolic link whose target was validated, and accepting it adds
    nothing to the security log. *)
Theorem accepted_path_is_resolved (rt : Runtime) (filePath : string)
        (securityLog : list violation) (normalizedPath : string)
        (log' : list violation) :
  validatePathLog rt filePath securityLog = (Valid normalizedPath, log') ->
  normalizedPath = pathResolve rt (pathNormalize rt filePath)
  /\ log' = securityLog.
Proof. apply validatePathAt_accepts. Qed.

Lemma accepted_path_is_resolved_witness :
  validatePathLog Scenario.twoRoots "/srv//a/./x.txt" [] = (Valid "/srv/a/x.txt", []).
Proof.
  destruct (validatePathLog Scenario.twoRoots "/srv//a/./x.txt" [])
    as [[np|c e] l] eqn:E.
  - destruct (@accepted_path_is_resolved _ _ _ _ _ E) as [Hnp Hl].
    rewrite Hnp, Hl. vm_compute. reflexivity.
  - vm_compute in E. discriminate E.
Defined.

End SecurityLogFacts.

(** ** File types and search patterns *)

Module FileTypeFacts.
Import JsString SmartSearch Notions MoreNotions EngineFacts TextFacts Fixture.

Lemma forEachM_nothing {A B : Type} (body : A -> M (list B)) (xs : list A) :
  (forall x, In x xs -> fst (body x) = Return []) ->
  fst (forEachM body xs) = Return [].
Proof.
  induction xs as [|x tl IH]; intros H; cbn [forEachM]; [reflexivity|].
  rewrite (fst_bind_Return _ _ (H x (or_introl eq_refl))).
  rewrite (fst_bind_Return _ _ (IH (fun y Hy => H y (or_intror Hy)))).
  reflexivity.
Qed.

(** The types a list of type names allows in [shouldProcessFile]. *)
Lemma allowed_type (types : list string) (type : string) :
  forall allowed,
    fst (allowedTypesOf (fun _ => []) types) = Return allowed ->
    In type allowed ->
    exists t ts, In t types /\ mapping t = Some ts /\ In type ts.
Proof.
  unfold allowedTypesOf.
  induction types as [|t tl IH]; intros allowed; cbn [forEachM].
  - cbn. intros H. inversion H. intros [].
  - intros H. apply fst_bind_inv in H. destruct H as [r [Hr H]].
    apply fst_bind_inv in H. destruct H as [rs [Hrs H]].
    cbn in H. inversion H. subst allowed. clear H.
    intros Hin. apply in_app_or in Hin. destruct Hin as [Hin|Hin].
    + unfold typeMappingAt in Hr. destruct (mapping t) as [ts|] eqn:E.
      * cbn in Hr. inversion Hr. subst r.
        exists t, ts. split; [left; reflexivity|]. split; assumption.
      * destruct (JsArray.includes objectPrototypeKeys t); cbn in Hr;
          [discriminate|]. inversion Hr. subst r. destruct Hin.
    + destruct (IH rs Hrs Hin) as [t' [ts [Ht' H']]].
      exists t', ts. split; [right; exact Ht' | exact H'].
Qed.

(** When the type names do not include [all], [shouldProcessFile]
    accepts a file only if its detected type is listed under one of the
    given names in [fileTypeMapping]; a name that is no key of that
    table allows nothing. *)
Theorem accepted_file_has_a_mapped_type
        (rt : Runtime) (settings : Settings) (filePath : string) (size : Z)
        (types excludePatterns : list string) :
  JsArray.includes types "all" = false ->
  fst (shouldProcessFile rt settings filePath size types excludePatterns)
  = Return true ->
  exists t ts, In t types /\ mapping t = Some ts /\ In (getFileType filePath) ts.
Proof.
  intros Hall. unfold shouldProcessFile.
  destruct (maxFileSize settings <? size)%Z; [discriminate|].
  destruct (JsArray.includes binaryExtensions _); [discriminate|].
  rewrite Hall. intros H.
  apply fst_bind_inv in H. destruct H as [typeAllowed [Htype H]].
  apply fst_bind_inv in Htype. destruct Htype as [allowed [Hallowed Htype]].
  cbn in Htype. inversion Htype. subst typeAllowed. clear Htype.
  destruct (JsArray.includes allowed (getFileType filePath)) eqn:E;
    cbn [negb] in H; [|discriminate].
  apply (allowed_type _ _ Hallowed), includes_In, E.
Qed.

Lemma accepted_file_has_a_mapped_type_witness :
  exists t ts,
    In t ["code"] /\ mapping t = Some ts /\ In (getFileType "/srv/a/x.js") ts.
Proof.
  apply (@accepted_file_has_a_mapped_type
           Scenario.twoRoots defaultSettings "/srv/a/x.js" 3%Z ["code"] []);
    vm_compute; reflexivity.
Defined.

(** Names without entry add what the [else] branch says. *)
Lemma allowedTypesOf_undefined (otherwise : string -> list string)
      (types : list string) :
  (forall t, In t types -> typeMappingAt t = Undefined) ->
  fst (allowedTypesOf otherwise types) = Return (flat_map otherwise types).
Proof.
  unfold allowedTypesOf.
  induction types as [|t tl IH]; intros H; cbn [forEachM flat_map];
    [reflexivity|].
  rewrite (H t (or_introl eq_refl)).
  rewrite (fst_bind_Return (ret (otherwise t)) _ (a := otherwise t) eq_refl).
  rewrite (fst_bind_Return _ _ (IH (fun t' Ht' => H t' (or_intror Ht')))).
  reflexivity.
Qed.

Lemma flat_map_nothing {A B : Type} (l : list A) :
  flat_map (fun _ : A => @nil B) l = [].
Proof. induction l as [|x tl IH]; cbn; [reflexivity | exact IH]. Qed.

Lemma unknown_types_reject
      (rt : Runtime) (settings : Settings) (filePath : string) (size : Z)
      (types excludePatterns : list string) :
  JsArray.includes types "all" = false ->
  (forall t, In t types -> typeMappingAt t = Undefined) ->
  fst (shouldProcessFile rt settings filePath size types excludePatterns)
  = Return false.
Proof.
  intros Hall Hunknown. unfold shouldProcessFile.
  destruct (maxFileSize settings <? size)%Z; [reflexivity|].
  destruct (JsArray.includes binaryExtensions _); [reflexivity|].
  rewrite Hall.
  assert (Htype : fst (bind (allowedTypesOf (fun _ => []) types)
                            (fun allowedTypes =>
                               ret (JsArray.includes allowedTypes
                                                     (getFileType filePath))))
                  = Return false).
  { rewrite (fst_bind_Return _ _ (allowedTypesOf_undefined _ _ Hunknown)).
    rewrite flat_map_nothing. reflexivity. }
  rewrite (fst_bind_Return _ _ Htype). reflexivity.
Qed.

Lemma unknown_types_find_no_files
      (rt : Runtime) (settings : Settings)
      (types excludePatterns : list string) (searchPath : string) :
  JsArray.includes types "all" = false ->
  (forall t, In t types -> typeMappingAt t = Undefined) ->
  fst (validFilesOf rt settings types excludePatterns searchPath) = Return [].
Proof.
  intros Hall Hunknown. unfold validFilesOf.
  destruct (fst (getAllFiles rt settings searchPath
                             {| walkMaxDepth := Some (maxDepth settings);
                                extensions := []; skipDirs := [] |}))
    as [pathFiles|e] eqn:Hwalk.
  - apply fst_tryCatch_Return.
    rewrite (fst_bind_Return _ _ Hwalk).
    apply forEachM_nothing. intros file_ _.
    destruct (stat rt (path file_)) as [size|] eqn:Hstat; cbn [orThrow].
    + apply fst_tryCatch_Return.
      rewrite (fst_bind_Return (ret size) _ (a := size) eq_refl).
      rewrite (fst_bind_Return _ _ (@unknown_types_reject rt settings (path file_) size
                                      types excludePatterns Hall Hunknown)).
      reflexivity.
    + reflexivity.
  - rewrite (fst_tryCatch_Throw _ _ (fst_bind_Throw _ _ Hwalk)). reflexivity.
Qed.

(** A search whose type names are all unknown to [fileTypeMapping]
    (such as [sql], [shell], [csharp] or [build]: no key of the table
    and no name inherited from [Object.prototype]) finds nothing,
    whatever the directories hold: every file is dropped by
    [shouldProcessFile] and the response carries the message that no
    file matches the file types. *)
Theorem search_with_unknown_types_is_empty
        (rt : Runtime) (settings : Settings) (query_ : string)
        (paths : list string) (options : SearchOptions) (types : list string) :
  optFileTypes options = Some types ->
  JsArray.includes types "all" = false ->
  (forall t, In t types -> typeMappingAt t = Undefined) ->
  exists response,
    fst (smartSearch rt settings query_ paths options) = Return response
    /\ results response = []
    /\ message (summary response)
       = Some "No files found matching the specified file types".
Proof.
  intros Htypes Hall Hunknown.
  assert (Hcore : fst (searchCore rt settings query_ paths options)
                  = Return ([], 0, 0,
                            Some "No files found matching the specified file types")).
  { unfold searchCore. rewrite Htypes. cbn [orDefault].
    assert (Hfiles : fst (forEachM (validFilesOf rt settings types
                                                 (optExcludePatterns options)) paths)
                     = Return []).
    { apply forEachM_nothing. intros p _.
      apply unknown_types_find_no_files; assumption. }
    rewrite (fst_bind_Return _ _ Hfiles).
    assert (Hfilter : fst (filterFilesByType [] types) = Return []).
    { unfold filterFilesByType. rewrite Hall.
      rewrite (fst_bind_Return _ _ (allowedTypesOf_undefined _ _ Hunknown)).
      reflexivity. }
    rewrite (fst_bind_Return _ _ Hfilter). reflexivity. }
  unfold smartSearch.
  destruct (searchCore rt settings query_ paths options) as [r stats].
  cbn [fst] in Hcore. subst r.
  eexists. split; [reflexivity|]. split; reflexivity.
Qed.

Lemma search_with_unknown_types_is_empty_witness :
  let fs := memFs [ ("/srv/db", [fil "plan.sql"]) ]
                  [ ("/srv/db/plan.sql", "SELECT * FROM PLAN_TABLE") ] in
  let options := {| optFileTypes := Some ["sql"]; optMaxResults := None;
                    optMaxFiles := None; optCaseSensitive := None;
                    optContextLines := None; optExcludePatterns := [] |} in
  map fileType (listOf (getAllFiles fs defaultSettings "/srv/db"
                                    {| walkMaxDepth := None; extensions := [];
                                       skipDirs := [] |})) = ["sql"]
  /\ exists response,
       fst (smartSearch fs defaultSettings "PLAN_TABLE" ["/srv/db"] options)
       = Return response
       /\ results response = []
       /\ message (summary response)
          = Some "No files found matching the specified file types".
Proof.
  intros fs options. split; [vm_compute; reflexivity|].
  apply search_with_unknown_types_is_empty with (types := ["sql"]).
  - reflexivity.
  - vm_compute. reflexivity.
  - intros t [<-|[]]. vm_compute. reflexivity.
Defined.

(** A search whose file types do not hold [all] and hold a name that
    object literals inherit from [Object.prototype] (such as
    [constructor] or [toString]) throws the [TypeError] of
    [filterFilesByType], whatever the query, the roots and the files
    are; nothing in [smartSearch] catches it. *)
Theorem search_with_inherited_type_throws
        (rt : Runtime) (settings : Settings) (query_ : string)
        (paths : list string) (options : SearchOptions) (types : list string)
        (type : string) :
  optFileTypes options = Some types ->
  JsArray.includes types "all" = false ->
  In type types ->
  In type objectPrototypeKeys ->
  fst (smartSearch rt settings query_ paths options)
  = Throw "typeMapping[type].forEach is not a function".
Proof.
  intros Htypes Hall Hin Hkey. apply SearchFacts.smartSearch_throws.
  unfold plainTypes, typesOf. rewrite Htypes. cbn [orDefault]. rewrite Hall.
  cbn [orb]. apply not_true_is_false. intros H.
  rewrite forallb_forall in H. specialize (H type Hin).
  apply negb_true_iff in H. apply includes_In in Hkey.
  rewrite Hkey in H. discriminate H.
Qed.

Lemma search_with_inherited_type_throws_witness :
  fst (smartSearch Scenario.twoRoots defaultSettings "foo" ["/srv/a"]
         {| optFileTypes := Some ["java"; "constructor"]; optMaxResults := None;
            optMaxFiles := None; optCaseSensitive := None;
            optContextLines := None; optExcludePatterns := [] |})
  = Throw "typeMapping[type].forEach is not a function".
Proof.
  apply search_with_inherited_type_throws
    with (types := ["java"; "constructor"]) (type := "constructor").
  - reflexivity.
  - reflexivity.
  - right. left. reflexivity.
  - left. reflexivity.
Defined.

(** The patterns selected for a file are sorted by descending weight,
    there are between three and seven of them, and the exact, the
    variable and the case-insensitive pattern are always among them. *)
Theorem selected_patterns_are_ranked
        (patterns : SmartPatterns) (fileType_ originalQuery : string) :
  let selected := selectSearchPatterns patterns fileType_ originalQuery in
  Sorted byWeight selected
  /\ 3 <= List.length selected <= 7
  /\ In {| pattern := original patterns; patternType := "exact"; weight := 10 |}
        selected
  /\ In {| pattern := variable patterns; patternType := "variable"; weight := 6 |}
        selected
  /\ In {| pattern := caseInsensitive patterns; patternType := "caseInsensitive";
           weight := 5 |} selected.
Proof.
  unfold selectSearchPatterns. cbv zeta.
  set (cmp := fun a b : PatternInfo => (weight b - weight a)%Z).
  set (l := _ ++ _ ++ _ ++ _).
  split.
  { apply (@SortFacts.sort_Sorted _ cmp byWeight); unfold cmp, byWeight; intros; lia. }
  pose proof (SortFacts.sort_perm cmp l) as Hperm.
  split.
  { rewrite (Permutation_length Hperm). unfold l.
    repeat rewrite length_app. unfold when_.
    destruct (String.eqb fileType_ "java") eqn:Ej;
      destruct (String.eqb fileType_ "docs") eqn:Ed;
      destruct (JsArray.includes _ fileType_) eqn:Ef;
      try (apply String.eqb_eq in Ej; subst fileType_; cbn in Ed, Ef; discriminate);
      try (apply String.eqb_eq in Ed; subst fileType_; cbn in Ef; discriminate);
      repeat rewrite length_app;
      repeat match goal with
             | |- context [if ?b then _ else _] => destruct b
             end; cbn [List.length]; lia. }
  repeat split; apply (Permutation_in _ (Permutation_sym Hperm)); unfold l;
    repeat (apply in_or_app; right); cbn [In]; tauto.
Qed.

End FileTypeFacts.

(** ** Ranking and formatting of trace results *)

Module RelevanceFacts.
Import JsString SmartSearch LogTracer Notions MoreNotions TextFacts.

Lemma setAdd_NoDup (s : list string) (x : string) :
  NoDup s -> NoDup (setAdd s x).
Proof.
  intros H. unfold setAdd. destruct (JsArray.includes s x) eqn:E; [exact H|].
  apply NoDup_app; [exact H | repeat constructor; intros [] | ].
  intros y Hy [<-|[]].
  apply includes_In in Hy. rewrite Hy in E. discriminate E.
Qed.

Lemma fold_NoDup {A : Type} (f : list string -> A -> list string) (xs : list A) :
  (forall s x, NoDup s -> NoDup (f s x)) ->
  forall s, NoDup s -> NoDup (fold_left f xs s).
Proof.
  intros Hf. induction xs as [|x tl IH]; intros s Hs; cbn [fold_left];
    [exact Hs | apply IH, Hf, Hs].
Qed.

Lemma addAll_NoDup (s xs : list string) : NoDup s -> NoDup (addAll s xs).
Proof. apply fold_NoDup. intros. apply setAdd_NoDup. assumption. Qed.

(** Neither the key phrases nor the error types extracted from a log
    contain the same text twice. *)
Theorem phrases_and_types_are_distinct (log : string) :
  NoDup (extractKeyPhrases log) /\ NoDup (extractErrorTypes log).
Proof.
  split.
  - unfold extractKeyPhrases. cbv zeta.
    repeat apply addAll_NoDup.
    apply fold_NoDup.
    + intros s ep Hs. destruct (nth_error _ 1) as [msg|]; [|exact Hs].
      destruct (String.eqb msg ""); [exact Hs | apply setAdd_NoDup, Hs].
    + repeat apply addAll_NoDup. constructor.
  - unfold extractErrorTypes. cbv zeta. apply addAll_NoDup.
    apply fold_NoDup; [|constructor].
    intros s p Hs. apply addAll_NoDup, Hs.
Qed.

Lemma endsWith_suffix (s p : string) :
  endsWith s p = true ->
  String.length p <= String.length s
  /\ drop (String.length s - String.length p) s = p.
Proof.
  unfold endsWith. intros H. apply andb_prop in H. destruct H as [Hl He].
  apply Nat.leb_le in Hl. apply String.eqb_eq in He. split; assumption.
Qed.

(** A path has one ending: of two suffixes of different length the
    longer one ends in the shorter one. *)
Lemma endsWith_both (s p q : string) :
  endsWith s p = true -> endsWith s q = true ->
  String.length q <= String.length p ->
  drop (String.length p - String.length q) p = q.
Proof.
  intros Hp Hq Hle.
  apply endsWith_suffix in Hp. apply endsWith_suffix in Hq.
  destruct Hp as [Hlp Hp], Hq as [Hlq Hq].
  rewrite <- Hp at 2. rewrite MatchingFacts.drop_drop.
  rewrite <- Hq at 2. f_equal. lia.
Qed.

Lemma one_language (f : string) :
  (endsWith f ".java" = true -> endsWith f ".js" = false /\ endsWith f ".py" = false)
  /\ (endsWith f ".js" = true -> endsWith f ".py" = false).
Proof.
  split; [intros Hjava; split|intros Hjs].
  - destruct (endsWith f ".js") eqn:E; [|reflexivity].
    pose proof (endsWith_both _ _ _ Hjava E) as H. cbn in H.
    discriminate (H ltac:(lia)).
  - destruct (endsWith f ".py") eqn:E; [|reflexivity].
    pose proof (endsWith_both _ _ _ Hjava E) as H. cbn in H.
    discriminate (H ltac:(lia)).
  - destruct (endsWith f ".py") eqn:E; [|reflexivity].
    pose proof (endsWith_both _ _ _ Hjs E) as H. cbn in H.
    discriminate (H ltac:(lia)).
Qed.

(** The relevance score of a trace result lies between 0 and 26: a
    file name has one extension, so at most one of the three language
    bonuses applies, and a result has one search context. *)
Theorem relevance_is_bounded (query_ : string) (result : SearchResult)
        (originalLog : string) :
  (0 <= calculateRelevance query_ result originalLog <= 26)%Z.
Proof.
  unfold calculateRelevance. cbv zeta.
  destruct (one_language (file result)) as [Hjava Hjs].
  destruct (endsWith (file result) ".java");
    [destruct (Hjava eq_refl) as [-> ->]|];
    [|destruct (endsWith (file result) ".js"); [rewrite (Hjs eq_refl)|]];
    repeat rewrite andb_false_r; repeat rewrite andb_true_r;
    (destruct (searchContext result) as [c|];
     [destruct (String.eqb_spec c "key_phrase") as [->|_];
      [cbn [String.eqb Ascii.eqb Bool.eqb]|
       destruct (String.eqb_spec c "light_normalized") as [->|_];
       [cbn [String.eqb Ascii.eqb Bool.eqb]|]]|]);
    repeat match goal with
           | |- context [if ?b then _ else _] => destruct b
           end; lia.
Qed.

(** ** Deduplication of trace results *)

Lemma resultKey_setScore (s : Z) (r : SearchResult) :
  resultKey (setScore s r) = resultKey r.
Proof. reflexivity. Qed.

Lemma resultKey_setContext (c : option string) (r : SearchResult) :
  resultKey (setContext c r) = resultKey r.
Proof. reflexivity. Qed.

Lemma improve_keys (key : string) (result : SearchResult)
      (unique : list SearchResult) :
  map resultKey (improve key result unique) = map resultKey unique.
Proof.
  induction unique as [|e tl IH]; cbn [improve map]; [reflexivity|].
  destruct (String.eqb (resultKey e) key); cbn [map].
  - destruct (score e <? score result)%Z; reflexivity.
  - rewrite IH. reflexivity.
Qed.

Lemma improve_split (key : string) (result : SearchResult)
      (unique : list SearchResult) :
  In key (map resultKey unique) ->
  exists pre e post,
    unique = pre ++ e :: post /\ resultKey e = key
    /\ improve key result unique = pre ++ improved result e :: post.
Proof.
  induction unique as [|e tl IH]; cbn [map In improve]; [contradiction|].
  destruct (String.eqb_spec (resultKey e) key) as [Hk|Hk].
  - intros _. exists [], e, tl. repeat split. exact Hk.
  - intros [H|H]; [contradiction|].
    destruct (IH H) as [pre [e0 [post [Hu [Hk0 Hi]]]]].
    exists (e :: pre), e0, post. cbn [app]. rewrite <- Hu, Hi.
    repeat split. exact Hk0.
Qed.

Lemma improved_key (result e : SearchResult) :
  resultKey (improved result e) = resultKey e.
Proof. unfold improved. destruct (score e <? score result)%Z; reflexivity. Qed.

Lemma improved_score (result e : SearchResult) :
  score (improved result e) = Z.max (score e) (score result).
Proof.
  unfold improved. destruct (score e <? score result)%Z eqn:L.
  - apply Z.ltb_lt in L. cbn. lia.
  - apply Z.ltb_ge in L. lia.
Qed.

Lemma accounts_new (unique processed : list SearchResult) (result : SearchResult) :
  accounts unique processed ->
  accounts (unique ++ [result]) (processed ++ [result]).
Proof.
  intros [Hcover Hfrom]. split.
  - intros r Hr. apply in_app_or in Hr. destruct Hr as [Hr|[<-|[]]].
    + destruct (Hcover r Hr) as [e [He Hk]]. exists e.
      split; [apply in_or_app; left; exact He | exact Hk].
    + exists result. split; [apply in_or_app; right; left; reflexivity|].
      split; [reflexivity | lia].
  - intros e He. apply in_app_or in He. destruct He as [He|[<-|[]]].
    + destruct (Hfrom e He) as [r [Hr Hk]]. exists r.
      split; [apply in_or_app; left; exact Hr | exact Hk].
    + exists result. split; [apply in_or_app; right; left; reflexivity|].
      split; reflexivity.
Qed.

Lemma accounts_improved (pre post processed : list SearchResult)
      (e result : SearchResult) :
  resultKey e = resultKey result ->
  accounts (pre ++ e :: post) processed ->
  accounts (pre ++ improved result e :: post) (processed ++ [result]).
Proof.
  intros Hkey [Hcover Hfrom].
  assert (Hkeep : forall x, In x (pre ++ e :: post) ->
                            x = e \/ In x (pre ++ improved result e :: post)).
  { intros x Hx. apply in_app_or in Hx. destruct Hx as [Hx|[Hx|Hx]].
    - right. apply in_or_app. left. exact Hx.
    - left. symmetry. exact Hx.
    - right. apply in_or_app. right. right. exact Hx. }
  assert (Hnew : In (improved result e) (pre ++ improved result e :: post))
    by (apply in_or_app; right; left; reflexivity).
  split.
  - intros r Hr. apply in_app_or in Hr. destruct Hr as [Hr|[<-|[]]].
    + destruct (Hcover r Hr) as [x [Hx [Hk Hs]]].
      destruct (Hkeep x Hx) as [->|Hx'].
      * exists (improved result e). split; [exact Hnew|].
        rewrite improved_key, improved_score. split; [exact Hk | lia].
      * exists x. repeat split; assumption.
    + exists (improved result e). split; [exact Hnew|].
      rewrite improved_key, improved_score. split; [exact Hkey | lia].
  - assert (He : In e (pre ++ e :: post))
      by (apply in_or_app; right; left; reflexivity).
    intros x Hx. apply in_app_or in Hx. destruct Hx as [Hx|[<-|Hx]].
    + assert (Hx' : In x (pre ++ e :: post)) by (apply in_or_app; left; exact Hx).
      destruct (Hfrom x Hx') as [r [Hr Hk]].
      exists r. split; [apply in_or_app; left; exact Hr | exact Hk].
    + rewrite improved_key, improved_score.
      destruct (Z.max_spec (score e) (score result)) as [[_ ->]|[_ ->]].
      * exists result. split; [apply in_or_app; right; left; reflexivity|].
        split; [symmetry; exact Hkey | reflexivity].
      * destruct (Hfrom e He) as [r [Hr Hk]].
        exists r. split; [apply in_or_app; left; exact Hr | exact Hk].
    + assert (Hx' : In x (pre ++ e :: post))
        by (apply in_or_app; right; right; exact Hx).
      destruct (Hfrom x Hx') as [r [Hr Hk]].
      exists r. split; [apply in_or_app; left; exact Hr | exact Hk].
Qed.

Lemma dedup_fold (rs : list SearchResult) :
  forall seen unique processed,
    seen = map resultKey unique -> NoDup seen -> accounts unique processed ->
    let '(seen', unique') := fold_left dedupStep rs (seen, unique) in
    seen' = map resultKey unique' /\ NoDup seen'
    /\ accounts unique' (processed ++ rs).
Proof.
  induction rs as [|r tl IH]; intros seen unique processed Hseen Hnd Hacc;
    cbn [fold_left].
  - rewrite app_nil_r. repeat split; try assumption; apply Hacc.
  - replace (processed ++ r :: tl) with ((processed ++ [r]) ++ tl)
      by (rewrite <- app_assoc; reflexivity).
    unfold dedupStep at 2.
    destruct (JsArray.includes seen (resultKey r)) eqn:E.
    + apply includes_In in E. rewrite Hseen in E.
      destruct (@improve_split (resultKey r) r unique E) as [pre [e [post [Hu [Hk Hi]]]]].
      apply IH.
      * rewrite improve_keys. exact Hseen.
      * exact Hnd.
      * rewrite Hi. apply accounts_improved; [exact Hk|]. rewrite <- Hu. exact Hacc.
    + apply IH.
      * rewrite map_app, Hseen. reflexivity.
      * apply NoDup_app; [exact Hnd | repeat constructor; intros [] |].
        intros k Hk [<-|[]]. apply includes_In in Hk. rewrite Hk in E.
        discriminate E.
      * apply accounts_new, Hacc.
Qed.

(** [deduplicateResults] keeps one entry per file and line; the entry
    carries the highest relevance score among the results with that
    file and line, and every entry stands for a result that was
    given. *)
Theorem deduplicated_results_keep_the_best (rs : list SearchResult) :
  let unique := deduplicateResults rs in
  NoDup (map resultKey unique)
  /\ (forall r, In r rs ->
                exists e, In e unique /\ resultKey e = resultKey r
                          /\ (score r <= score e)%Z)
  /\ (forall e, In e unique ->
                exists r, In r rs /\ resultKey r = resultKey e
                          /\ score r = score e).
Proof.
  unfold deduplicateResults.
  change (fold_left _ rs ([], [])) with (fold_left dedupStep rs ([], [])).
  pose proof (@dedup_fold rs [] [] [] eq_refl (NoDup_nil _)) as H.
  destruct (fold_left dedupStep rs ([], [])) as [seen unique].
  destruct H as [Hseen [Hnd Hacc]].
  - split; intros x [].
  - cbn [snd app] in *. rewrite <- Hseen. split; [exact Hnd | exact Hacc].
Qed.

(** The sentinel text is returned for an empty result list only, so a
    caller can tell from the text whether anything was found. *)
Theorem sentinel_means_no_result (rs : list SearchResult) :
  formatTraceResult rs = sentinel <-> rs = [].
Proof.
  split; [|intros ->; reflexivity].
  destruct rs as [|r tl]; [reflexivity|].
  unfold formatTraceResult. cbn [List.length Nat.eqb formatFrom].
  unfold formatOne at 1. change (ofNat (0 + 1)) with "1".
  destruct (formatFrom 1 tl); cbn [join append]; discriminate.
Qed.

End RelevanceFacts.

(** ** The robust search engine *)

Module RobustEngineFacts.
Import JsString JsObject RobustSearch RobustEngine Notions MoreNotions
       EngineFacts TextFacts Fixture.

Lemma indexOfAux_found (s p : string) (k i : nat) :
  indexOfAux s p k = Some i ->
  k <= i /\ startsWith (drop (i - k) s) p = true.
Proof.
  revert k. induction s as [|c s IH]; intros k; cbn [indexOfAux].
  - destruct (startsWith "" p) eqn:E; [|discriminate].
    intros H. inversion H. subst. rewrite Nat.sub_diag. split; [lia | exact E].
  - destruct (startsWith (String c s) p) eqn:E.
    + intros H. inversion H. subst. rewrite Nat.sub_diag. split; [lia | exact E].
    + intros H. destruct (IH _ H) as [Hle Hs]. split; [lia|].
      replace (i - k) with (S (i - S k)) by lia. exact Hs.
Qed.

(** [indexOf] from a position inside the text finds an occurrence at
    or after that position. *)
Lemma indexOfFrom_found (s p : string) (from i : nat) :
  from < String.length s ->
  indexOfFrom s p from = Some i ->
  from <= i /\ startsWith (drop i s) p = true.
Proof.
  intros Hlt. unfold indexOfFrom.
  destruct (String.length s <? from) eqn:E; [apply Nat.ltb_lt in E; lia|].
  intros H. apply indexOfAux_found in H. destruct H as [Hle Hs].
  rewrite MatchingFacts.drop_drop in Hs.
  replace (from + (i - from)) with i in Hs by lia. split; assumption.
Qed.

Section Engine.
Variable rt : Runtime.
Variable allowedPaths : list string.
Variable maxFileSize : Z.
Variable maxDepth : nat.
Variable readFileLatin1 : string -> option string.

Lemma searchLoop_sound (filePath content searchContent searchQuery query_ : string)
      (lines : list string) (remaining : nat) :
  forall searchIndex,
    let found := searchLoop filePath content searchContent searchQuery query_
                            lines remaining searchIndex in
    List.length found <= remaining
    /\ Forall (fun m => matchFile m = filePath
                        /\ startsWith (drop (matchIndex m) searchContent)
                                      searchQuery = true) found.
Proof.
  induction remaining as [|remaining IH]; intros searchIndex; cbn [searchLoop].
  - split; [cbn; lia | constructor].
  - destruct (searchIndex <? String.length searchContent) eqn:E;
      [|split; [cbn; lia | constructor]].
    apply Nat.ltb_lt in E.
    destruct (indexOfFrom searchContent searchQuery searchIndex) as [i|] eqn:F;
      [|split; [cbn; lia | constructor]].
    destruct (indexOfFrom_found _ _ E F) as [_ Hs].
    destruct (IH (i + String.length query_)) as [Hlen Hall].
    split; [cbn [List.length]; lia|].
    constructor; [|exact Hall]. split; [reflexivity | exact Hs].
Qed.

(** [searchInFile] never throws, returns at most [maxMatches] matches,
    and every match it returns is at a position where the file's text
    really contains the query (both case-folded unless the search is
    case-sensitive). *)
Theorem file_matches_are_bounded_and_real
        (filePath query_ : string) (caseSensitive : bool) (maxMatches : nat) :
  exists found,
    fst (searchInFile rt maxFileSize readFileLatin1 filePath query_
                      caseSensitive maxMatches) = Return found
    /\ List.length found <= maxMatches
    /\ Forall (fun m =>
                 matchFile m = filePath
                 /\ exists content,
                      readable rt readFileLatin1 filePath content
                      /\ startsWith
                           (drop (matchIndex m)
                                 (if caseSensitive then content
                                  else toLowerCase content))
                           (if caseSensitive then query_ else toLowerCase query_)
                         = true) found.
Proof.
  unfold searchInFile.
  assert (Hnone : exists found : list FileMatch,
             Return [] = Return found /\ List.length found <= maxMatches
             /\ Forall (fun m =>
                 matchFile m = filePath
                 /\ exists content,
                      readable rt readFileLatin1 filePath content
                      /\ startsWith
                           (drop (matchIndex m)
                                 (if caseSensitive then content
                                  else toLowerCase content))
                           (if caseSensitive then query_ else toLowerCase query_)
                         = true) found).
  { exists []. split; [reflexivity|]. split; [cbn; lia | constructor]. }
  destruct (stat rt filePath) as [size|]; cbn [orThrow]; [|exact Hnone].
  assert (Hsearch : forall content,
             readable rt readFileLatin1 filePath content ->
             exists found,
               Return (searchLoop filePath content
                         (if caseSensitive then content else toLowerCase content)
                         (if caseSensitive then query_ else toLowerCase query_)
                         query_ (splitChar newline content) maxMatches 0)
               = Return found
               /\ List.length found <= maxMatches
               /\ Forall (fun m =>
                 matchFile m = filePath
                 /\ exists content,
                      readable rt readFileLatin1 filePath content
                      /\ startsWith
                           (drop (matchIndex m)
                                 (if caseSensitive then content
                                  else toLowerCase content))
                           (if caseSensitive then query_ else toLowerCase query_)
                         = true) found).
  { intros content Hread. eexists. split; [reflexivity|].
    destruct (searchLoop_sound filePath content
                (if caseSensitive then content else toLowerCase content)
                (if caseSensitive then query_ else toLowerCase query_)
                query_ (splitChar newline content) maxMatches 0) as [Hlen Hall].
    split; [exact Hlen|].
    eapply Forall_impl; [|exact Hall]. cbv beta. intros m [Hf Hs].
    split; [exact Hf|]. exists content. split; assumption. }
  cbn. destruct (maxFileSize <? size)%Z; [exact Hnone|].
  destruct (readFile rt filePath) as [content|] eqn:R.
  - apply Hsearch. left. exact R.
  - destruct (readFileLatin1 filePath) as [content|] eqn:L; [|exact Hnone].
    apply Hsearch. right. split; assumption.
Qed.

Lemma searchLoop_empty_query (filePath content searchContent : string)
      (lines : list string) (remaining : nat) :
  searchContent <> "" ->
  searchLoop filePath content searchContent "" "" lines remaining 0
  = List.repeat (matchAt filePath content "" lines 0) remaining.
Proof.
  intros Hne. induction remaining as [|remaining IH]; cbn [searchLoop List.repeat];
    [reflexivity|].
  destruct searchContent as [|c s]; [contradiction Hne; reflexivity|].
  cbn [String.length Nat.ltb Nat.leb].
  change (indexOfFrom (String c s) "" 0) with (Some 0).
  cbn [String.length Nat.add]. rewrite IH. reflexivity.
Qed.

Lemma toLowerCase_empty (s : string) : toLowerCase s = "" -> s = "".
Proof. destruct s; [reflexivity | discriminate]. Qed.

(** The empty query on a readable, non-empty file: the search does not
    loop for ever but reports the same match, at position 0 on line 1,
    [maxMatches] times. *)
Theorem empty_query_repeats_one_match
        (filePath content : string) (size : Z) (caseSensitive : bool)
        (maxMatches : nat) :
  stat rt filePath = Some size -> (size <= maxFileSize)%Z ->
  readFile rt filePath = Some content -> content <> "" ->
  fst (searchInFile rt maxFileSize readFileLatin1 filePath "" caseSensitive
                    maxMatches)
  = Return (List.repeat
              (matchAt filePath content "" (splitChar newline content) 0)
              maxMatches)
  /\ matchLine (matchAt filePath content "" (splitChar newline content) 0) = 1
  /\ matchIndex (matchAt filePath content "" (splitChar newline content) 0) = 0.
Proof.
  intros Hstat Hsize Hread Hne. split; [|split; reflexivity].
  unfold searchInFile. rewrite Hstat. cbn [orThrow].
  apply fst_tryCatch_Return.
  rewrite (fst_bind_Return (ret size) _ (a := size) eq_refl).
  apply Z.ltb_ge in Hsize. rewrite Hsize, Hread.
  replace (if caseSensitive then "" else toLowerCase "") with ""
    by (destruct caseSensitive; reflexivity).
  rewrite searchLoop_empty_query; [reflexivity|].
  destruct caseSensitive; [exact Hne|].
  intros H. apply Hne, toLowerCase_empty, H.
Qed.

Lemma getAllFilesSync_returns (dirPath : string) (fuel depth_ : nat) :
  returns (getAllFilesSyncAt rt allowedPaths fuel dirPath maxDepth depth_).
Proof.
  destruct fuel; cbn [getAllFilesSyncAt]; apply returns_tryCatch; intros e;
    apply returns_tell_then, returns_ret.
Qed.

Lemma countType_sum (ext : string) (c : TypeCounts) :
  sumTypes (countType ext c) = S (sumTypes c).
Proof.
  unfold countType, sumTypes.
  destruct (shouldSearchFile ext "code"); [cbn; lia|].
  destruct (shouldSearchFile ext "docs"); cbn; lia.
Qed.

Lemma countFiles_sums (files : list SyncEntry) :
  forall dirExts dirTypes allExts allTypes,
    let '(dirExts', dirTypes', (allExts', allTypes')) :=
      countFiles files (dirExts, dirTypes, (allExts, allTypes)) in
    total dirExts' = total dirExts + List.length files
    /\ sumTypes dirTypes' = sumTypes dirTypes + List.length files
    /\ total allExts' = total allExts + List.length files
    /\ sumTypes allTypes' = sumTypes allTypes + List.length files.
Proof.
  unfold countFiles.
  induction files as [|f tl IH]; intros dirExts dirTypes allExts allTypes;
    cbn [fold_left List.length]; [repeat split; lia|].
  match goal with
  | |- context [fold_left _ tl (?a, ?b, (?c, ?d))] =>
      specialize (IH a b c d);
      destruct (fold_left _ tl (a, b, (c, d))) as [[de dt] [ae at_]]
  end.
  repeat rewrite total_increment in IH. repeat rewrite countType_sum in IH.
  destruct IH as [H1 [H2 [H3 H4]]]. repeat split; lia.
Qed.

Lemma statsLoop_addsUp (paths : list string) :
  forall stats,
    addsUp stats ->
    exists stats',
      fst (statsLoop rt allowedPaths maxDepth paths stats) = Return stats'
      /\ addsUp stats'.
Proof.
  induction paths as [|dirPath tl IH]; intros stats Hstats; cbn [statsLoop].
  - exists stats. split; [reflexivity | exact Hstats].
  - destruct (String.eqb dirPath "" || negb (existsSync rt dirPath)).
    + apply IH. exact Hstats.
    + destruct (getAllFilesSync_returns dirPath maxDepth 0) as [files Hfiles].
      unfold getAllFilesSync. rewrite (fst_bind_Return _ _ Hfiles).
      pose proof (countFiles_sums files [] noCounts
                    (filesByExtension stats) (filesByType stats)) as Hc.
      destruct (countFiles files ([], noCounts,
                                  (filesByExtension stats, filesByType stats)))
        as [[de dt] [ae at_]].
      destruct Hc as [H1 [H2 [H3 H4]]].
      destruct Hstats as [S1 [S2 [S3 S4]]].
      apply IH. unfold addsUp.
      cbn [totalFiles directories filesByType filesByExtension].
      rewrite map_app, list_sum_app. cbn [map fileCount].
      unfold list_sum at 2. cbn [fold_right]. cbn in H1, H2.
      split; [lia|]. split; [lia|]. split; [lia|].
      apply Forall_app. split; [exact S4|].
      constructor; [|constructor]. cbn [types dirExtensions fileCount].
      split; lia.
Qed.

(** [getDirectoryStats] never throws and its counters add up: the
    total is the sum of the per-directory file counts, the code, docs
    and other counts sum to the total, so do the per-extension counts,
    and the same holds inside every directory entry. *)
Theorem directory_stats_add_up (paths : list string) :
  exists stats,
    fst (getDirectoryStats rt allowedPaths maxDepth paths) = Return stats
    /\ totalFiles stats = list_sum (map fileCount (directories stats))
    /\ code (filesByType stats) + docs (filesByType stats)
       + other (filesByType stats) = totalFiles stats
    /\ total (filesByExtension stats) = totalFiles stats
    /\ Forall (fun d => code (types d) + docs (types d) + other (types d)
                        = fileCount d
                        /\ total (dirExtensions d) = fileCount d)
              (directories stats).
Proof.
  unfold getDirectoryStats.
  apply statsLoop_addsUp. repeat split; constructor.
Qed.

End Engine.

Lemma empty_query_repeats_one_match_witness :
  List.length
    (listOf (searchInFile Scenario.twoRoots 1024 (fun _ => None)
                          "/srv/a/x.js" "" false 10)) = 10.
Proof.
  destruct (@empty_query_repeats_one_match
              Scenario.twoRoots 1024 (fun _ => None) "/srv/a/x.js" "foo" 3 false 10)
    as [H _].
  - reflexivity.
  - lia.
  - reflexivity.
  - discriminate.
  - unfold listOf. rewrite H. apply repeat_length.
Defined.

End RobustEngineFacts.

(** ** More of the code traversal engine *)

Module CodeTraversalEngineFacts.
Import JsString JsRegExp JsPattern JsObject CodeTraversal CodeTraversalEngine
       MoreNotions TextFacts.

Lemma reSpecial_parses :
  parse reSpecial
  = Some (RClass false
            [ CChar "."; CChar "*"; CChar "+"; CChar "?"; CChar "^"; CChar "$";
              CChar "{"; CChar "}"; CChar "("; CChar ")"; CChar "|"; CChar "[";
              CChar "]"; CChar "\" ]).
Proof. vm_compute. reflexivity. Qed.

Lemma renumber_numbers (n : nat) (l : list TraceStep) :
  map stepNumber (renumber n l) = seq n (List.length l).
Proof.
  revert n. induction l as [|ps tl IH]; intros n; cbn; [reflexivity|].
  rewrite IH. reflexivity.
Qed.

Lemma renumber_length (n : nat) (l : list TraceStep) :
  List.length (renumber n l) = List.length l.
Proof. revert n. induction l as [|ps tl IH]; intros n; cbn; congruence. Qed.

Lemma numbered_fold (configurations : list (string * ConfigInfo)) :
  forall steps,
    map stepNumber steps = seq 1 (List.length steps) ->
    let result :=
      fst (fold_left
             (fun (acc : list AnalysisStep * nat) (entry : string * ConfigInfo) =>
                let '(steps, stepNumber_) := acc in
                (steps ++ renumber stepNumber_ (populationSteps (snd entry)),
                 stepNumber_ + List.length (populationSteps (snd entry))))
             configurations (steps, S (List.length steps))) in
    map stepNumber result = seq 1 (List.length result)
    /\ List.length result
       = List.length steps
         + list_sum (map (fun e => List.length (populationSteps (snd e)))
                         configurations).
Proof.
  induction configurations as [|[name config] tl IH]; intros steps Hsteps;
    cbn [fold_left fst snd map list_sum].
  - split; [exact Hsteps | cbn; lia].
  - specialize (IH (steps ++ renumber (S (List.length steps)) (populationSteps config))).
    rewrite length_app, renumber_length in IH.
    replace (S (List.length steps) + List.length (populationSteps config))
      with (S (List.length steps + List.length (populationSteps config))) by lia.
    destruct IH as [Hn Hl].
    + rewrite map_app, renumber_numbers, Hsteps, seq_app. reflexivity.
    + split; [exact Hn|]. rewrite Hl. unfold list_sum. cbn [fold_right]. lia.
Qed.

(** The trace steps of an analysis are numbered 1, 2, 3, ... without
    gaps, whatever step numbers the configuration traces carried, and
    there is one step for the error location, one for the first
    condition if any, and one per population step of every
    configuration. *)
Theorem trace_steps_are_numbered
        (flowAnalysis : FlowAnalysis) (configurations : list (string * ConfigInfo)) :
  let steps := buildTraceSteps flowAnalysis configurations in
  map stepNumber steps = seq 1 (List.length steps)
  /\ List.length steps
     = 1 + (match conditions flowAnalysis with [] => 0 | _ :: _ => 1 end)
       + list_sum (map (fun e => List.length (populationSteps (snd e)))
                       configurations).
Proof.
  unfold buildTraceSteps. cbv zeta.
  destruct (conditions flowAnalysis) as [|c rest].
  - match goal with
    | |- context [fold_left _ configurations (?s, 2)] =>
        pose proof (@numbered_fold configurations s eq_refl) as H
    end.
    cbv zeta in H. cbn [List.length app] in H |- *. destruct H as [Hn Hl].
    split; [exact Hn | rewrite Hl; reflexivity].
  - match goal with
    | |- context [fold_left _ configurations (?s, 3)] =>
        pose proof (@numbered_fold configurations s eq_refl) as H
    end.
    cbv zeta in H. cbn [List.length app] in H |- *. destruct H as [Hn Hl].
    split; [exact Hn | rewrite Hl; reflexivity].
Qed.

(** A constant is resolved once: whatever [resolveConstant] returned
    for a name, found or not, it returns again for that name on every
    later call, whatever source files that call is given, and the
    cache no longer changes. *)
Theorem resolved_constant_is_remembered
        (constant : string) (sourceFiles laterFiles : list SourceFile)
        (constantsMap constantsMap' : list (string * Resolution))
        (resolution : Resolution) :
  resolveConstant constant sourceFiles constantsMap
  = Return (resolution, constantsMap') ->
  resolveConstant constant laterFiles constantsMap'
  = Return (resolution, constantsMap').
Proof.
  unfold resolveConstant at 1.
  destruct (mapGet constant constantsMap) as [cached|] eqn:Hget.
  - intros H. inversion H. subst. unfold resolveConstant. rewrite Hget. reflexivity.
  - assert (Hset : forall r,
               Return (r, mapSet constant r constantsMap)
               = Return (resolution, constantsMap') ->
               resolveConstant constant laterFiles constantsMap'
               = Return (resolution, constantsMap')).
    { intros r H. inversion H. subst. unfold resolveConstant.
      rewrite mapGet_mapSet. reflexivity. }
    destruct sourceFiles as [|f tl]; [apply Hset|].
    destruct (compileAll (declarationPatterns constant)); [apply Hset | discriminate].
Qed.

Lemma resolved_constant_is_remembered_witness :
  let declared := [{| sourcePath := "Limits.java";
                      content := "static final int MAX_PLANS = 5;" |}] in
  let changed := [{| sourcePath := "Limits.java";
                     content := "static final int MAX_PLANS = 9;" |}] in
  exists resolution constantsMap,
    resolveConstant "MAX_PLANS" declared [] = Return (resolution, constantsMap)
    /\ resolutionValue resolution = Some "5"
    /\ resolveConstant "MAX_PLANS" changed constantsMap
       = Return (resolution, constantsMap).
Proof.
  intros declared changed.
  destruct (resolveConstant "MAX_PLANS" declared []) as [[r m]|e] eqn:E.
  - exists r, m. split; [reflexivity|].
    split; [vm_compute in E; inversion E; reflexivity|].
    exact (@resolved_constant_is_remembered _ _ changed _ _ _ E).
  - vm_compute in E. discriminate E.
Defined.

(** ** Method bodies *)

Lemma body_inside (l : list ascii) :
  forall braceCount,
    let body_ := methodBodyLoop l braceCount true in
    exists post,
      l = body_ ++ post
      /\ (post = [] \/ (braceCount + braceBalance body_ = 0)%Z).
Proof.
  induction l as [|c tl IH]; intros braceCount; cbn [methodBodyLoop].
  - exists []. split; [reflexivity | left; reflexivity].
  - cbn [orb]. destruct (Ascii.eqb c "{") eqn:Ho.
    + assert (Hc : Ascii.eqb c "}" = false)
        by (apply Ascii.eqb_eq in Ho; subst c; reflexivity).
      rewrite Hc. destruct (IH (braceCount + 1)%Z) as [post [Hl Hb]].
      exists post. split; [cbn; rewrite <- Hl; reflexivity|].
      destruct Hb as [Hb|Hb]; [left; exact Hb|right].
      cbn [braceBalance]. rewrite Ho. lia.
    + destruct (Ascii.eqb c "}") eqn:Hc.
      * destruct (Z.eqb (braceCount - 1) 0 && true) eqn:Hz.
        { exists tl. split; [reflexivity|]. right.
          rewrite andb_true_r in Hz. apply Z.eqb_eq in Hz.
          cbn [braceBalance]. rewrite Ho, Hc. lia. }
        { destruct (IH (braceCount - 1)%Z) as [post [Hl Hb]].
          exists post. split; [cbn; rewrite <- Hl; reflexivity|].
          destruct Hb as [Hb|Hb]; [left; exact Hb|right].
          cbn [braceBalance]. rewrite Ho, Hc. lia. }
      * destruct (IH braceCount) as [post [Hl Hb]].
        exists post. split; [cbn; rewrite <- Hl; reflexivity|].
        destruct Hb as [Hb|Hb]; [left; exact Hb|right].
        cbn [braceBalance]. rewrite Ho, Hc. lia.
Qed.

Lemma body_found (l : list ascii) :
  forall braceCount,
    let body_ := methodBodyLoop l braceCount false in
    exists pre post,
      l = pre ++ body_ ++ post
      /\ ~ In "{"%char pre
      /\ (body_ = [] \/ exists rest_, body_ = "{"%char :: rest_)
      /\ (post = []
          \/ (braceCount + braceBalance pre + braceBalance body_ = 0)%Z).
Proof.
  induction l as [|c tl IH]; intros braceCount; cbn [methodBodyLoop].
  - exists [], []. repeat split; [intros [] | left; reflexivity | left; reflexivity].
  - cbn [orb]. destruct (Ascii.eqb c "{") eqn:Ho.
    + assert (Hc : Ascii.eqb c "}" = false)
        by (apply Ascii.eqb_eq in Ho; subst c; reflexivity).
      rewrite Hc. destruct (body_inside tl (braceCount + 1)%Z) as [post [Hl Hb]].
      exists [], post. cbn [app]. split; [rewrite <- Hl; reflexivity|].
      split; [intros []|]. split.
      * right. apply Ascii.eqb_eq in Ho. subst c. eexists. reflexivity.
      * destruct Hb as [Hb|Hb]; [left; exact Hb|right].
        cbn [braceBalance]. rewrite Ho. lia.
    + assert (Hne : c <> "{"%char) by (intros ->; discriminate Ho).
      destruct (Ascii.eqb c "}") eqn:Hc.
      * rewrite andb_false_r.
        destruct (IH (braceCount - 1)%Z) as [pre [post [Hl [Hp [Hs Hb]]]]].
        exists (c :: pre), post. cbn [app]. split; [rewrite <- Hl; reflexivity|].
        split; [intros [H|H]; [exact (Hne H) | exact (Hp H)]|].
        split; [exact Hs|].
        destruct Hb as [Hb|Hb]; [left; exact Hb|right].
        cbn [braceBalance]. rewrite Ho, Hc. lia.
      * destruct (IH braceCount) as [pre [post [Hl [Hp [Hs Hb]]]]].
        exists (c :: pre), post. cbn [app]. split; [rewrite <- Hl; reflexivity|].
        split; [intros [H|H]; [exact (Hne H) | exact (Hp H)]|].
        split; [exact Hs|].
        destruct Hb as [Hb|Hb]; [left; exact Hb|right].
        cbn [braceBalance]. rewrite Ho, Hc. lia.
Qed.

Lemma ofChars_app (a b : list ascii) :
  ofChars (a ++ b) = (ofChars a ++ ofChars b)%string.
Proof.
  unfold ofChars. induction a as [|c a IH]; cbn; [reflexivity|].
  rewrite IH. reflexivity.
Qed.

Lemma chars_ofChars (l : list ascii) : chars (ofChars l) = l.
Proof. apply list_ascii_of_string_of_list_ascii. Qed.

Lemma ofChars_chars (s : string) : ofChars (chars s) = s.
Proof. apply string_of_list_ascii_of_string. Qed.

(** The method body that [extractMethodBody] returns is a piece of the
    content after the start index: it is empty or begins at the first
    opening brace, nothing before it contains an opening brace, and
    unless it runs to the end of the content its braces balance, up to
    the closing braces that were skipped before it. *)
Theorem method_body_is_a_braced_piece (content_ : string) (methodStartIndex : nat) :
  let body_ := extractMethodBody content_ methodStartIndex in
  exists pre post,
    drop methodStartIndex content_ = (pre ++ body_ ++ post)%string
    /\ ~ In "{"%char (chars pre)
    /\ (body_ = "" \/ exists rest_, body_ = String "{" rest_)
    /\ (post = ""
        \/ (braceBalance (chars pre) + braceBalance (chars body_) = 0)%Z).
Proof.
  unfold extractMethodBody.
  destruct (body_found (chars (drop methodStartIndex content_)) 0)
    as [pre [post [Hl [Hp [Hs Hb]]]]].
  exists (ofChars pre), (ofChars post).
  rewrite chars_ofChars, chars_ofChars. split.
  - rewrite <- ofChars_app, <- ofChars_app, <- Hl. symmetry. apply ofChars_chars.
  - split; [exact Hp|]. split.
    + destruct Hs as [->|[rest_ ->]]; [left; reflexivity|].
      right. exists (ofChars rest_). reflexivity.
    + destruct Hb as [->|Hb]; [left; reflexivity | right; lia].
Qed.

End CodeTraversalEngineFacts.

(** ** Escaping and wrapping text *)

Module EscapeFacts.
Import JsString JsRegExp JsPattern CodeTraversalEngine AnalysisFormatter
       MoreNotions TextFacts CodeTraversalEngineFacts.

Lemma append_nil_r (s : string) : (s ++ "")%string = s.
Proof. induction s as [|c s IH]; cbn; [reflexivity | rewrite IH; reflexivity]. Qed.

Lemma drop_ofChars (a b : list ascii) :
  drop (List.length a) (ofChars (a ++ b)) = ofChars b.
Proof.
  unfold ofChars.
  induction a as [|c a IH]; cbn;
    [destruct (string_of_list_ascii b); reflexivity | exact IH].
Qed.

Lemma take_ofChars (a b : list ascii) :
  take (List.length a) (ofChars (a ++ b)) = ofChars a.
Proof.
  unfold ofChars.
  induction a as [|c a IH]; cbn;
    [destruct (string_of_list_ascii b); reflexivity|].
  rewrite IH. reflexivity.
Qed.

Lemma slice_ofChars (a b c : list ascii) :
  slice (ofChars (a ++ b ++ c)) (List.length a) (List.length a + List.length b)
  = ofChars b.
Proof.
  unfold slice. rewrite drop_ofChars.
  replace (List.length a + List.length b - List.length a) with (List.length b) by lia.
  apply take_ofChars.
Qed.

Section ClassReplace.
Variable fl : flags.
Variable neg : bool.
Variable items : list classItem.
Variable g : string -> string.
Variable f : matchResult -> string.
Hypothesis f_reads_the_match : forall m, f m = g (matched m).

Lemma searchFrom_class (p : nat) (pv : option ascii) (l : list ascii) :
  searchFrom fl (RClass neg items) p pv l
  = match l with
    | [] => None
    | c :: tl =>
        if xorb neg (classMem fl items c)
        then Some ({| pos := p; prev := pv; rest := l; caps := [] |},
                   {| pos := S p; prev := Some c; rest := tl; caps := [] |})
        else searchFrom fl (RClass neg items) (S p) (Some c) tl
    end.
Proof.
  destruct l as [|c tl]; cbn; [reflexivity|].
  destruct (xorb neg (classMem fl items c)); reflexivity.
Qed.

Lemma replace_class_from (inp : list ascii) :
  forall l pre skipped fuel pv cs,
    List.length l < fuel ->
    replaceLoop (ofChars (pre ++ skipped ++ l)) (List.length pre)
                (matchesFrom fl (RClass neg items) inp fuel
                   {| pos := List.length pre + List.length skipped;
                      prev := pv; rest := l; caps := cs |}) f
    = (ofChars skipped
       ++ replaceEach (fun c => xorb neg (classMem fl items c)) g l)%string.
Proof.
  induction l as [|c tl IH]; intros pre skipped fuel pv cs Hfuel;
    (destruct fuel as [|fuel]; [cbn in Hfuel; lia|]).
  - cbn [matchesFrom pos prev rest]. rewrite searchFrom_class.
    cbn [replaceLoop replaceEach]. rewrite drop_ofChars, app_nil_r.
    symmetry. apply append_nil_r.
  - cbn [List.length] in Hfuel.
    destruct (xorb neg (classMem fl items c)) eqn:Hmem.
    + cbn [matchesFrom pos prev rest]. rewrite searchFrom_class, Hmem.
      cbn [pos].
      assert (Hne : (S (List.length pre + List.length skipped)
                     =? List.length pre + List.length skipped) = false)
        by (apply Nat.eqb_neq; lia).
      rewrite Hne. cbn [replaceLoop]. unfold mkResult at 1 2 3.
      cbn [index endIndex matched pos rest].
      replace (S (List.length pre + List.length skipped)
               - (List.length pre + List.length skipped)) with 1 by lia.
      cbn [firstn]. rewrite f_reads_the_match. cbn [matched].
      replace (S (List.length pre + List.length skipped)
               - (List.length pre + List.length skipped)) with 1 by lia.
      cbn [firstn]. rewrite slice_ofChars.
      cbn [replaceEach]. rewrite Hmem.
      specialize (IH (pre ++ skipped ++ [c]) [] fuel (Some c) []).
      cbn [List.length app] in IH.
      rewrite !length_app in IH. cbn [List.length] in IH.
      replace (List.length pre + (List.length skipped + 1) + 0)
        with (S (List.length pre + List.length skipped)) in IH by lia.
      replace (List.length pre + (List.length skipped + 1))
        with (S (List.length pre + List.length skipped)) in IH by lia.
      replace ((pre ++ skipped ++ [c]) ++ tl) with (pre ++ skipped ++ c :: tl) in IH
        by (rewrite <- !app_assoc; reflexivity).
      rewrite IH by lia. reflexivity.
    + assert (E : matchesFrom fl (RClass neg items) inp (S fuel)
                    {| pos := List.length pre + List.length skipped;
                       prev := pv; rest := c :: tl; caps := cs |}
                  = matchesFrom fl (RClass neg items) inp (S fuel)
                      {| pos := List.length pre + List.length (skipped ++ [c]);
                         prev := Some c; rest := tl; caps := cs |}).
      { cbn [matchesFrom pos prev rest]. rewrite searchFrom_class, Hmem.
        rewrite length_app. cbn [List.length].
        replace (List.length pre + (List.length skipped + 1))
          with (S (List.length pre + List.length skipped)) by lia.
        reflexivity. }
      rewrite E.
      specialize (IH pre (skipped ++ [c]) (S fuel) (Some c) cs).
      replace (pre ++ (skipped ++ [c]) ++ tl) with (pre ++ skipped ++ c :: tl) in IH
        by (rewrite <- !app_assoc; reflexivity).
      rewrite IH by lia.
      cbn [replaceEach]. rewrite Hmem, ofChars_app.
      rewrite <- WalkerFacts.append_assoc. reflexivity.
Qed.

Lemma replaceWith_class (s : string) :
  replaceWith fl (RClass neg items) f s
  = replaceEach (fun c => xorb neg (classMem fl items c)) g (chars s).
Proof.
  unfold replaceWith, matchAll, startState.
  pose proof (@replace_class_from (chars s) (chars s) [] []
                (S (S (List.length (chars s)))) None []) as H.
  cbn [app List.length Nat.add] in H.
  rewrite ofChars_chars in H. rewrite H by lia. reflexivity.
Qed.

End ClassReplace.

Lemma replaceEach_ext (p q : ascii -> bool) (g : string -> string) (l : list ascii) :
  (forall c, p c = q c) -> replaceEach p g l = replaceEach q g l.
Proof.
  intros H. induction l as [|c tl IH]; cbn; [reflexivity|].
  rewrite H, IH. reflexivity.
Qed.

Lemma replaceEach_none (p : ascii -> bool) (g : string -> string) (l : list ascii) :
  forallb (fun c => negb (p c)) l = true -> replaceEach p g l = ofChars l.
Proof.
  induction l as [|d tl IH]; cbn [replaceEach forallb]; intros H; [reflexivity|].
  apply andb_true_iff in H. destruct H as [Hd Htl].
  apply negb_true_iff in Hd. rewrite Hd, (IH Htl). reflexivity.
Qed.

Lemma chars_app (a b : string) : chars (a ++ b) = chars a ++ chars b.
Proof. unfold chars. induction a as [|c a IH]; cbn; [reflexivity | rewrite IH; reflexivity]. Qed.

Lemma reHtmlSpecial_parses :
  parse reHtmlSpecial
  = Some (RClass false [CChar "&"; CChar "<"; CChar ">"; CChar dquote; CChar "'"]).
Proof. vm_compute. reflexivity. Qed.

Lemma escapeHtml_each (text : string) :
  escapeHtml text = replaceEach htmlSpecial htmlEntity (chars text).
Proof.
  unfold escapeHtml, lit. rewrite reHtmlSpecial_parses.
  rewrite (@replaceWith_class noFlags false _ htmlEntity _ (fun m => eq_refl)).
  apply replaceEach_ext. intros c. unfold htmlSpecial. cbn.
  rewrite !orb_false_r, !orb_assoc. reflexivity.
Qed.

Lemma htmlSpecial_cases (c : ascii) :
  htmlSpecial c = true ->
  c = "&"%char \/ c = "<"%char \/ c = ">"%char \/ c = dquote \/ c = "'"%char.
Proof.
  unfold htmlSpecial. rewrite !orb_true_iff, !Ascii.eqb_eq. tauto.
Qed.

(** [escapeHtml] replaces each of the five characters [&], [<], [>],
    the double quote and the single quote by its entity and copies
    every other character; in its result the only one of the five left
    is the [&] that starts an entity, and a text without any of the
    five comes back unchanged. *)
Theorem escaped_html_has_no_markup (text : string) :
  escapeHtml text = replaceEach htmlSpecial htmlEntity (chars text)
  /\ (forall c, In c (chars (escapeHtml text)) ->
                htmlSpecial c = true -> c = "&"%char)
  /\ (forallb (fun c => negb (htmlSpecial c)) (chars text) = true ->
      escapeHtml text = text).
Proof.
  split; [apply escapeHtml_each|]. rewrite escapeHtml_each. split.
  - induction (chars text) as [|d tl IH]; cbn [replaceEach]; intros c Hin Hc;
      [destruct Hin|].
    rewrite chars_app in Hin. apply in_app_or in Hin.
    destruct Hin as [Hin|Hin]; [|exact (IH c Hin Hc)].
    destruct (htmlSpecial d) eqn:Hd.
    + apply htmlSpecial_cases in Hd.
      destruct Hd as [-> | [-> | [-> | [-> | ->]]]]; cbn in Hin;
        repeat (destruct Hin as [<- | Hin]; [try reflexivity; discriminate Hc|]);
        destruct Hin.
    + cbn in Hin. destruct Hin as [<- | [] ]. rewrite Hd in Hc. discriminate Hc.
  - intros H. rewrite (replaceEach_none _ _ _ H). apply ofChars_chars.
Qed.

Lemma escapeRegex_each (str : string) :
  escapeRegex str
  = replaceEach regexSpecial (fun ch => String "\" ch) (chars str).
Proof.
  unfold escapeRegex, lit, replace. rewrite reSpecial_parses.
  rewrite (@replaceWith_class noFlags false _ (fun ch => String "\" ch) _).
  - apply replaceEach_ext. intros c. unfold regexSpecial. cbn.
    rewrite !orb_false_r. reflexivity.
  - intros m. cbn. rewrite append_nil_r. reflexivity.
Qed.

(** [escapeRegex] puts a backslash before each of the fourteen special
    characters and copies the others, so the text can be read back:
    taking every backslash of the result as an escape of the character
    after it gives the original text.  Hence two different texts never
    have the same escaped form. *)
Theorem escaped_pattern_reads_back (str : string) :
  escapeRegex str
  = replaceEach regexSpecial (fun ch => String "\" ch) (chars str)
  /\ unescape (chars (escapeRegex str)) = chars str.
Proof.
  split; [apply escapeRegex_each|]. rewrite escapeRegex_each.
  induction (chars str) as [|c tl IH]; [reflexivity|].
  cbn [replaceEach]. rewrite chars_app.
  destruct (regexSpecial c) eqn:Hc.
  - cbn [chars list_ascii_of_string app unescape]. 
    change (list_ascii_of_string "") with (@nil ascii).
    cbn [app unescape]. rewrite Ascii.eqb_refl.
    fold (chars (replaceEach regexSpecial (fun ch => String "\" ch) tl)).
    rewrite IH. reflexivity.
  - cbn [chars list_ascii_of_string app unescape].
    destruct (Ascii.eqb c "\") eqn:Hb.
    + apply Ascii.eqb_eq in Hb. subst c. discriminate Hc.
    + fold (chars (replaceEach regexSpecial (fun ch => String "\" ch) tl)).
      rewrite IH. reflexivity.
Qed.

(** ** Wrapping *)

Lemma wrapWord_keeps (width : nat) (indent : string) (words : list string)
      (lines : list string) (currentLine word : string) :
  In word words ->
  Forall (fun line_ => (exists t, line_ = (indent ++ t)%string)
                       /\ wrapped width indent words line_)
         (currentLine :: lines) ->
  let '(lines', currentLine') := wrapWord width indent (lines, currentLine) word in
  Forall (fun line_ => (exists t, line_ = (indent ++ t)%string)
                       /\ wrapped width indent words line_)
         (currentLine' :: lines').
Proof.
  intros Hin H. unfold wrapWord.
  destruct (width <? String.length (currentLine ++ word)) eqn:E.
  - constructor.
    + split; [exists word; reflexivity|].
      right. right. exists word. split; [exact Hin | reflexivity].
    + inversion H as [|x l Hc Hl]. subst. apply Forall_app. split; [exact Hl|].
      constructor; [exact Hc | constructor].
  - inversion H as [|x l Hc Hl]. subst. constructor; [|exact Hl].
    destruct Hc as [[t Ht] _]. split.
    + exists (t ++ (if String.eqb currentLine indent then "" else " ") ++ word)%string.
      rewrite Ht at 1. rewrite WalkerFacts.append_assoc. reflexivity.
    + left. apply Nat.ltb_ge in E. rewrite length_append in E.
      rewrite !length_append.
      destruct (String.eqb currentLine indent); cbn [String.length]; lia.
Qed.

Lemma wrap_fold (width : nat) (indent : string) (words : list string) :
  forall ws lines currentLine,
    (forall w, In w ws -> In w words) ->
    Forall (fun line_ => (exists t, line_ = (indent ++ t)%string)
                         /\ wrapped width indent words line_)
           (currentLine :: lines) ->
    let '(lines', currentLine') :=
      fold_left (wrapWord width indent) ws (lines, currentLine) in
    Forall (fun line_ => (exists t, line_ = (indent ++ t)%string)
                         /\ wrapped width indent words line_)
           (currentLine' :: lines').
Proof.
  induction ws as [|w tl IH]; intros lines currentLine Hsub H; cbn [fold_left];
    [exact H|].
  pose proof (@wrapWord_keeps width indent words lines currentLine w
                (Hsub w (or_introl eq_refl)) H) as Hstep.
  destruct (wrapWord width indent (lines, currentLine) w) as [lines' currentLine'].
  apply IH; [intros w' Hw'; apply Hsub; right; exact Hw' | exact Hstep].
Qed.

(** Every line [wrapText] produces starts with the indent, and is at
    most [width + 1] characters long (the blank between two words is
    not counted when the width is checked) unless it is the bare
    indent or the indent followed by a single word of the text. *)
Theorem wrapped_lines_fit (text : string) (width : nat) (indent : string) :
  wrapText text width indent = join NL (wrapLines text width indent)
  /\ Forall (fun line_ =>
               (exists t, line_ = (indent ++ t)%string)
               /\ wrapped width indent (splitChar " " text) line_)
            (wrapLines text width indent).
Proof.
  split; [reflexivity|]. unfold wrapLines.
  pose proof (@wrap_fold width indent (splitChar " " text)
                (splitChar " " text) [] indent (fun w H => H)) as H.
  destruct (fold_left (wrapWord width indent) (splitChar " " text) ([], indent))
    as [lines currentLine].
  assert (H0 : Forall (fun line_ => (exists t, line_ = (indent ++ t)%string)
                                    /\ wrapped width indent (splitChar " " text) line_)
                      [indent]).
  { constructor; [|constructor]. split.
    - exists "". symmetry. apply append_nil_r.
    - right. left. reflexivity. }
  specialize (H H0). inversion H as [|x l Hc Hl]. subst.
  destruct (String.length indent <? String.length currentLine); [|exact Hl].
  apply Forall_app. split; [exact Hl | constructor; [exact Hc | constructor]].
Qed.

End EscapeFacts.

(** ** The references of a snippet *)

Module ReferenceFacts.
Import JsString JsRegExp JsPattern TraversalAnalyzer TextFacts RelevanceFacts.

Lemma setAdd_In (s : list string) (x y : string) :
  In y (LogTracer.setAdd s x) -> In y s \/ y = x.
Proof.
  unfold LogTracer.setAdd. destruct (JsArray.includes s x); [left; assumption|].
  intros H. apply in_app_or in H. destruct H as [H|[H|[]]]; [left | right]; auto.
Qed.

Lemma fold_Forall {A : Type} (P : string -> Prop)
      (f : list string -> A -> list string) (xs : list A) :
  (forall s x, Forall P s -> Forall P (f s x)) ->
  forall s, Forall P s -> Forall P (fold_left f xs s).
Proof.
  intros Hf. induction xs as [|x tl IH]; intros s Hs; cbn [fold_left];
    [exact Hs | apply IH, Hf, Hs].
Qed.

Lemma setAdd_Forall (P : string -> Prop) (s : list string) (x : string) :
  P x -> Forall P s -> Forall P (LogTracer.setAdd s x).
Proof.
  intros Hx Hs. apply Forall_forall. intros y Hy.
  apply setAdd_In in Hy. destruct Hy as [Hy| ->]; [|exact Hx].
  rewrite Forall_forall in Hs. apply Hs, Hy.
Qed.

Lemma upperChar_idem (c : ascii) : upperChar (upperChar c) = upperChar c.
Proof. destruct c as [[] [] [] [] [] [] [] []]; reflexivity. Qed.

Lemma toUpperCase_idem (s : string) : toUpperCase (toUpperCase s) = toUpperCase s.
Proof.
  induction s as [|c s IH]; cbn; [reflexivity|].
  rewrite upperChar_idem, IH. reflexivity.
Qed.

(** The references extracted from a snippet are sets: none of the six
    lists holds a text twice.  A constant is a name in capitals of at
    least three characters and never also a variable; a variable is
    never such a name; every table is in capitals. *)
Theorem references_are_sets (snippet : string) :
  let references := extractReferences snippet in
  (NoDup (variables references) /\ NoDup (methods references)
   /\ NoDup (classes references) /\ NoDup (tables references)
   /\ NoDup (constants references) /\ NoDup (configurations references))
  /\ Forall (fun v => v = toUpperCase v /\ 2 < String.length v)
            (constants references)
  /\ Forall (fun v => ~ (v = toUpperCase v /\ 2 < String.length v))
            (variables references)
  /\ (forall v, In v (constants references) -> ~ In v (variables references))
  /\ Forall (fun t => t = toUpperCase t /\ t <> "") (tables references).
Proof.
  cbv zeta.
  assert (Hconstants :
            Forall (fun v => v = toUpperCase v /\ 2 < String.length v)
                   (constants (extractReferences snippet))).
  { unfold extractReferences. cbn [constants].
    apply fold_Forall; [|constructor]. intros s v Hs.
    destruct (String.eqb v (toUpperCase v)) eqn:Eu; cbn [andb]; [|exact Hs].
    destruct (2 <? String.length v) eqn:El; [|exact Hs].
    apply setAdd_Forall; [|exact Hs].
    apply String.eqb_eq in Eu. apply Nat.ltb_lt in El. split; assumption. }
  assert (Hvariables :
            Forall (fun v => ~ (v = toUpperCase v /\ 2 < String.length v))
                   (variables (extractReferences snippet))).
  { unfold extractReferences. cbn [variables].
    apply fold_Forall; [|constructor]. intros s v Hs.
    destruct (String.eqb v (toUpperCase v)) eqn:Eu; cbn [andb].
    - destruct (2 <? String.length v) eqn:El; [exact Hs|].
      apply setAdd_Forall; [|exact Hs].
      apply Nat.ltb_ge in El. intros [_ H]. lia.
    - apply setAdd_Forall; [|exact Hs].
      apply String.eqb_neq in Eu. intros [H _]. exact (Eu H). }
  split; [|split; [exact Hconstants | split; [exact Hvariables | split]]].
  - unfold extractReferences.
    cbn [variables methods classes tables constants configurations].
    repeat split.
    + apply fold_NoDup; [|constructor]. intros s v Hs.
      destruct (_ && _); [exact Hs | apply setAdd_NoDup, Hs].
    + apply fold_NoDup; [|constructor]. intros s m Hs. apply setAdd_NoDup, Hs.
    + apply fold_NoDup; [|constructor]. intros s m Hs. apply setAdd_NoDup, Hs.
    + apply fold_NoDup; [|constructor]. intros s m Hs.
      destruct (String.eqb _ ""); [exact Hs | apply setAdd_NoDup, Hs].
    + apply fold_NoDup; [|constructor]. intros s v Hs.
      destruct (_ && _); [apply setAdd_NoDup, Hs | exact Hs].
    + apply fold_NoDup; [|constructor]. intros s v Hs. apply setAdd_NoDup, Hs.
  - intros v Hc Hv.
    rewrite Forall_forall in Hconstants, Hvariables.
    exact (Hvariables v Hv (Hconstants v Hc)).
  - unfold extractReferences. cbn [tables].
    apply fold_Forall; [|constructor]. intros s m Hs.
    destruct (String.eqb (groupOr m 1) "") eqn:E; [exact Hs|].
    apply setAdd_Forall; [|exact Hs]. split.
    + symmetry. apply toUpperCase_idem.
    + apply String.eqb_neq in E. intros H. apply E.
      destruct (groupOr m 1); [reflexivity | discriminate H].
Qed.

(** The table names read from an SQL text are distinct and none of
    them is empty. *)
Theorem sql_tables_are_distinct (sql : string) :
  NoDup (extractTablesFromSQL sql)
  /\ Forall (fun t => t <> "") (extractTablesFromSQL sql).
Proof.
  unfold extractTablesFromSQL. split.
  - apply fold_NoDup; [|constructor]. intros s p Hs.
    apply fold_NoDup; [|exact Hs]. intros s' m Hs'.
    destruct (String.eqb _ ""); [exact Hs' | apply setAdd_NoDup, Hs'].
  - apply fold_Forall; [|constructor]. intros s p Hs.
    apply fold_Forall; [|exact Hs]. intros s' m Hs'.
    destruct (String.eqb (groupOr m 1) "") eqn:E; [exact Hs'|].
    apply setAdd_Forall; [|exact Hs']. apply String.eqb_neq, E.
Qed.

End ReferenceFacts.

